(** * OpenWebUI native client: renderer logic of [App.tsx]

    A shallow embedding of the three variants of the React component [App]
    found in the repository, and the properties of its session and
    message-exchange logic.

    - [ModelsClient]: [src/renderer/App.tsx], API key as bearer token, model
      discovery through [/models], chat through [/chat/completions].
    - [ChatsClient]: the second [App.tsx], API key as bearer token, history
      through [/chats], chat through [/message].
    - [LoginClient]: the third [App.tsx], user name and password login,
      history through [/api/chats], chat through [/api/message].
    - [ModelsApp], [ChatsApp]: the first and the second component as a
      whole: what they render, the events of a session and the effects
      React runs after each of them.
    - [LoginForm]: [login] of the third component.

    JavaScript strings are modelled by [string]: a sequence of code units,
    restricted to the one-byte range U+0000..U+00FF. *)

From Stdlib Require Import String Ascii ZArith List Bool Lia.
From stdpp Require Import gmap strings pretty.
Import ListNotations.

Set Warnings "-register-all".
Local Open Scope Z_scope.
Local Open Scope list_scope.

(* ===================================================================== *)
(** ** String primitives of the JavaScript runtime used by the component *)
(* ===================================================================== *)

Module JsString.

(** [WhiteSpace] and [LineTerminator] code units below U+0100: TAB, LF, VT,
    FF, CR, SP and NBSP. These are the code units [String.prototype.trim]
    removes. *)
Definition is_space (c : ascii) : bool :=
  let n := nat_of_ascii c in
  (Nat.eqb n 9 || Nat.eqb n 10 || Nat.eqb n 11 || Nat.eqb n 12
   || Nat.eqb n 13 || Nat.eqb n 32 || Nat.eqb n 160)%bool.

Definition is_slash (c : ascii) : bool := Ascii.eqb c "/"%char.

Definition is_empty (s : string) : bool :=
  match s with EmptyString => true | String _ _ => false end.

(** Remove the longest suffix whose code units all satisfy [p]. *)
Fixpoint drop_end (p : ascii -> bool) (s : string) : string :=
  match s with
  | EmptyString => EmptyString
  | String c r =>
      let r' := drop_end p r in
      if (p c && is_empty r')%bool then EmptyString else String c r'
  end.

(** Remove the longest prefix whose code units all satisfy [p]. *)
Fixpoint drop_start (p : ascii -> bool) (s : string) : string :=
  match s with
  | EmptyString => EmptyString
  | String c r => if p c then drop_start p r else s
  end.

(** [s.trim()] *)
Definition trim (s : string) : string :=
  drop_end is_space (drop_start is_space s).

(** [s.replace(/\/+$/, '')]: the only match of [/\/+$/] is the maximal run
    of slashes at the end of the input. *)
Definition strip_trailing_slashes (s : string) : string :=
  drop_end is_slash s.

(** [s.startsWith(p)] *)
Fixpoint startsWith (s p : string) : bool :=
  match p, s with
  | EmptyString, _ => true
  | String _ _, EmptyString => false
  | String a p', String b s' => (Ascii.eqb a b && startsWith s' p')%bool
  end.

(** [s.endsWith(x)]: some suffix of [s] is [x]. *)
Fixpoint endsWith (s x : string) : bool :=
  (String.eqb s x
   || match s with
      | EmptyString => false
      | String _ r => endsWith r x
      end)%bool.

(** [s.includes(x)]: [x] starts at some position of [s]. *)
Fixpoint includes (s x : string) : bool :=
  (startsWith s x
   || match s with
      | EmptyString => false
      | String _ r => includes r x
      end)%bool.

(** Every code unit of [s] satisfies [p]. *)
Fixpoint all_chars (p : ascii -> bool) (s : string) : bool :=
  match s with
  | EmptyString => true
  | String c r => (p c && all_chars p r)%bool
  end.

(** The code units of [s], each as a one-unit string (string iteration). *)
Fixpoint chars (s : string) : list string :=
  match s with
  | EmptyString => []
  | String c r => String c EmptyString :: chars r
  end.

End JsString.

(* ===================================================================== *)
(** ** JavaScript values                                                   *)
(* ===================================================================== *)

Module Js.

(** The values [res.json()] can produce, plus [undefined], which property
    access produces. Objects are association lists in which the first
    binding of a key is the visible one. Numbers are integers: the
    component only tests them for zero and compares them with [0]. *)
Inductive jsval : Type :=
| JUndefined
| JNull
| JBool (b : bool)
| JNum (n : Z)
| JStr (s : string)
| JArr (elems : list jsval)
| JObj (fields : list (string * jsval)).

(** What a [catch (err)] clause of the component can receive. *)
Inductive exn : Type :=
| TypeError      (* property read on null/undefined, call of a non-function *)
| SyntaxError    (* [res.json()] on a body that is not JSON *)
| FetchFailure.  (* [fetch] rejected: transport failure *)

(** Reasons for which a run leaves the modelled fragment. *)
Inductive abort : Type :=
| RenderCrash    (* a state updater threw while React was rendering *)
| NumericCoercion. (* [>] on a string, array or object operand *)

Inductive result (A : Type) : Type :=
| Ok (a : A)
| Throw (e : exn)
| Abort (why : abort).
Arguments Ok {A} a.
Arguments Throw {A} e.
Arguments Abort {A} why.

(** [ToBoolean] *)
Definition truthy (v : jsval) : bool :=
  match v with
  | JUndefined | JNull => false
  | JBool b => b
  | JNum n => negb (n =? 0)
  | JStr s => negb (JsString.is_empty s)
  | JArr _ | JObj _ => true
  end.

(** [a || b] on values already evaluated. *)
Definition or_else (a b : jsval) : jsval := if truthy a then a else b.

Fixpoint assoc (k : string) (fields : list (string * jsval)) : jsval :=
  match fields with
  | [] => JUndefined
  | (k', v) :: rest => if String.eqb k k' then v else assoc k rest
  end.

(** [v.k] for a property name [k] that is not an array index. Of the
    names the component reads, only [length] is found on a prototype. *)
Definition get_prop (v : jsval) (k : string) : result jsval :=
  match v with
  | JUndefined | JNull => Throw TypeError
  | JBool _ | JNum _ => Ok JUndefined
  | JStr s =>
      Ok (if String.eqb k "length" then JNum (Z.of_nat (String.length s))
          else JUndefined)
  | JArr l =>
      Ok (if String.eqb k "length" then JNum (Z.of_nat (List.length l))
          else JUndefined)
  | JObj fields => Ok (assoc k fields)
  end.

(** [v[0]] *)
Definition get_first (v : jsval) : result jsval :=
  match v with
  | JUndefined | JNull => Throw TypeError
  | JBool _ | JNum _ => Ok JUndefined
  | JStr s =>
      Ok (match s with
          | EmptyString => JUndefined
          | String c _ => JStr (String c EmptyString)
          end)
  | JArr l => Ok (match l with [] => JUndefined | x :: _ => x end)
  | JObj fields => Ok (assoc "0" fields)
  end.

(** [v?.k] *)
Definition get_prop_opt (v : jsval) (k : string) : result jsval :=
  match v with
  | JUndefined | JNull => Ok JUndefined
  | _ => get_prop v k
  end.

(** [v > 0]. [undefined] converts to NaN, [null] to 0, booleans to 0 or 1.
    Strings, arrays and objects convert through [ToPrimitive] and
    [StringToNumber], which are left out of the model. *)
Definition gt_zero (v : jsval) : result bool :=
  match v with
  | JUndefined | JNull => Ok false
  | JBool b => Ok b
  | JNum n => Ok (0 <? n)
  | JStr _ | JArr _ | JObj _ => Abort NumericCoercion
  end.

(** [v !== 'user'] *)
Definition strict_ne_str (v : jsval) (s : string) : bool :=
  match v with
  | JStr s' => negb (String.eqb s' s)
  | _ => true
  end.

(** [[...v]]: arrays and strings are iterable, nothing else [res.json()]
    can produce is. *)
Definition spread (v : jsval) : result (list jsval) :=
  match v with
  | JArr l => Ok l
  | JStr s => Ok (List.map JStr (JsString.chars s))
  | _ => Throw TypeError
  end.

(** [n.toString()] for an integer [n]. *)
Definition num_to_string (n : Z) : string := pretty n.

End Js.

(* ===================================================================== *)
(** ** The browser around the component: fetch, localStorage, console      *)
(* ===================================================================== *)

Module Runtime.
Import Js.

(** The arguments of one [fetch] call. [body] is the value handed to
    [JSON.stringify]. *)
Record Request : Type := {
  url : string;
  method : string;
  headers : list (string * string);
  body : option jsval
}.

(** What the component reads of a [Response]: [res.ok] (from [status]),
    [res.headers.get('content-type')], [res.text()] and [res.json()]
    ([None] when the body is not JSON, in which case [res.json()]
    rejects). *)
Record Response : Type := {
  status : Z;
  contentTypeHeader : option string;
  bodyText : string;
  bodyJson : option jsval
}.

(** [res.ok]: the status is in the range 200-299. *)
Definition ok (res : Response) : bool :=
  ((200 <=? status res) && (status res <=? 299))%bool.

(** [res.headers.get('content-type') || ''] *)
Definition contentType (res : Response) : string :=
  match contentTypeHeader res with
  | Some s => s
  | None => ""
  end.

(** How an awaited [fetch] settles. *)
Inductive FetchOutcome : Type :=
| Rejected
| Responded (res : Response).

Inductive LogEntry : Type :=
| Warn (label text : string)   (* [console.warn(label, text)] *)
| Error (err : exn).           (* [console.error(err)] *)

(** The component state [S] together with everything else a handler can
    touch. [clock] lists the successive readings of [Date.now()], of which
    [reads] have been consumed. *)
Record World (S : Type) : Type := mkWorld {
  st : S;
  localStorage : gmap string string;
  console : list LogEntry;
  network : list Request;
  clock : nat -> Z;
  reads : nat
}.
Arguments mkWorld {S}.
Arguments st {S}.
Arguments localStorage {S}.
Arguments console {S}.
Arguments network {S}.
Arguments clock {S}.
Arguments reads {S}.

(** Handlers: world passing with JavaScript exceptions. *)
Definition M (S A : Type) : Type := World S -> result A * World S.

Definition ret {S A} (a : A) : M S A := fun w => (Ok a, w).

Definition bind {S A B} (c : M S A) (k : A -> M S B) : M S B :=
  fun w =>
    match c w with
    | (Ok a, w') => k a w'
    | (Throw e, w') => (Throw e, w')
    | (Abort y, w') => (Abort y, w')
    end.

(** [try { c } catch (err) { h err }] *)
Definition try_catch {S A} (c : M S A) (h : exn -> M S A) : M S A :=
  fun w =>
    match c w with
    | (Throw e, w') => h e w'
    | other => other
    end.

Definition lift {S A} (r : result A) : M S A := fun w => (r, w).

(** The world with one component replaced or extended. *)
Definition with_st {S} (s : S) (w : World S) : World S :=
  mkWorld s (localStorage w) (console w) (network w) (clock w) (reads w).
Definition stored {S} (k v : string) (w : World S) : World S :=
  mkWorld (st w) (<[k:=v]> (localStorage w)) (console w) (network w)
          (clock w) (reads w).
Definition logged {S} (e : LogEntry) (w : World S) : World S :=
  mkWorld (st w) (localStorage w) (console w ++ [e]) (network w)
          (clock w) (reads w).
Definition sent {S} (req : Request) (w : World S) : World S :=
  mkWorld (st w) (localStorage w) (console w) (network w ++ [req])
          (clock w) (reads w).
Definition ticked {S} (w : World S) : World S :=
  mkWorld (st w) (localStorage w) (console w) (network w)
          (clock w) (Nat.succ (reads w)).

Definition read_st {S} : M S S := fun w => (Ok (st w), w).

Definition modify_st {S} (f : S -> S) : M S unit :=
  fun w => (Ok tt, with_st (f (st w)) w).

(** A state setter called with an updater that may throw: React runs the
    updater while rendering, outside every [try] of the handler. *)
Definition modify_st_with {S} (f : S -> result S) : M S unit :=
  fun w =>
    match f (st w) with
    | Ok s => (Ok tt, with_st s w)
    | Throw _ => (Abort RenderCrash, w)
    | Abort y => (Abort y, w)
    end.

(** [localStorage.getItem(k) || ''] *)
Definition getItem_or_empty {S} (k : string) : M S string :=
  fun w => (Ok (match localStorage w !! k with Some v => v | None => "" end), w).

(** [localStorage.setItem(k, v)] *)
Definition setItem {S} (k v : string) : M S unit :=
  fun w => (Ok tt, stored k v w).

Definition console_warn {S} (label text : string) : M S unit :=
  fun w => (Ok tt, logged (Warn label text) w).

Definition console_error {S} (e : exn) : M S unit :=
  fun w => (Ok tt, logged (Error e) w).

(** [Date.now()] *)
Definition date_now {S} : M S Z :=
  fun w => (Ok (clock w (reads w)), ticked w).

(** An [async] function runs until it returns or reaches [await fetch]. *)
Inductive Async (A : Type) : Type :=
| Returned (a : A)
| AwaitFetch (req : Request).
Arguments Returned {A} a.
Arguments AwaitFetch {A} req.

(** [await fetch(req)], first half: the request leaves, the function is
    suspended. *)
Definition fetch {S A} (req : Request) : M S (Async A) :=
  fun w => (Ok (AwaitFetch req), sent req w).

(** [await fetch(req)], second half: the promise settles. *)
Definition settled {S} (o : FetchOutcome) : M S Response :=
  lift (match o with
        | Rejected => Throw FetchFailure
        | Responded res => Ok res
        end).

(** [await res.json()] *)
Definition res_json {S} (res : Response) : M S jsval :=
  lift (match bodyJson res with
        | Some v => Ok v
        | None => Throw SyntaxError
        end).

(** [await res.text()] *)
Definition res_text {S} (res : Response) : M S string :=
  ret (bodyText res).

(** [xs.map(f)] and [xs.filter(p)] with callbacks that may throw. *)
Fixpoint mapM {S A B} (f : A -> M S B) (xs : list A) : M S (list B) :=
  match xs with
  | [] => ret []
  | x :: rest =>
      bind (f x) (fun y => bind (mapM f rest) (fun ys => ret (y :: ys)))
  end.

Fixpoint filterM {S A} (p : A -> M S bool) (xs : list A) : M S (list A) :=
  match xs with
  | [] => ret []
  | x :: rest =>
      bind (p x) (fun keep =>
        bind (filterM p rest) (fun ys =>
          ret (if keep then x :: ys else ys)))
  end.

(** The receiver of [.filter] and [.map] must be an array: no other value
    [res.json()] produces has these methods. *)
Definition as_array {S} (v : jsval) : M S (list jsval) :=
  lift (match v with
        | JArr l => Ok l
        | _ => Throw TypeError
        end).

(** The condition guarding every JSON branch of the API-key variants:
    [res.ok && contentType.includes('application/json')]. *)
Definition json_ok (res : Response) : bool :=
  (ok res && JsString.includes (contentType res) "application/json")%bool.

(** [!token] for a [string | null] state field. *)
Definition no_token (t : option string) : bool :=
  match t with
  | None => true
  | Some s => JsString.is_empty s
  end.

Declare Scope js_scope.
Delimit Scope js_scope with js.
Notation "x <- c ;; k" := (bind c (fun x => k))
  (at level 100, c at next level, right associativity) : js_scope.
Notation "c ;; k" := (bind c (fun _ => k))
  (at level 100, right associativity) : js_scope.

End Runtime.

(* ===================================================================== *)
(** ** [src/renderer/App.tsx]: model discovery and chat completions        *)
(* ===================================================================== *)

Module ModelsClient.
Import Js Runtime.
Local Open Scope js_scope.

(** [interface ChatMessage]. At run time the fields of a message built
    from a server reply hold whatever the reply held. *)
Module ChatMessage.
Record t : Type := make { id : jsval; text : jsval; role : jsval }.
End ChatMessage.

(** The [useState] cells of [App]. [model] is [null] ([JNull]) until a
    model is discovered. *)
Record State : Type := mkState {
  serverUrl : string;
  apiKey : string;
  token : option string;
  model : jsval;
  messages : list ChatMessage.t;
  currentMsg : string;
  error : option string
}.

Definition initial : State := mkState "" "" None JNull [] "" None.

Definition with_serverUrl (v : string) (s : State) : State :=
  mkState v (apiKey s) (token s) (model s) (messages s) (currentMsg s)
          (error s).
Definition with_apiKey (v : string) (s : State) : State :=
  mkState (serverUrl s) v (token s) (model s) (messages s) (currentMsg s)
          (error s).
Definition with_token (v : option string) (s : State) : State :=
  mkState (serverUrl s) (apiKey s) v (model s) (messages s) (currentMsg s)
          (error s).
Definition with_model (v : jsval) (s : State) : State :=
  mkState (serverUrl s) (apiKey s) (token s) v (messages s) (currentMsg s)
          (error s).
Definition with_messages (v : list ChatMessage.t) (s : State) : State :=
  mkState (serverUrl s) (apiKey s) (token s) (model s) v (currentMsg s)
          (error s).
Definition with_currentMsg (v : string) (s : State) : State :=
  mkState (serverUrl s) (apiKey s) (token s) (model s) (messages s) v
          (error s).
Definition with_error (v : option string) (s : State) : State :=
  mkState (serverUrl s) (apiKey s) (token s) (model s) (messages s)
          (currentMsg s) v.

Definition setServerUrl (v : string) : M State unit :=
  modify_st (with_serverUrl v).
Definition setApiKey (v : string) : M State unit :=
  modify_st (with_apiKey v).
Definition setToken (v : option string) : M State unit :=
  modify_st (with_token v).
Definition setModel (v : jsval) : M State unit :=
  modify_st (with_model v).
(** [setMessages(f)] with an updater [f], applied to the latest value. *)
Definition setMessages (f : list ChatMessage.t -> list ChatMessage.t)
  : M State unit :=
  modify_st (fun s => with_messages (f (messages s)) s).
Definition setCurrentMsg (v : string) : M State unit :=
  modify_st (with_currentMsg v).
Definition setError (v : option string) : M State unit :=
  modify_st (with_error v).

(** The mount effect: restore the credential from [localStorage]. *)
Definition mount : M State unit :=
  savedUrl <- getItem_or_empty "serverUrl" ;;
  savedKey <- getItem_or_empty "apiKey" ;;
  (if JsString.is_empty savedUrl then ret tt else setServerUrl savedUrl) ;;
  if JsString.is_empty savedKey then ret tt
  else (setApiKey savedKey ;; setToken (Some savedKey)).

Definition getApiBase (s : State) : string :=
  let trimmed := JsString.strip_trailing_slashes (serverUrl s) in
  if JsString.endsWith trimmed "/api" then trimmed else trimmed +:+ "/api".

Definition bearer (s : State) : string :=
  "Bearer " +:+ match token s with Some t => t | None => "null" end.

(** [data.xs && data.xs.length > 0] *)
Definition non_empty (xs : jsval) : M State bool :=
  if truthy xs then
    len <- lift (get_prop xs "length") ;;
    lift (gt_zero len)
  else ret false.

(** [fetchFirstModel], up to [await fetch]. *)
Definition fetchFirstModel_start : M State (Async jsval) :=
  s <- read_st ;;
  if no_token (token s) then ret (Returned JNull)
  else fetch {| url := getApiBase s +:+ "/models";
                method := "GET";
                headers := [("Authorization", bearer s)];
                body := None |}.

(** The JSON branch of [fetchFirstModel]: the value it returns, [null]
    standing for falling through to the final [return null]. *)
Definition first_model_of (data : jsval) : M State jsval :=
  models <- lift (get_prop data "models") ;;
  some <- non_empty models ;;
  if some then
    first <- lift (get_first models) ;;
    fid <- lift (get_prop first "id") ;;
    if truthy fid then ret fid
    else
      fname <- lift (get_prop first "name") ;;
      ret (or_else fname JNull)
  else ret JNull.

(** [fetchFirstModel], from the moment the fetch settles. *)
Definition fetchFirstModel_resume (o : FetchOutcome) : M State jsval :=
  try_catch
    (res <- settled o ;;
     if json_ok res then
       data <- res_json res ;;
       first_model_of data
     else
       text <- res_text res ;;
       console_warn "Unexpected response:" text ;;
       ret JNull)
    (fun err => console_error err ;; ret JNull).

(** The tail of [setup], once [fetchFirstModel] has returned [mdl]. *)
Definition setup_finish (mdl : jsval) : M State unit :=
  if truthy mdl then setModel mdl
  else (setModel JNull ;; setError (Some "Failed to retrieve models")).

(** The effect on [[token, serverUrl]], up to [await fetch]. *)
Definition setup_start : M State (Async unit) :=
  s <- read_st ;;
  if no_token (token s) then ret (Returned tt)
  else
    setError None ;;
    setMessages (fun _ => []) ;;
    a <- fetchFirstModel_start ;;
    match a with
    | Returned mdl => setup_finish mdl ;; ret (Returned tt)
    | AwaitFetch req => ret (AwaitFetch req)
    end.

Definition setup_resume (o : FetchOutcome) : M State unit :=
  mdl <- fetchFirstModel_resume o ;;
  setup_finish mdl.

Definition connect : M State unit :=
  setError None ;;
  s <- read_st ;;
  let url := JsString.trim (serverUrl s) in
  let key := JsString.trim (apiKey s) in
  if (JsString.is_empty url || JsString.is_empty key)%bool then
    setError (Some "Server URL and API key required")
  else
    setItem "serverUrl" url ;;
    setItem "apiKey" key ;;
    setToken (Some key).

(** [{ role: m.role, content: m.text }] *)
Definition wire (m : ChatMessage.t) : jsval :=
  JObj [("role", ChatMessage.role m); ("content", ChatMessage.text m)].

(** [sendMessage], up to [await fetch]. *)
Definition sendMessage_start : M State (Async unit) :=
  s <- read_st ;;
  if (no_token (token s) || negb (truthy (model s)))%bool then ret (Returned tt)
  else
    let trimmed := JsString.trim (currentMsg s) in
    if JsString.is_empty trimmed then ret (Returned tt)
    else
      now <- date_now ;;
      let userMessage :=
        ChatMessage.make (JStr (num_to_string now)) (JStr trimmed) (JStr "user") in
      setMessages (fun prev => prev ++ [userMessage]) ;;
      setCurrentMsg "" ;;
      let conversation := List.map wire (messages s ++ [userMessage]) in
      fetch {| url := getApiBase s +:+ "/chat/completions";
               method := "POST";
               headers := [("Content-Type", "application/json");
                           ("Authorization", bearer s)];
               body := Some (JObj [("model", model s);
                                   ("messages", JArr conversation)]) |}.

(** [data.choices[0].message?.content || data.choices[0].delta?.content || ''] *)
Definition reply_of (choices : jsval) : M State jsval :=
  c0 <- lift (get_first choices) ;;
  message <- lift (get_prop c0 "message") ;;
  mcontent <- lift (get_prop_opt message "content") ;;
  if truthy mcontent then ret mcontent
  else
    c0' <- lift (get_first choices) ;;
    delta <- lift (get_prop c0' "delta") ;;
    dcontent <- lift (get_prop_opt delta "content") ;;
    ret (or_else dcontent (JStr "")).

(** The [filter] callback: [msg.role && msg.role !== 'user'] *)
Definition not_user (msg : jsval) : M State bool :=
  r <- lift (get_prop msg "role") ;;
  if truthy r then
    r' <- lift (get_prop msg "role") ;;
    ret (strict_ne_str r' "user")
  else ret false.

(** The [map] callback of the [messages] branch. *)
Definition to_assistant (msg : jsval) : M State ChatMessage.t :=
  mid <- lift (get_prop msg "id") ;;
  i <- (if truthy mid then ret mid
        else (now <- date_now ;; ret (JStr (num_to_string now +:+ "-a")))) ;;
  mcontent <- lift (get_prop msg "content") ;;
  t <- (if truthy mcontent then ret mcontent
        else (mtext <- lift (get_prop msg "text") ;;
              ret (or_else mtext (JStr "")))) ;;
  mrole <- lift (get_prop msg "role") ;;
  ret (ChatMessage.make i t (or_else mrole (JStr "assistant"))).

(** The JSON branch of [sendMessage]. *)
Definition normalize (data : jsval) : M State unit :=
  choices <- lift (get_prop data "choices") ;;
  some <- non_empty choices ;;
  if some then
    reply <- reply_of choices ;;
    if truthy reply then
      now <- date_now ;;
      let assistantMsg :=
        ChatMessage.make (JStr (num_to_string now +:+ "-a")) reply
                         (JStr "assistant") in
      setMessages (fun prev => prev ++ [assistantMsg])
    else ret tt
  else
    msgs <- lift (get_prop data "messages") ;;
    if truthy msgs then
      arr <- as_array msgs ;;
      kept <- filterM not_user arr ;;
      assistantMessages <- mapM to_assistant kept ;;
      setMessages (fun prev => prev ++ assistantMessages)
    else setError (Some "Invalid response format").

(** [sendMessage], from the moment the fetch settles. *)
Definition sendMessage_resume (o : FetchOutcome) : M State unit :=
  try_catch
    (res <- settled o ;;
     if json_ok res then
       data <- res_json res ;;
       normalize data
     else
       text <- res_text res ;;
       console_warn "Unexpected response:" text ;;
       setError (Some ("Unexpected response: " +:+ text)))
    (fun err => console_error err ;; setError (Some "Network error")).

(** A whole run of [sendMessage] against a server that answers [o], with
    nothing else happening while the request is in flight. *)
Definition sendMessage (o : FetchOutcome) : M State unit :=
  a <- sendMessage_start ;;
  match a with
  | Returned _ => ret tt
  | AwaitFetch _ => sendMessage_resume o
  end.

(** A whole run of the discovery effect. *)
Definition setup (o : FetchOutcome) : M State unit :=
  a <- setup_start ;;
  match a with
  | Returned _ => ret tt
  | AwaitFetch _ => setup_resume o
  end.

End ModelsClient.

(* ===================================================================== *)
(** ** The second [App.tsx]: chat history and [/message]                   *)
(* ===================================================================== *)

Module ChatsClient.
Import Js Runtime.
Local Open Scope js_scope.

(** The [useState] cells. [messages] is whatever [setMessages] last
    received: [data.messages] is stored as the server sent it. *)
Record State : Type := mkState {
  serverUrl : string;
  apiKey : string;
  token : option string;
  messages : jsval;
  currentMsg : string;
  error : option string
}.

Definition initial : State := mkState "" "" None (JArr []) "" None.

Definition with_serverUrl (v : string) (s : State) : State :=
  mkState v (apiKey s) (token s) (messages s) (currentMsg s) (error s).
Definition with_apiKey (v : string) (s : State) : State :=
  mkState (serverUrl s) v (token s) (messages s) (currentMsg s) (error s).
Definition with_token (v : option string) (s : State) : State :=
  mkState (serverUrl s) (apiKey s) v (messages s) (currentMsg s) (error s).
Definition with_messages (v : jsval) (s : State) : State :=
  mkState (serverUrl s) (apiKey s) (token s) v (currentMsg s) (error s).
Definition with_currentMsg (v : string) (s : State) : State :=
  mkState (serverUrl s) (apiKey s) (token s) (messages s) v (error s).
Definition with_error (v : option string) (s : State) : State :=
  mkState (serverUrl s) (apiKey s) (token s) (messages s) (currentMsg s) v.

Definition setServerUrl (v : string) : M State unit :=
  modify_st (with_serverUrl v).
Definition setApiKey (v : string) : M State unit :=
  modify_st (with_apiKey v).
Definition setToken (v : option string) : M State unit :=
  modify_st (with_token v).
Definition setMessages (v : jsval) : M State unit :=
  modify_st (with_messages v).
(** [setMessages((prev) => [...prev, ...more])] *)
Definition appendMessages (more : list jsval) : M State unit :=
  modify_st_with (fun s =>
    match spread (messages s) with
    | Ok prev => Ok (with_messages (JArr (prev ++ more)) s)
    | Throw e => Throw e
    | Abort y => Abort y
    end).
Definition setCurrentMsg (v : string) : M State unit :=
  modify_st (with_currentMsg v).
Definition setError (v : option string) : M State unit :=
  modify_st (with_error v).

(** The mount effect: restore the credential from [localStorage]. *)
Definition mount : M State unit :=
  savedUrl <- getItem_or_empty "serverUrl" ;;
  savedKey <- getItem_or_empty "apiKey" ;;
  (if JsString.is_empty savedUrl then ret tt else setServerUrl savedUrl) ;;
  if JsString.is_empty savedKey then ret tt
  else (setApiKey savedKey ;; setToken (Some savedKey)).

Definition getApiBase (s : State) : string :=
  let trimmed := JsString.strip_trailing_slashes (serverUrl s) in
  if JsString.endsWith trimmed "/api" then trimmed else trimmed +:+ "/api".

Definition bearer (s : State) : string :=
  "Bearer " +:+ match token s with Some t => t | None => "null" end.

(** The effect on [[serverUrl, token]], up to [await fetch]. *)
Definition fetchHistory_start : M State (Async unit) :=
  s <- read_st ;;
  if no_token (token s) then ret (Returned tt)
  else fetch {| url := getApiBase s +:+ "/chats";
                method := "GET";
                headers := [("Authorization", bearer s)];
                body := None |}.

(** [fetchHistory], from the moment the fetch settles. *)
Definition fetchHistory_resume (o : FetchOutcome) : M State unit :=
  try_catch
    (res <- settled o ;;
     if json_ok res then
       data <- res_json res ;;
       msgs <- lift (get_prop data "messages") ;;
       setMessages (or_else msgs (JArr []))
     else
       text <- res_text res ;;
       console_warn "Unexpected response:" text ;;
       setError (Some "Failed to fetch chat history"))
    (fun err => console_error err ;; setError (Some "Network error")).

Definition connect : M State unit :=
  setError None ;;
  s <- read_st ;;
  let key := JsString.trim (apiKey s) in
  let url := JsString.trim (serverUrl s) in
  if (JsString.is_empty key || JsString.is_empty url)%bool then
    setError (Some "Server URL and API key required")
  else
    setItem "serverUrl" url ;;
    setItem "apiKey" key ;;
    setToken (Some key).

(** The [map] callback of [sendMessage]. *)
Definition to_assistant (msg : jsval) : M State jsval :=
  mid <- lift (get_prop msg "id") ;;
  i <- (if truthy mid then ret mid
        else (now <- date_now ;; ret (JStr (num_to_string now)))) ;;
  mtext <- lift (get_prop msg "text") ;;
  t <- (if truthy mtext then ret mtext
        else (mcontent <- lift (get_prop msg "content") ;;
              ret (or_else mcontent (JStr "")))) ;;
  mrole <- lift (get_prop msg "role") ;;
  ret (JObj [("id", i); ("text", t);
             ("role", or_else mrole (JStr "assistant"))]).

(** [sendMessage], up to [await fetch]. *)
Definition sendMessage_start : M State (Async unit) :=
  s <- read_st ;;
  if no_token (token s) then ret (Returned tt)
  else
    let trimmed := JsString.trim (currentMsg s) in
    if JsString.is_empty trimmed then ret (Returned tt)
    else
      now <- date_now ;;
      let newMsg := JObj [("id", JStr (num_to_string now));
                          ("text", JStr trimmed);
                          ("role", JStr "user")] in
      appendMessages [newMsg] ;;
      setCurrentMsg "" ;;
      fetch {| url := getApiBase s +:+ "/message";
               method := "POST";
               headers := [("Content-Type", "application/json");
                           ("Authorization", bearer s)];
               body := Some (JObj [("content", JStr trimmed)]) |}.

(** [sendMessage], from the moment the fetch settles. *)
Definition sendMessage_resume (o : FetchOutcome) : M State unit :=
  try_catch
    (res <- settled o ;;
     if json_ok res then
       data <- res_json res ;;
       msgs <- lift (get_prop data "messages") ;;
       arr <- as_array (or_else msgs (JArr [])) ;;
       assistantMessages <- mapM to_assistant arr ;;
       appendMessages assistantMessages
     else
       text <- res_text res ;;
       console_warn "Unexpected response:" text ;;
       setError (Some "Failed to send message"))
    (fun err => console_error err ;; setError (Some "Network error")).

End ChatsClient.

(* ===================================================================== *)
(** ** The third [App.tsx]: login with user name and password             *)
(* ===================================================================== *)

(** [login], which none of the properties below concerns, is not embedded;
    [token] has its declared type [string | null]. *)
Module LoginClient.
Import Js Runtime.
Local Open Scope js_scope.

Record State : Type := mkState {
  serverUrl : string;
  username : string;
  password : string;
  token : option string;
  messages : jsval;
  currentMsg : string;
  error : option string
}.

Definition initial : State := mkState "" "" "" None (JArr []) "" None.

Definition with_messages (v : jsval) (s : State) : State :=
  mkState (serverUrl s) (username s) (password s) (token s) v
          (currentMsg s) (error s).
Definition with_currentMsg (v : string) (s : State) : State :=
  mkState (serverUrl s) (username s) (password s) (token s) (messages s)
          v (error s).
Definition with_error (v : option string) (s : State) : State :=
  mkState (serverUrl s) (username s) (password s) (token s) (messages s)
          (currentMsg s) v.

Definition setMessages (v : jsval) : M State unit :=
  modify_st (with_messages v).
(** [setMessages((prev) => [...prev, ...more])] *)
Definition appendMessages (more : list jsval) : M State unit :=
  modify_st_with (fun s =>
    match spread (messages s) with
    | Ok prev => Ok (with_messages (JArr (prev ++ more)) s)
    | Throw e => Throw e
    | Abort y => Abort y
    end).
Definition setCurrentMsg (v : string) : M State unit :=
  modify_st (with_currentMsg v).
Definition setError (v : option string) : M State unit :=
  modify_st (with_error v).

(** [`${serverUrl}/api`]: the prefix of every URL this variant fetches. *)
Definition apiBase (s : State) : string := serverUrl s +:+ "/api".

Definition bearer (s : State) : string :=
  "Bearer " +:+ match token s with Some t => t | None => "null" end.

(** The effect on [[serverUrl, token]], up to [await fetch]. *)
Definition fetchHistory_start : M State (Async unit) :=
  s <- read_st ;;
  if no_token (token s) then ret (Returned tt)
  else fetch {| url := apiBase s +:+ "/chats";
                method := "GET";
                headers := [("Authorization", bearer s)];
                body := None |}.

(** [fetchHistory], from the moment the fetch settles. *)
Definition fetchHistory_resume (o : FetchOutcome) : M State unit :=
  try_catch
    (res <- settled o ;;
     if ok res then
       data <- res_json res ;;
       msgs <- lift (get_prop data "messages") ;;
       setMessages (or_else msgs (JArr []))
     else setError (Some "Failed to fetch chat history"))
    (fun err => console_error err ;; setError (Some "Network error")).

(** The [map] callback of [sendMessage]. *)
Definition to_assistant (msg : jsval) : M State jsval :=
  mid <- lift (get_prop msg "id") ;;
  i <- (if truthy mid then ret mid
        else (now <- date_now ;; ret (JStr (num_to_string now)))) ;;
  mtext <- lift (get_prop msg "text") ;;
  t <- (if truthy mtext then ret mtext
        else (mcontent <- lift (get_prop msg "content") ;;
              ret (or_else mcontent (JStr "")))) ;;
  mrole <- lift (get_prop msg "role") ;;
  ret (JObj [("id", i); ("text", t);
             ("role", or_else mrole (JStr "assistant"))]).

(** [sendMessage], up to [await fetch]. *)
Definition sendMessage_start : M State (Async unit) :=
  s <- read_st ;;
  if no_token (token s) then ret (Returned tt)
  else
    let trimmed := JsString.trim (currentMsg s) in
    if JsString.is_empty trimmed then ret (Returned tt)
    else
      now <- date_now ;;
      let newMsg := JObj [("id", JStr (num_to_string now));
                          ("text", JStr trimmed);
                          ("role", JStr "user")] in
      appendMessages [newMsg] ;;
      setCurrentMsg "" ;;
      fetch {| url := apiBase s +:+ "/message";
               method := "POST";
               headers := [("Content-Type", "application/json");
                           ("Authorization", bearer s)];
               body := Some (JObj [("content", JStr trimmed)]) |}.

(** [sendMessage], from the moment the fetch settles. *)
Definition sendMessage_resume (o : FetchOutcome) : M State unit :=
  try_catch
    (res <- settled o ;;
     if ok res then
       data <- res_json res ;;
       msgs <- lift (get_prop data "messages") ;;
       arr <- as_array (or_else msgs (JArr [])) ;;
       assistantMessages <- mapM to_assistant arr ;;
       appendMessages assistantMessages
     else setError (Some "Failed to send message"))
    (fun err => console_error err ;; setError (Some "Network error")).

End LoginClient.

(* ===================================================================== *)
(** ** Vocabulary of the properties                                        *)
(* ===================================================================== *)

Module Reading.
Import Js Runtime.

(** The base path as the interface description words it: trailing slashes
    removed, then [/api] appended unless already there. *)
Definition normalized_base (u : string) : string :=
  let t := JsString.strip_trailing_slashes u in
  if JsString.endsWith t "/api" then t else t +:+ "/api".

(** A settled fetch that is a transport failure, or a response whose
    status is outside 200-299, or whose content type does not contain
    [application/json]. *)
Definition failed (o : FetchOutcome) : Prop :=
  match o with
  | Rejected => True
  | Responded res =>
      ok res = false
      \/ JsString.includes (contentType res) "application/json" = false
  end.

(** The text [sendMessage] of the chat-completions client puts in the
    overlay when its fetch fails: [Network error] from the [catch] clause,
    [`Unexpected response: ${text}`] from the [else] branch. *)
Definition failure_text (o : FetchOutcome) : string :=
  match o with
  | Rejected => "Network error"
  | Responded res => "Unexpected response: " +:+ bodyText res
  end.

(** [xs && xs.length > 0] holds of [xs]. Of the values [res.json()]
    produces these are the non-empty lists, the non-empty strings, and the
    objects with an own property [length] that is [true] or a positive
    number; a number, [true] and an object without [length] have the
    length [undefined], which is not greater than zero. *)
Definition has_entries (xs : jsval) : bool :=
  match xs with
  | JArr l => match l with [] => false | _ :: _ => true end
  | JStr s => negb (JsString.is_empty s)
  | JObj fields =>
      match assoc "length" fields with
      | JBool b => b
      | JNum n => 0 <? n
      | _ => false
      end
  | _ => false
  end.

(** [xs] is an object whose own [length] is a string, a list or an object:
    the one case in which [xs.length > 0] converts a non-number, which
    [gt_zero] leaves out. *)
Definition length_coerced (xs : jsval) : bool :=
  match xs with
  | JObj fields =>
      match assoc "length" fields with
      | JStr _ | JArr _ | JObj _ => true
      | _ => false
      end
  | _ => false
  end.

(** A 2xx response announcing JSON and carrying the JSON value [data]. *)
Definition json_reply (data : jsval) (raw : string) : Response :=
  {| status := 200;
     contentTypeHeader := Some "application/json";
     bodyText := raw;
     bodyJson := Some data |}.

(** [data.choices[0].k.content] looked up without side conditions:
    [undefined] when any step of the path is missing. *)
Definition choice_content (data : jsval) (k : string) : jsval :=
  match data with
  | JObj fields =>
      match assoc "choices" fields with
      | JArr (JObj c0 :: _) =>
          match assoc k c0 with
          | JObj m => assoc "content" m
          | _ => JUndefined
          end
      | _ => JUndefined
      end
  | _ => JUndefined
  end.

(** [undefined] or [null]: the values a property cannot be read from. *)
Definition nullish (v : jsval) : bool :=
  match v with
  | JUndefined | JNull => true
  | _ => false
  end.

(** The value of [c.k?.content] when reading it does not throw, and
    [undefined] when it does. *)
Definition optional_content (c : jsval) (k : string) : jsval :=
  match get_prop c k with
  | Ok m => match get_prop_opt m "content" with
            | Ok v => v
            | _ => JUndefined
            end
  | _ => JUndefined
  end.

(** The value of [v.k] when reading it does not throw. *)
Definition prop (v : jsval) (k : string) : jsval :=
  match get_prop v k with
  | Ok x => x
  | _ => JUndefined
  end.

(** The entries of a [messages] array the chat-completions client keeps:
    those with a truthy [role] other than [user]. *)
Definition kept (msg : jsval) : bool :=
  (truthy (prop msg "role") && strict_ne_str (prop msg "role") "user")%bool.

(** [msg.content || msg.text || ''] *)
Definition content_or_text (msg : jsval) : jsval :=
  or_else (prop msg "content") (or_else (prop msg "text") (JStr "")).

(** The optimistic user message of a chat-completions send that starts in
    [w]: its id is the clock reading the send consumes. *)
Definition user_message (w : World ModelsClient.State) : ModelsClient.ChatMessage.t :=
  ModelsClient.ChatMessage.make
    (JStr (num_to_string (clock w (reads w))))
    (JStr (JsString.trim (ModelsClient.currentMsg (st w))))
    (JStr "user").

(** The assistant message built from a [choices] reply that settles in [w]. *)
Definition assistant_message (w : World ModelsClient.State) (reply : jsval)
  : ModelsClient.ChatMessage.t :=
  ModelsClient.ChatMessage.make
    (JStr (num_to_string (clock w (reads w)) +:+ "-a"))
    reply
    (JStr "assistant").

(** The object [fields] has an own property [k], whatever its value. *)
Definition has_field (k : string) (fields : list (string * jsval)) : bool :=
  existsb (fun kv => String.eqb k (fst kv)) fields.

(** A world for the examples: empty storage, silent console, no traffic,
    a clock that starts at [t0] and advances by one per reading. *)
Definition world_at {S : Type} (s : S) (t0 : Z) : World S :=
  mkWorld s ∅ [] [] (fun n => t0 + Z.of_nat n) 0%nat.

(** A handler that leaves the observation [f] of the world as it found
    it, however it completes. *)
Definition preserves {S X A : Type} (f : World S -> X) (c : M S A) : Prop :=
  forall w, f (snd (c w)) = f w.

End Reading.

(* ===================================================================== *)
(** ** [src/renderer/App.tsx] as a whole: screens, events, effects          *)
(* ===================================================================== *)

Module ModelsApp.
Import Js Runtime ModelsClient.
Local Open Scope js_scope.

(** The three [return]s of [App]: the connection form while there is no
    token, the loading notice while there is no model, the chat otherwise. *)
Inductive Screen : Type :=
| ConnectForm
| LoadingModels
| ChatScreen.

Definition screen (s : State) : Screen :=
  if no_token (token s) then ConnectForm
  else if truthy (model s) then ChatScreen
  else LoadingModels.

(** [msg.role === 'user' ? 'You' : 'Assistant'] *)
Definition speaker (m : ChatMessage.t) : string :=
  if strict_ne_str (ChatMessage.role m) "user" then "Assistant" else "You".

(** [{error && <p>...</p>}]: the text shown under the current screen. *)
Definition shown_error (s : State) : option string :=
  match error s with
  | Some e => if JsString.is_empty e then None else Some e
  | None => None
  end.

(** The dependency array [[token, serverUrl]] of the discovery effect
    differs between two renders. *)
Definition deps_changed (old new : State) : bool :=
  negb (match token old, token new with
        | None, None => true
        | Some a, Some b => String.eqb a b
        | _, _ => false
        end
        && String.eqb (serverUrl old) (serverUrl new))%bool.

(** A fetch that has left and has not settled yet, by the function that is
    suspended on it. *)
Inductive Pending : Type :=
| DiscoveryPending
| SendPending.

(** The component between two events: its world and the fetches in
    flight. *)
Record Config : Type := mkConfig {
  world : World State;
  inflight : list Pending
}.

(** What the user and the network can do to the mounted component. The
    inputs and buttons exist only on the screen that renders them. *)
Inductive Event : Type :=
| TypeServerUrl (v : string)
| TypeApiKey (v : string)
| ClickConnect
| TypeMessage (v : string)
| ClickSend                                   (* the button, or Enter *)
| Settle (i : nat) (o : FetchOutcome).        (* the [i]-th fetch in flight *)

(** The world after a handler that completed normally. *)
Definition completed {A} (r : result A * World State) : option (World State) :=
  match r with
  | (Ok _, w) => Some w
  | _ => None
  end.

(** After the render that follows an event, React runs the discovery effect
    when its dependencies changed since the previous render ([old]). *)
Definition run_effect (old : State) (w : World State) (fl : list Pending)
  : option Config :=
  if deps_changed old (st w) then
    match setup_start w with
    | (Ok (AwaitFetch _), w') => Some (mkConfig w' (fl ++ [DiscoveryPending]))
    | (Ok (Returned _), w') => Some (mkConfig w' fl)
    | _ => None
    end
  else Some (mkConfig w fl).

(** [xs] without its [i]-th element. *)
Fixpoint remove_nth {A} (i : nat) (xs : list A) : list A :=
  match xs, i with
  | [], _ => []
  | _ :: rest, O => rest
  | x :: rest, S j => x :: remove_nth j rest
  end.

(** One event. [None]: the control is not on the screen, there is no such
    fetch in flight, or the handler left the modelled fragment. Rendering
    is decided by [screen] alone: that React unmounts the tree when
    [{msg.text}] is an object is not modelled, and a session goes on here
    where it would have ended. *)
Definition fire (e : Event) (c : Config) : option Config :=
  let w := world c in
  let s := st w in
  match e with
  | TypeServerUrl v =>
      match screen s with
      | ConnectForm =>
          match completed (setServerUrl v w) with
          | Some w' => run_effect s w' (inflight c)
          | None => None
          end
      | _ => None
      end
  | TypeApiKey v =>
      match screen s with
      | ConnectForm =>
          match completed (setApiKey v w) with
          | Some w' => run_effect s w' (inflight c)
          | None => None
          end
      | _ => None
      end
  | ClickConnect =>
      match screen s with
      | ConnectForm =>
          match completed (connect w) with
          | Some w' => run_effect s w' (inflight c)
          | None => None
          end
      | _ => None
      end
  | TypeMessage v =>
      match screen s with
      | ChatScreen =>
          match completed (setCurrentMsg v w) with
          | Some w' => run_effect s w' (inflight c)
          | None => None
          end
      | _ => None
      end
  | ClickSend =>
      match screen s with
      | ChatScreen =>
          match sendMessage_start w with
          | (Ok (AwaitFetch _), w') =>
              run_effect s w' (inflight c ++ [SendPending])
          | (Ok (Returned _), w') => run_effect s w' (inflight c)
          | _ => None
          end
      | _ => None
      end
  | Settle i o =>
      match nth_error (inflight c) i with
      | Some DiscoveryPending =>
          match completed (setup_resume o w) with
          | Some w' => run_effect s w' (remove_nth i (inflight c))
          | None => None
          end
      | Some SendPending =>
          match completed (sendMessage_resume o w) with
          | Some w' => run_effect s w' (remove_nth i (inflight c))
          | None => None
          end
      | None => None
      end
  end.

(** The first render and its effects: the mount effect restores the
    credential, the discovery effect sees no token yet and returns, and the
    render that follows runs it again if the credential was restored. *)
Definition boot (storage : gmap string string) (clock : nat -> Z)
  : option Config :=
  let w0 := mkWorld initial storage [] [] clock 0%nat in
  match completed (mount w0) with
  | Some w1 => run_effect initial w1 []
  | None => None
  end.

(** The configurations a session started on [storage] can be in. *)
Inductive reachable (storage : gmap string string) (clock : nat -> Z)
  : Config -> Prop :=
| reach_boot (c : Config) :
    boot storage clock = Some c -> reachable storage clock c
| reach_fire (c c' : Config) (e : Event) :
    reachable storage clock c -> fire e c = Some c' ->
    reachable storage clock c'.

(** A sequence of events, each fired in the configuration the previous
    one left. *)
Fixpoint run_events (es : list Event) (c : Config) : option Config :=
  match es with
  | [] => Some c
  | e :: rest =>
      match fire e c with
      | Some c' => run_events rest c'
      | None => None
      end
  end.

(** The model-discovery requests among those sent so far. *)
Definition discoveries (w : World State) : list Request :=
  List.filter (fun r => String.eqb (method r) "GET") (network w).

(** What holds of a session between any two events: without a token
    nothing was shown, sent or selected and nothing is in flight; with a
    token, it is the key in [localStorage], and discovery was requested
    once. *)
Definition coherent (c : Config) : Prop :=
  let w := world c in
  (no_token (token (st w)) = true ->
     messages (st w) = [] /\ inflight c = [] /\ network w = []
     /\ model (st w) = JNull)
  /\ (forall t,
        token (st w) = Some t -> JsString.is_empty t = false ->
        localStorage w !! "apiKey" = Some t
        /\ length (discoveries w) = 1%nat).

End ModelsApp.

(* ===================================================================== *)
(** ** The second [App.tsx] as a whole                                     *)
(* ===================================================================== *)

Module ChatsApp.
Import Js Runtime ChatsClient.
Local Open Scope js_scope.

(** The two [return]s of [App]: the connection form while there is no
    token, the chat otherwise. *)
Inductive Screen : Type :=
| ConnectForm
| ChatScreen.

Definition screen (s : State) : Screen :=
  if no_token (token s) then ConnectForm else ChatScreen.

(** The dependency array [[serverUrl, token]] of the history effect
    differs between two renders. *)
Definition deps_changed (old new : State) : bool :=
  negb (String.eqb (serverUrl old) (serverUrl new)
        && match token old, token new with
           | None, None => true
           | Some a, Some b => String.eqb a b
           | _, _ => false
           end)%bool.

Inductive Pending : Type :=
| HistoryPending
| SendPending.

Record Config : Type := mkConfig {
  world : World State;
  inflight : list Pending
}.

(** The inputs and buttons exist only on the screen that renders them. *)
Inductive Event : Type :=
| TypeServerUrl (v : string)
| TypeApiKey (v : string)
| ClickConnect
| TypeMessage (v : string)
| ClickSend                                   (* the button, or Enter *)
| Settle (i : nat) (o : FetchOutcome).        (* the [i]-th fetch in flight *)

Definition completed {A} (r : result A * World State) : option (World State) :=
  match r with
  | (Ok _, w) => Some w
  | _ => None
  end.

(** After the render that follows an event, React runs the history effect
    when its dependencies changed since the previous render ([old]). *)
Definition run_effect (old : State) (w : World State) (fl : list Pending)
  : option Config :=
  if deps_changed old (st w) then
    match fetchHistory_start w with
    | (Ok (AwaitFetch _), w') => Some (mkConfig w' (fl ++ [HistoryPending]))
    | (Ok (Returned _), w') => Some (mkConfig w' fl)
    | _ => None
    end
  else Some (mkConfig w fl).

(** One event. [None]: the control is not on the screen, there is no such
    fetch in flight, or a state updater threw and React unmounted the
    tree. Rendering is decided by [screen] alone: a conversation cell that
    cannot be rendered does not end the session here. *)
Definition fire (e : Event) (c : Config) : option Config :=
  let w := world c in
  let s := st w in
  match e with
  | TypeServerUrl v =>
      match screen s with
      | ConnectForm =>
          match completed (setServerUrl v w) with
          | Some w' => run_effect s w' (inflight c)
          | None => None
          end
      | _ => None
      end
  | TypeApiKey v =>
      match screen s with
      | ConnectForm =>
          match completed (setApiKey v w) with
          | Some w' => run_effect s w' (inflight c)
          | None => None
          end
      | _ => None
      end
  | ClickConnect =>
      match screen s with
      | ConnectForm =>
          match completed (connect w) with
          | Some w' => run_effect s w' (inflight c)
          | None => None
          end
      | _ => None
      end
  | TypeMessage v =>
      match screen s with
      | ChatScreen =>
          match completed (setCurrentMsg v w) with
          | Some w' => run_effect s w' (inflight c)
          | None => None
          end
      | _ => None
      end
  | ClickSend =>
      match screen s with
      | ChatScreen =>
          match sendMessage_start w with
          | (Ok (AwaitFetch _), w') =>
              run_effect s w' (inflight c ++ [SendPending])
          | (Ok (Returned _), w') => run_effect s w' (inflight c)
          | _ => None
          end
      | _ => None
      end
  | Settle i o =>
      match nth_error (inflight c) i with
      | Some HistoryPending =>
          match completed (fetchHistory_resume o w) with
          | Some w' =>
              run_effect s w' (ModelsApp.remove_nth i (inflight c))
          | None => None
          end
      | Some SendPending =>
          match completed (sendMessage_resume o w) with
          | Some w' =>
              run_effect s w' (ModelsApp.remove_nth i (inflight c))
          | None => None
          end
      | None => None
      end
  end.

(** The first render and its effects: the mount effect restores the
    credential, the history effect sees no token yet and returns, and the
    render that follows runs it again if the credential was restored. *)
Definition boot (storage : gmap string string) (clock : nat -> Z)
  : option Config :=
  let w0 := mkWorld initial storage [] [] clock 0%nat in
  match completed (mount w0) with
  | Some w1 => run_effect initial w1 []
  | None => None
  end.

(** The configurations a session started on [storage] can be in. *)
Inductive reachable (storage : gmap string string) (clock : nat -> Z)
  : Config -> Prop :=
| reach_boot (c : Config) :
    boot storage clock = Some c -> reachable storage clock c
| reach_fire (c c' : Config) (e : Event) :
    reachable storage clock c -> fire e c = Some c' ->
    reachable storage clock c'.

End ChatsApp.

(* ===================================================================== *)
(** ** The third [App.tsx]: [login]                                        *)
(* ===================================================================== *)

(** The cells of the login variant with [token] as it is at run time:
    [setToken(data.token)] stores whatever the reply holds. *)
Module LoginForm.
Import Js Runtime.
Local Open Scope js_scope.

Record State : Type := mkState {
  serverUrl : string;
  username : string;
  password : string;
  token : jsval;
  messages : jsval;
  currentMsg : string;
  error : option string
}.

Definition initial : State := mkState "" "" "" JNull (JArr []) "" None.

Definition with_token (v : jsval) (s : State) : State :=
  mkState (serverUrl s) (username s) (password s) v (messages s)
          (currentMsg s) (error s).
Definition with_error (v : option string) (s : State) : State :=
  mkState (serverUrl s) (username s) (password s) (token s) (messages s)
          (currentMsg s) v.

Definition setToken (v : jsval) : M State unit := modify_st (with_token v).
Definition setError (v : option string) : M State unit :=
  modify_st (with_error v).

(** [login], up to [await fetch]. *)
Definition login_start : M State (Async unit) :=
  setError None ;;
  s <- read_st ;;
  fetch {| url := serverUrl s +:+ "/api/login";
           method := "POST";
           headers := [("Content-Type", "application/json")];
           body := Some (JObj [("username", JStr (username s));
                               ("password", JStr (password s))]) |}.

(** [login], from the moment the fetch settles. *)
Definition login_resume (o : FetchOutcome) : M State unit :=
  try_catch
    (res <- settled o ;;
     if ok res then
       data <- res_json res ;;
       t <- lift (get_prop data "token") ;;
       setToken t
     else setError (Some "Login failed"))
    (fun err => console_error err ;; setError (Some "Network error")).

(** A whole run of [login] against a server that answers [o]. *)
Definition login (o : FetchOutcome) : M State unit :=
  a <- login_start ;;
  match a with
  | Returned _ => ret tt
  | AwaitFetch _ => login_resume o
  end.

(** [if (!token)]: the login form is what [App] renders. *)
Definition shows_login (s : State) : bool := negb (truthy (token s)).

End LoginForm.

(* ===================================================================== *)
(** ** Vocabulary of the further properties                                *)
(* ===================================================================== *)

Module Observing.
Import Js Runtime.

(** A handler that only ever adds messages at the end of the
    chat-completions conversation, however it completes. *)
Definition appends {A} (c : M ModelsClient.State A) : Prop :=
  forall w, exists extra,
    ModelsClient.messages (st (snd (c w)))
    = ModelsClient.messages (st w) ++ extra.

(** A handler that only ever adds messages at the end of the
    chat-completions conversation, all of them satisfying [P]. *)
Definition appends_only {A} (P : ModelsClient.ChatMessage.t -> Prop)
           (c : M ModelsClient.State A) : Prop :=
  forall w, exists extra,
    ModelsClient.messages (st (snd (c w)))
    = ModelsClient.messages (st w) ++ extra
    /\ Forall P extra.

(** The request carries the bearer token [t]. *)
Definition authorized (t : string) (req : Request) : Prop :=
  In ("Authorization", "Bearer " +:+ t) (headers req).

(** Started in [w], the handler is suspended on a fetch of a request that
    satisfies [P], and that request is the one thing added to the network. *)
Definition issues {S A} (c : M S (Async A)) (w : World S)
           (P : Request -> Prop) : Prop :=
  exists req,
    fst (c w) = Ok (AwaitFetch req)
    /\ network (snd (c w)) = network w ++ [req]
    /\ P req.

(** Started in [w], the handler returns at once and leaves the world as it
    found it. *)
Definition inert {S A} (c : M S (Async A)) (w : World S) : Prop :=
  exists a, c w = (Ok (Returned a), w).

(** [msg.text || msg.content || '']: the text the two [/message] clients
    give a received message. *)
Definition text_or_content (m : jsval) : jsval :=
  or_else (Reading.prop m "text")
          (or_else (Reading.prop m "content") (JStr "")).

(** The message object [a] that the [/message] clients build from the
    received entry [m]: the entry's own [id] when truthy (a time-derived one
    otherwise), its text, its role or [assistant]. *)
Definition delivered_as (m a : jsval) : Prop :=
  exists i,
    a = JObj [("id", i);
              ("text", text_or_content m);
              ("role", or_else (Reading.prop m "role") (JStr "assistant"))]
    /\ (truthy (Reading.prop m "id") = true -> i = Reading.prop m "id").

(** A start handler that fetches exactly when [go] holds of the state it
    starts in. When [go] holds there is a token [t] and the handler issues
    one request, which carries [t] and goes to a URL under [base]; when
    [go] does not hold it returns at once and changes nothing. *)
Definition fetches_when {S A} (go : S -> bool) (tok : S -> option string)
           (base : S -> string) (c : M S (Async A)) (w : World S) : Prop :=
  (go (st w) = false -> inert c w)
  /\ (go (st w) = true ->
      exists t,
        tok (st w) = Some t
        /\ JsString.is_empty t = false
        /\ issues c w (fun req =>
                         authorized t req
                         /\ JsString.startsWith (url req) (base (st w))
                            = true)).

End Observing.

(* ===================================================================== *)
(** ** Facts about the string primitives                                   *)
(* ===================================================================== *)

Section StringFacts.
Import JsString.

Lemma drop_end_is_empty (p : ascii -> bool) (s : string) :
  is_empty (drop_end p s) = all_chars p s.
Proof.
  induction s as [|c r IH]; simpl; [reflexivity|].
  rewrite <- IH.
  destruct (p c); simpl; [|reflexivity].
  destruct (is_empty (drop_end p r)); reflexivity.
Qed.

Lemma all_chars_drop_start (p : ascii -> bool) (s : string) :
  all_chars p (drop_start p s) = all_chars p s.
Proof.
  induction s as [|c r IH]; simpl; [reflexivity|].
  destruct (p c) eqn:Hc; simpl; [exact IH|].
  rewrite Hc. reflexivity.
Qed.

(** [trim] yields the empty string exactly on whitespace-only input. *)
Lemma trim_is_empty (s : string) :
  is_empty (trim s) = all_chars is_space s.
Proof.
  unfold trim. rewrite drop_end_is_empty. apply all_chars_drop_start.
Qed.

Lemma endsWith_refl (x : string) : endsWith x x = true.
Proof.
  destruct x; simpl; [reflexivity|].
  rewrite Ascii.eqb_refl, String.eqb_refl. reflexivity.
Qed.

Lemma endsWith_app (t x : string) : endsWith (t +:+ x) x = true.
Proof.
  induction t as [|c r IH]; simpl.
  - apply endsWith_refl.
  - change (String.append r x) with (r +:+ x).
    rewrite IH. apply orb_true_r.
Qed.

Lemma endsWith_empty_l (x : string) :
  endsWith "" x = is_empty x.
Proof. destruct x; reflexivity. Qed.

(** What is left after [drop_end] does not end with a slash. *)
Lemma strip_no_trailing_slash (s : string) :
  endsWith (strip_trailing_slashes s) "/" = false.
Proof.
  unfold strip_trailing_slashes.
  induction s as [|c r IH]; [reflexivity|].
  cbn [drop_end].
  destruct (is_slash c && is_empty (drop_end is_slash r))%bool eqn:E;
    [reflexivity|].
  cbn [endsWith]. rewrite IH, orb_false_r.
  cbn [String.eqb].
  change (Ascii.eqb c "/") with (is_slash c).
  destruct (is_slash c); [|reflexivity].
  destruct (drop_end is_slash r); simpl in E; [discriminate E|reflexivity].
Qed.

(** [drop_end] only removes code units satisfying the predicate. *)
Lemma drop_end_split (p : ascii -> bool) (s : string) :
  exists tail, s = drop_end p s +:+ tail /\ all_chars p tail = true.
Proof.
  induction s as [|c r [tail [Heq Hall]]].
  - exists ""%string. split; reflexivity.
  - cbn [drop_end].
    destruct (p c && is_empty (drop_end p r))%bool eqn:E.
    + exists (String c r). split; [reflexivity|].
      apply andb_true_iff in E as [Hc He].
      rewrite drop_end_is_empty in He.
      simpl. rewrite Hc, He. reflexivity.
    + exists tail. split; [|exact Hall].
      change (String c (drop_end p r) +:+ tail)
        with (String c (drop_end p r +:+ tail)).
      rewrite <- Heq. reflexivity.
Qed.

Lemma strip_fixes_api_suffix (s : string) :
  endsWith s "/api" = true -> strip_trailing_slashes s = s.
Proof.
  unfold strip_trailing_slashes.
  induction s as [|c r IH]; [discriminate|].
  intros H. cbn [endsWith] in H. apply orb_true_iff in H as [H|H].
  - apply String.eqb_eq in H. rewrite H. reflexivity.
  - cbn [drop_end]. rewrite (IH H).
    destruct r; [discriminate H|].
    simpl. rewrite andb_false_r. reflexivity.
Qed.

Lemma normalized_base_ends_with_api (u : string) :
  endsWith (Reading.normalized_base u) "/api" = true.
Proof.
  unfold Reading.normalized_base.
  destruct (endsWith (strip_trailing_slashes u) "/api") eqn:E;
    [exact E | apply endsWith_app].
Qed.

Lemma normalized_base_idempotent (u : string) :
  Reading.normalized_base (Reading.normalized_base u)
  = Reading.normalized_base u.
Proof.
  pose proof (normalized_base_ends_with_api u) as H.
  unfold Reading.normalized_base at 1.
  rewrite (strip_fixes_api_suffix _ H), H. reflexivity.
Qed.

End StringFacts.

(* ===================================================================== *)
(** ** Base path                                                           *)
(* ===================================================================== *)

Section BasePath.
Import JsString Js Runtime.

(** C8, as the code has it. In the two API-key variants [getApiBase] is
    the normalization of the server URL: the trailing slashes are removed
    (only slashes are removed, and none is left at the end), [/api] is
    appended unless the result already ends in [/api], so the base always
    ends in [/api] and normalizing twice changes nothing. In the login
    variant [/api] is appended to the server URL as typed, whatever it
    ends in; that base ends in [/api] as well. *)
Theorem C8_api_base_by_variant :
  (forall s : ModelsClient.State,
      ModelsClient.getApiBase s
      = Reading.normalized_base (ModelsClient.serverUrl s))
  /\ (forall s : ChatsClient.State,
         ChatsClient.getApiBase s
         = Reading.normalized_base (ChatsClient.serverUrl s))
  /\ (forall u : string,
         let t := strip_trailing_slashes u in
         (exists slashes, u = t +:+ slashes
                          /\ all_chars is_slash slashes = true)
         /\ endsWith t "/" = false
         /\ (endsWith t "/api" = true -> Reading.normalized_base u = t)
         /\ (endsWith t "/api" = false
             -> Reading.normalized_base u = t +:+ "/api")
         /\ endsWith (Reading.normalized_base u) "/api" = true
         /\ Reading.normalized_base (Reading.normalized_base u)
            = Reading.normalized_base u)
  /\ (forall s : LoginClient.State,
         LoginClient.apiBase s = LoginClient.serverUrl s +:+ "/api"
         /\ endsWith (LoginClient.apiBase s) "/api" = true).
Proof.
  split; [reflexivity|]. split; [reflexivity|]. split.
  - intros u t. subst t.
    split; [apply drop_end_split|].
    split; [apply strip_no_trailing_slash|].
    split; [|split; [|split]].
    + intros H. unfold Reading.normalized_base. rewrite H. reflexivity.
    + intros H. unfold Reading.normalized_base. rewrite H. reflexivity.
    + apply normalized_base_ends_with_api.
    + apply normalized_base_idempotent.
  - intros s. split; [reflexivity|].
    unfold LoginClient.apiBase. apply endsWith_app.
Qed.

Lemma C8_api_base_by_variant_witness :
  Reading.normalized_base "http://host/api//" = "http://host/api"
  /\ Reading.normalized_base "http://host/" = "http://host/api".
Proof.
  destruct C8_api_base_by_variant as (_ & _ & H & _).
  split.
  - destruct (H "http://host/api//") as (_ & _ & Hyes & _).
    apply Hyes. reflexivity.
  - destruct (H "http://host/") as (_ & _ & _ & Hno & _).
    apply Hno. reflexivity.
Defined.

(** C8 as stated fails in the login variant: a server URL that already
    ends in [/api] gets a second [/api]. *)
Lemma C8_counterexample :
  ~ (forall s : LoginClient.State,
        LoginClient.apiBase s
        = Reading.normalized_base (LoginClient.serverUrl s)).
Proof.
  intros H.
  specialize (H (LoginClient.mkState "http://host/api" "" "" (Some "t")
                                     (JArr []) "" None)).
  vm_compute in H. discriminate H.
Qed.

End BasePath.

(* ===================================================================== *)
(** ** Sending whitespace                                                  *)
(* ===================================================================== *)

Section Whitespace.
Import JsString Js Runtime.

(** C5. When the input consists of whitespace only (or is empty),
    [sendMessage] returns before its first effect, in each of the three
    variants: the world it returns is the world it was called in, so the
    conversation is unchanged, no message was built, nothing was fetched,
    and the input box and the error overlay are as they were. *)
Theorem C5_whitespace_send_is_noop
  (w1 : World ModelsClient.State) (w2 : World ChatsClient.State)
  (w3 : World LoginClient.State) (o : FetchOutcome) :
  (all_chars is_space (ModelsClient.currentMsg (st w1)) = true ->
     ModelsClient.sendMessage_start w1 = (Ok (Returned tt), w1)
     /\ ModelsClient.sendMessage o w1 = (Ok tt, w1))
  /\ (all_chars is_space (ChatsClient.currentMsg (st w2)) = true ->
        ChatsClient.sendMessage_start w2 = (Ok (Returned tt), w2))
  /\ (all_chars is_space (LoginClient.currentMsg (st w3)) = true ->
        LoginClient.sendMessage_start w3 = (Ok (Returned tt), w3)).
Proof.
  split; [|split]; intros H.
  - assert (Hs : ModelsClient.sendMessage_start w1 = (Ok (Returned tt), w1)).
    { unfold ModelsClient.sendMessage_start, bind, read_st, ret.
      rewrite trim_is_empty, H.
      destruct (no_token _ || negb _)%bool; reflexivity. }
    split; [exact Hs|].
    unfold ModelsClient.sendMessage, bind. rewrite Hs. reflexivity.
  - unfold ChatsClient.sendMessage_start, bind, read_st, ret.
    rewrite trim_is_empty, H.
    destruct (no_token _); reflexivity.
  - unfold LoginClient.sendMessage_start, bind, read_st, ret.
    rewrite trim_is_empty, H.
    destruct (no_token _); reflexivity.
Qed.

Lemma C5_whitespace_send_is_noop_witness :
  let blank := String (ascii_of_nat 32) (String (ascii_of_nat 9) "  ") in
  let w1 := Reading.world_at
              (ModelsClient.mkState "http://host" "k" (Some "k") (JStr "m")
                                    [] blank None) 1700000000000 in
  let w2 := Reading.world_at
              (ChatsClient.mkState "http://host" "k" (Some "k") (JArr [])
                                   blank None) 1700000000000 in
  let w3 := Reading.world_at
              (LoginClient.mkState "http://host" "u" "p" (Some "t") (JArr [])
                                   "" None) 1700000000000 in
  ModelsClient.sendMessage Rejected w1 = (Ok tt, w1)
  /\ ChatsClient.sendMessage_start w2 = (Ok (Returned tt), w2)
  /\ LoginClient.sendMessage_start w3 = (Ok (Returned tt), w3).
Proof.
  intros blank w1 w2 w3.
  destruct (C5_whitespace_send_is_noop w1 w2 w3 Rejected) as (H1 & H2 & H3).
  split; [apply H1; reflexivity|].
  split; [apply H2; reflexivity | apply H3; reflexivity].
Defined.

End Whitespace.

(* ===================================================================== *)
(** ** Credential persistence                                              *)
(* ===================================================================== *)

Section Credential.
Import JsString Js Runtime ModelsClient.

Lemma connect_accepts (w : World State) :
  is_empty (trim (serverUrl (st w))) = false ->
  is_empty (trim (apiKey (st w))) = false ->
  connect w
  = (Ok tt,
     with_st (with_token (Some (trim (apiKey (st w))))
                         (with_error None (st w)))
             (stored "apiKey" (trim (apiKey (st w)))
                     (stored "serverUrl" (trim (serverUrl (st w))) w))).
Proof.
  intros Hu Hk.
  unfold connect, bind, read_st, setError, setToken, setItem, modify_st.
  cbn [st with_st with_error serverUrl apiKey]. rewrite Hu, Hk. reflexivity.
Qed.

Lemma connect_rejects (w : World State) :
  is_empty (trim (serverUrl (st w))) = true
  \/ is_empty (trim (apiKey (st w))) = true ->
  connect w
  = (Ok tt,
     with_st (with_error (Some "Server URL and API key required") (st w)) w).
Proof.
  intros H.
  unfold connect, bind, read_st, setError, modify_st.
  cbn [st with_st with_error serverUrl apiKey].
  destruct H as [H|H]; rewrite H; [|rewrite orb_true_r]; reflexivity.
Qed.

(** What the mount effect restores from a storage holding both entries. *)
Lemma mount_restores (w : World State) (url key : string) :
  localStorage w !! "serverUrl" = Some url ->
  localStorage w !! "apiKey" = Some key ->
  is_empty url = false ->
  is_empty key = false ->
  mount w
  = (Ok tt,
     with_st (with_token (Some key)
                (with_apiKey key (with_serverUrl url (st w)))) w).
Proof.
  intros Hu Hk Eu Ek.
  unfold mount, bind, getItem_or_empty.
  rewrite Hu, Hk, Eu, Ek. reflexivity.
Qed.

(** C4, as the code has it. When both fields are non-empty after trimming,
    [connect] writes the two trimmed values, and nothing else, to
    [localStorage] under the keys [serverUrl] and [apiKey], and makes the
    trimmed key the token; the mount effect of any later run that starts
    from that storage restores exactly the stored pair, and leaves the
    storage as it is. Fields without surrounding whitespace are therefore
    stored as typed. When a field is empty after trimming, [connect] sets
    the validation error and writes nothing: storage and token are
    unchanged. *)
Theorem C4_connect_persists_trimmed_pair (w : World State) :
  let url := trim (serverUrl (st w)) in
  let key := trim (apiKey (st w)) in
  (is_empty url = false -> is_empty key = false ->
     exists w',
       connect w = (Ok tt, w')
       /\ localStorage w'
          = <["apiKey" := key]> (<["serverUrl" := url]> (localStorage w))
       /\ token (st w') = Some key
       /\ (url = serverUrl (st w) -> key = apiKey (st w) ->
             localStorage w' !! "serverUrl" = Some (serverUrl (st w))
             /\ localStorage w' !! "apiKey" = Some (apiKey (st w)))
       /\ forall w0 : World State,
            localStorage w0 = localStorage w' ->
            exists w1,
              mount w0 = (Ok tt, w1)
              /\ serverUrl (st w1) = url
              /\ apiKey (st w1) = key
              /\ token (st w1) = Some key
              /\ localStorage w1 = localStorage w')
  /\ (is_empty url = true \/ is_empty key = true ->
        exists w',
          connect w = (Ok tt, w')
          /\ localStorage w' = localStorage w
          /\ token (st w') = token (st w)
          /\ error (st w') = Some "Server URL and API key required").
Proof.
  intros url key. split.
  - intros Hu Hk. eexists. split; [apply connect_accepts; assumption|].
    cbn [localStorage st token].
    assert (Hl1 : (<["apiKey" := key]>
                     (<["serverUrl" := url]> (localStorage w)) : gmap string string)
                  !! "serverUrl" = Some url).
    { rewrite lookup_insert_ne by discriminate. apply lookup_insert_eq. }
    assert (Hl2 : (<["apiKey" := key]>
                     (<["serverUrl" := url]> (localStorage w)) : gmap string string)
                  !! "apiKey" = Some key).
    { apply lookup_insert_eq. }
    split; [reflexivity|]. split; [reflexivity|]. split.
    + intros E1 E2. split.
      * transitivity (Some url); [exact Hl1 | f_equal; exact E1].
      * transitivity (Some key); [exact Hl2 | f_equal; exact E2].
    + intros w0 H0. eexists. split.
      * apply (mount_restores w0 url key); rewrite ?H0; assumption.
      * unfold with_st. cbn [st localStorage].
        split; [reflexivity|]. split; [reflexivity|].
        split; [reflexivity | exact H0].
  - intros H. eexists. split; [apply connect_rejects; exact H|].
    cbn [localStorage st token error]. repeat split; reflexivity.
Qed.

Lemma C4_connect_persists_trimmed_pair_witness :
  let typed := Reading.world_at
                 (mkState " http://host " "key" None JNull [] "" None) 0 in
  let blank := Reading.world_at
                 (mkState "http://host" "  " None JNull [] "" None) 0 in
  (exists w',
      connect typed = (Ok tt, w')
      /\ localStorage w' !! "serverUrl" = Some "http://host"
      /\ localStorage w' !! "apiKey" = Some "key")
  /\ (exists w', connect blank = (Ok tt, w')
                 /\ localStorage w' = localStorage blank).
Proof.
  intros typed blank. split.
  - destruct (C4_connect_persists_trimmed_pair typed) as [Hyes _].
    destruct Hyes as (w' & Hc & Hs & _); [reflexivity | reflexivity |].
    exists w'. split; [exact Hc|]. rewrite Hs.
    split; reflexivity.
  - destruct (C4_connect_persists_trimmed_pair blank) as [_ Hno].
    destruct Hno as (w' & Hc & Hs & _); [right; reflexivity|].
    exists w'. split; assumption.
Defined.

(** C4 as stated fails on a field typed with surrounding whitespace: what
    is stored is the trimmed value, not the value of the field. *)
Lemma C4_counterexample :
  ~ (forall w : World State,
        is_empty (trim (serverUrl (st w))) = false ->
        is_empty (trim (apiKey (st w))) = false ->
        localStorage (snd (connect w)) !! "serverUrl"
        = Some (serverUrl (st w))
        /\ localStorage (snd (connect w)) !! "apiKey"
           = Some (apiKey (st w))).
Proof.
  intros H.
  destruct (H (Reading.world_at
                 (mkState " http://host" "key" None JNull [] "" None) 0))
    as [Hurl _]; [reflexivity | reflexivity |].
  vm_compute in Hurl. discriminate Hurl.
Qed.

End Credential.

(* ===================================================================== *)
(** ** Frame reasoning for handlers                                        *)
(* ===================================================================== *)

Section Frames.
Import Js Runtime Reading.
Context {S X : Type} (f : World S -> X).

Lemma preserves_ret {A} (a : A) : preserves f (ret a).
Proof. intros w. reflexivity. Qed.

Lemma preserves_lift {A} (r : result A) : preserves f (lift r).
Proof. intros w. reflexivity. Qed.

Lemma preserves_bind {A B} (c : M S A) (k : A -> M S B) :
  preserves f c -> (forall a, preserves f (k a)) -> preserves f (bind c k).
Proof.
  intros Hc Hk w. unfold bind. specialize (Hc w).
  destruct (c w) as [[a|e|y] w']; simpl in *.
  - rewrite Hk. exact Hc.
  - exact Hc.
  - exact Hc.
Qed.

Lemma preserves_try_catch {A} (c : M S A) (h : exn -> M S A) :
  preserves f c -> (forall e, preserves f (h e)) -> preserves f (try_catch c h).
Proof.
  intros Hc Hh w. unfold try_catch. specialize (Hc w).
  destruct (c w) as [[a|e|y] w']; simpl in *.
  - exact Hc.
  - rewrite Hh. exact Hc.
  - exact Hc.
Qed.

Lemma preserves_if {A} (b : bool) (c1 c2 : M S A) :
  preserves f c1 -> preserves f c2 -> preserves f (if b then c1 else c2).
Proof. destruct b; auto. Qed.

Lemma preserves_settled (o : FetchOutcome) : preserves f (settled o).
Proof. apply preserves_lift. Qed.

Lemma preserves_res_json (res : Response) : preserves f (res_json res).
Proof. apply preserves_lift. Qed.

Lemma preserves_res_text (res : Response) : preserves f (res_text res).
Proof. apply preserves_ret. Qed.

End Frames.

(* ===================================================================== *)
(** ** Model discovery                                                     *)
(* ===================================================================== *)

Section Discovery.
Import JsString Js Runtime Reading ModelsClient.
Local Open Scope js_scope.

Lemma fetchFirstModel_rejected (w : World State) :
  fetchFirstModel_resume Rejected w = (Ok JNull, logged (Error FetchFailure) w).
Proof. reflexivity. Qed.

Lemma fetchFirstModel_not_json (w : World State) (res : Response) :
  json_ok res = false ->
  fetchFirstModel_resume (Responded res) w
  = (Ok JNull, logged (Warn "Unexpected response:" (bodyText res)) w).
Proof.
  intros H. unfold fetchFirstModel_resume, try_catch, bind, settled, lift.
  rewrite H. reflexivity.
Qed.

Lemma fetchFirstModel_json (w : World State) (res : Response) (data : jsval) :
  json_ok res = true ->
  bodyJson res = Some data ->
  fetchFirstModel_resume (Responded res) w
  = try_catch (first_model_of data)
              (fun err => console_error err ;; ret JNull) w.
Proof.
  intros H Hd.
  unfold fetchFirstModel_resume, try_catch, bind, settled, res_json, lift.
  rewrite H, Hd. reflexivity.
Qed.

Lemma fetchFirstModel_bad_json (w : World State) (res : Response) :
  json_ok res = true ->
  bodyJson res = None ->
  fetchFirstModel_resume (Responded res) w
  = (Ok JNull, logged (Error SyntaxError) w).
Proof.
  intros H Hd.
  unfold fetchFirstModel_resume, try_catch, bind, settled, res_json, lift.
  rewrite H, Hd. reflexivity.
Qed.

Lemma first_model_of_nonempty (w : World State) (data first fid fname : jsval)
      (rest : list jsval) :
  get_prop data "models" = Ok (JArr (first :: rest)) ->
  get_prop first "id" = Ok fid ->
  get_prop first "name" = Ok fname ->
  first_model_of data w = (Ok (or_else fid (or_else fname JNull)), w).
Proof.
  intros Hm Hi Hn.
  unfold first_model_of, non_empty, bind, lift. rewrite Hm.
  cbn. rewrite Hi. unfold or_else.
  destruct (truthy fid); [reflexivity|].
  rewrite Hn. reflexivity.
Qed.

Lemma first_model_of_empty (w : World State) (data models : jsval) :
  get_prop data "models" = Ok models ->
  truthy models = false \/ models = JArr [] ->
  first_model_of data w = (Ok JNull, w).
Proof.
  intros Hm [H|H]; unfold first_model_of, non_empty, bind, lift; rewrite Hm.
  - rewrite H. reflexivity.
  - rewrite H. reflexivity.
Qed.

(** C3, as the code has it. [fetchFirstModel] returns [null] without
    fetching when there is no token; when the fetch is rejected (the error
    is logged); when the status is not 2xx or the content type does not
    contain [application/json] (the body text is logged); when [models] is
    missing, falsy or the empty list. When [models] is a list whose first
    entry is not [null], it returns [first.id || first.name || null]: the
    [id] when it is truthy, whatever [name] is; otherwise (no [id], or an
    [id] that is empty, zero, false or null) the [name] when it is truthy;
    otherwise [null]. *)
Theorem C3_first_model_id_then_name (w : World State) :
  (no_token (token (st w)) = true ->
     fetchFirstModel_start w = (Ok (Returned JNull), w))
  /\ fetchFirstModel_resume Rejected w
     = (Ok JNull, logged (Error FetchFailure) w)
  /\ (forall res,
        ok res = false
        \/ includes (contentType res) "application/json" = false ->
        fetchFirstModel_resume (Responded res) w
        = (Ok JNull, logged (Warn "Unexpected response:" (bodyText res)) w))
  /\ (forall res data models,
        json_ok res = true -> bodyJson res = Some data ->
        get_prop data "models" = Ok models ->
        truthy models = false \/ models = JArr [] ->
        fetchFirstModel_resume (Responded res) w = (Ok JNull, w))
  /\ (forall res data first rest fid fname,
        json_ok res = true -> bodyJson res = Some data ->
        get_prop data "models" = Ok (JArr (first :: rest)) ->
        get_prop first "id" = Ok fid ->
        get_prop first "name" = Ok fname ->
        fetchFirstModel_resume (Responded res) w
        = (Ok (if truthy fid then fid
               else if truthy fname then fname else JNull), w)).
Proof.
  split; [|split; [|split; [|split]]].
  - intros H. unfold fetchFirstModel_start, bind, read_st, ret.
    rewrite H. reflexivity.
  - reflexivity.
  - intros res H. apply fetchFirstModel_not_json.
    unfold json_ok. destruct H as [H|H]; rewrite H;
      [reflexivity | apply andb_false_r].
  - intros res data models Hj Hd Hm He.
    rewrite (fetchFirstModel_json w res data Hj Hd).
    unfold try_catch. rewrite (first_model_of_empty w data models Hm He).
    reflexivity.
  - intros res data first rest fid fname Hj Hd Hm Hi Hn.
    rewrite (fetchFirstModel_json w res data Hj Hd).
    unfold try_catch.
    rewrite (first_model_of_nonempty w data first fid fname rest Hm Hi Hn).
    reflexivity.
Qed.

Lemma C3_first_model_id_then_name_witness :
  let w := world_at (mkState "http://host" "k" (Some "k") JNull [] "" None) 0 in
  let both := JObj [("id", JStr "m-1"); ("name", JStr "Model One")] in
  let named := JObj [("name", JStr "Model One")] in
  fetchFirstModel_resume
    (Responded (json_reply (JObj [("models", JArr [both; named])]) "")) w
  = (Ok (JStr "m-1"), w)
  /\ fetchFirstModel_resume
       (Responded (json_reply (JObj [("models", JArr [named])]) "")) w
     = (Ok (JStr "Model One"), w)
  /\ fetchFirstModel_resume
       (Responded (json_reply (JObj [("models", JArr [])]) "")) w
     = (Ok JNull, w)
  /\ fst (fetchFirstModel_resume
            (Responded {| status := 500;
                          contentTypeHeader := Some "application/json";
                          bodyText := "oops"; bodyJson := None |}) w)
     = Ok JNull.
Proof.
  intros w both named.
  destruct (C3_first_model_id_then_name w) as (_ & _ & Hbad & Hnone & Hsome).
  split; [|split; [|split]].
  - apply (Hsome _ (JObj [("models", JArr [both; named])]) both [named]
                 (JStr "m-1") (JStr "Model One")); reflexivity.
  - apply (Hsome _ (JObj [("models", JArr [named])]) named []
                 JUndefined (JStr "Model One")); reflexivity.
  - apply (Hnone _ (JObj [("models", JArr [])]) (JArr []));
      [reflexivity | reflexivity | reflexivity | right; reflexivity].
  - rewrite Hbad; [reflexivity | left; reflexivity].
Defined.

(** C3 as stated fails on a first entry whose [id] is present but empty:
    the [name] is returned, not the [id]. *)
Lemma C3_counterexample :
  ~ (forall (w : World State) res fields entry rest,
        json_ok res = true ->
        bodyJson res = Some (JObj fields) ->
        assoc "models" fields = JArr (JObj entry :: rest) ->
        has_field "id" entry = true ->
        has_field "name" entry = true ->
        fst (fetchFirstModel_resume (Responded res) w)
        = Ok (assoc "id" entry)).
Proof.
  intros H.
  specialize (H (world_at (mkState "http://host" "k" (Some "k") JNull [] ""
                                   None) 0)
                (json_reply (JObj [("models",
                                    JArr [JObj [("id", JStr "");
                                                ("name", JStr "llama")]])]) "")
                [("models", JArr [JObj [("id", JStr "");
                                        ("name", JStr "llama")]])]
                [("id", JStr ""); ("name", JStr "llama")] []
                eq_refl eq_refl eq_refl eq_refl eq_refl).
  vm_compute in H. discriminate H.
Qed.

End Discovery.

(* ===================================================================== *)
(** ** Sending a message through [/chat/completions]                       *)
(* ===================================================================== *)

Section Sending.
Import JsString Js Runtime Reading ModelsClient.
Local Open Scope js_scope.

Lemma sendMessage_start_sends (w : World State) :
  no_token (token (st w)) = false ->
  truthy (model (st w)) = true ->
  is_empty (trim (currentMsg (st w))) = false ->
  exists req,
    sendMessage_start w
    = (Ok (AwaitFetch req),
       sent req
            (with_st (with_currentMsg ""
                        (with_messages (messages (st w) ++ [user_message w])
                                       (st w)))
                     (ticked w)))
    /\ url req = getApiBase (st w) +:+ "/chat/completions".
Proof.
  intros Ht Hm He. eexists.
  unfold sendMessage_start, bind, read_st.
  rewrite Ht, Hm, He. cbn. split; reflexivity.
Qed.

Lemma sendMessage_rejected (w : World State) :
  sendMessage_resume Rejected w
  = (Ok tt, with_st (with_error (Some "Network error") (st w))
                    (logged (Error FetchFailure) w)).
Proof. reflexivity. Qed.

Lemma sendMessage_not_json (w : World State) (res : Response) :
  json_ok res = false ->
  sendMessage_resume (Responded res) w
  = (Ok tt,
     with_st (with_error (Some ("Unexpected response: " +:+ bodyText res))
                         (st w))
             (logged (Warn "Unexpected response:" (bodyText res)) w)).
Proof.
  intros H. unfold sendMessage_resume, try_catch, bind, settled, lift.
  rewrite H. reflexivity.
Qed.

Lemma sendMessage_json (w : World State) (res : Response) (data : jsval) :
  json_ok res = true ->
  bodyJson res = Some data ->
  sendMessage_resume (Responded res) w
  = try_catch (normalize data)
              (fun err => console_error err ;;
                          setError (Some "Network error")) w.
Proof.
  intros H Hd.
  unfold sendMessage_resume, try_catch, bind, settled, res_json, lift.
  rewrite H, Hd. reflexivity.
Qed.

Lemma failed_not_json (res : Response) :
  failed (Responded res) -> json_ok res = false.
Proof.
  unfold failed, json_ok. intros [H|H]; rewrite H;
    [reflexivity | apply andb_false_r].
Qed.

(** A failed settlement sets the overlay and leaves the conversation of
    the world it settles in untouched. *)
Lemma sendMessage_failed (w : World State) (o : FetchOutcome) :
  failed o ->
  exists w' e,
    sendMessage_resume o w = (Ok tt, w')
    /\ messages (st w') = messages (st w)
    /\ error (st w') = Some e
    /\ e = match o with
           | Rejected => "Network error"
           | Responded res => "Unexpected response: " +:+ bodyText res
           end.
Proof.
  intros H. destruct o as [|res].
  - do 2 eexists. split; [apply sendMessage_rejected|].
    repeat split; reflexivity.
  - do 2 eexists. split; [apply sendMessage_not_json, failed_not_json, H|].
    repeat split; reflexivity.
Qed.

(** C7. A send that starts in the chat (token and model set, non-blank
    input) and whose fetch fails -- rejected, or answered with a status
    outside 2xx or a content type without [application/json] -- ends with
    the error overlay showing the failure text ([Network error], or
    [Unexpected response: ] followed by the body, never an empty text) and
    with the conversation equal to the previous one followed by the
    optimistic user message. Moreover the settlement alone, in whatever
    world it happens, shows that text and changes no message. *)
Theorem C7_failed_send_keeps_user_message
  (w : World State) (o : FetchOutcome) :
  no_token (token (st w)) = false ->
  truthy (model (st w)) = true ->
  is_empty (trim (currentMsg (st w))) = false ->
  failed o ->
  (exists w',
      sendMessage o w = (Ok tt, w')
      /\ messages (st w') = messages (st w) ++ [user_message w]
      /\ error (st w') = Some (failure_text o)
      /\ ModelsApp.shown_error (st w') = Some (failure_text o))
  /\ (forall late : World State,
         exists w',
           sendMessage_resume o late = (Ok tt, w')
           /\ messages (st w') = messages (st late)
           /\ error (st w') = Some (failure_text o)
           /\ ModelsApp.shown_error (st w') = Some (failure_text o)).
Proof.
  intros Ht Hm He Hf.
  assert (Hshown : forall s : State,
             error s = Some (failure_text o) ->
             ModelsApp.shown_error s = Some (failure_text o)).
  { intros s Hs. unfold ModelsApp.shown_error. rewrite Hs.
    destruct o; reflexivity. }
  assert (Hlate : forall late : World State,
             exists w',
               sendMessage_resume o late = (Ok tt, w')
               /\ messages (st w') = messages (st late)
               /\ error (st w') = Some (failure_text o)).
  { intros late.
    destruct (sendMessage_failed late o Hf)
      as (w' & e & Hr & Hmsg & Herr & Hetxt).
    exists w'. split; [exact Hr|]. split; [exact Hmsg|].
    rewrite Herr, Hetxt. reflexivity. }
  split.
  - destruct (sendMessage_start_sends w Ht Hm He) as (req & Hs & _).
    unfold sendMessage, bind. rewrite Hs.
    match goal with
    | |- context [sendMessage_resume o ?mid] =>
        destruct (Hlate mid) as (w' & Hr & Hmsg & Herr)
    end.
    exists w'. split; [exact Hr|]. split; [rewrite Hmsg; reflexivity|].
    split; [exact Herr | exact (Hshown _ Herr)].
  - intros late. destruct (Hlate late) as (w' & Hr & Hmsg & Herr).
    exists w'. split; [exact Hr|]. split; [exact Hmsg|].
    split; [exact Herr | exact (Hshown _ Herr)].
Qed.

Lemma C7_failed_send_keeps_user_message_witness :
  let earlier := ChatMessage.make (JStr "1") (JStr "hi") (JStr "user") in
  let w := world_at (mkState "http://host" "k" (Some "k") (JStr "m")
                             [earlier] " again " None) 1700000000000 in
  let o := Responded {| status := 200;
                        contentTypeHeader := Some "text/html";
                        bodyText := "<html>";
                        bodyJson := None |} in
  exists w',
    sendMessage o w = (Ok tt, w')
    /\ messages (st w')
       = [earlier;
          ChatMessage.make (JStr "1700000000000") (JStr "again") (JStr "user")]
    /\ ModelsApp.shown_error (st w') = Some "Unexpected response: <html>".
Proof.
  intros earlier w o.
  destruct (C7_failed_send_keeps_user_message w o) as [Hrun _];
    [reflexivity | reflexivity | reflexivity | right; reflexivity |].
  destruct Hrun as (w' & Hr & Hmsg & _ & Hshown).
  exists w'. split; [exact Hr|]. split; [|exact Hshown].
  rewrite Hmsg. reflexivity.
Defined.

(** *** The JSON branch *)

Lemma get_prop_not_nullish (v : jsval) (k : string) :
  nullish v = false -> get_prop v k = Ok (prop v k).
Proof. destruct v; intros H; try discriminate H; reflexivity. Qed.

Lemma get_prop_opt_total (v : jsval) (k : string) :
  exists x, get_prop_opt v k = Ok x.
Proof. destruct v; eexists; reflexivity. Qed.

Lemma optional_content_eq (c : jsval) (k : string) :
  nullish c = false ->
  exists m, get_prop c k = Ok m
            /\ get_prop_opt m "content" = Ok (optional_content c k).
Proof.
  intros H. exists (prop c k). split; [apply get_prop_not_nullish, H|].
  unfold optional_content. rewrite (get_prop_not_nullish c k H).
  destruct (get_prop_opt_total (prop c k) "content") as [x Hx].
  rewrite Hx. reflexivity.
Qed.

Lemma non_empty_cons (w : World State) (c : jsval) (rest : list jsval) :
  non_empty (JArr (c :: rest)) w = (Ok true, w).
Proof. reflexivity. Qed.

Lemma non_empty_none (w : World State) (v : jsval) :
  truthy v = false \/ v = JArr [] -> non_empty v w = (Ok false, w).
Proof.
  intros [H|H]; unfold non_empty.
  - rewrite H. reflexivity.
  - rewrite H. reflexivity.
Qed.

(** The value of the [reply] constant for a first choice that is not
    [null]. *)
Lemma reply_of_cons (w : World State) (c : jsval) (rest : list jsval) :
  nullish c = false ->
  reply_of (JArr (c :: rest)) w
  = (Ok (or_else (optional_content c "message")
                 (or_else (optional_content c "delta") (JStr ""))), w).
Proof.
  intros H.
  destruct (optional_content_eq c "message" H) as (m & Hm & Hmc).
  destruct (optional_content_eq c "delta" H) as (d & Hd & Hdc).
  unfold reply_of, bind, lift. cbn [get_first].
  rewrite Hm, Hmc. unfold or_else.
  destruct (truthy (optional_content c "message")); [reflexivity|].
  rewrite Hd, Hdc. reflexivity.
Qed.

Lemma reply_of_null (w : World State) (rest : list jsval) :
  reply_of (JArr (JNull :: rest)) w = (Throw TypeError, w).
Proof. reflexivity. Qed.

Lemma normalize_choices (w : World State) (data c : jsval)
      (rest : list jsval) :
  get_prop data "choices" = Ok (JArr (c :: rest)) ->
  nullish c = false ->
  let reply := or_else (optional_content c "message")
                       (or_else (optional_content c "delta") (JStr "")) in
  normalize data w
  = if truthy reply
    then (Ok tt,
          with_st (with_messages (messages (st w) ++ [assistant_message w reply])
                                 (st w))
                  (ticked w))
    else (Ok tt, w).
Proof.
  intros Hc Hn reply.
  unfold normalize, bind, lift. rewrite Hc, non_empty_cons.
  rewrite (reply_of_cons w c rest Hn). fold reply.
  destruct (truthy reply); reflexivity.
Qed.

Lemma filterM_not_user (w : World State) (l : list jsval) :
  forallb (fun m => negb (nullish m)) l = true ->
  filterM not_user l w = (Ok (List.filter kept l), w).
Proof.
  induction l as [|m rest IH]; intros H; [reflexivity|].
  cbn [forallb] in H. apply andb_true_iff in H as [Hm Hrest].
  apply negb_true_iff in Hm.
  cbn [filterM List.filter]. unfold bind at 1.
  assert (Hp : not_user m w = (Ok (kept m), w)).
  { unfold not_user, bind, lift, kept.
    rewrite (get_prop_not_nullish m "role" Hm).
    destruct (truthy (prop m "role")); reflexivity. }
  rewrite Hp. unfold bind. rewrite (IH Hrest). reflexivity.
Qed.

(** What [to_assistant] builds from an entry that is not [null]: the
    entry's own [id] when truthy, a time-derived one otherwise. *)
Lemma to_assistant_not_nullish (w : World State) (m : jsval) :
  nullish m = false ->
  exists i w',
    to_assistant m w
    = (Ok (ChatMessage.make i (content_or_text m)
                            (or_else (prop m "role") (JStr "assistant"))), w')
    /\ st w' = st w
    /\ (truthy (prop m "id") = true -> i = prop m "id").
Proof.
  intros H.
  unfold to_assistant, bind, lift.
  repeat rewrite (get_prop_not_nullish m _ H).
  unfold content_or_text, or_else.
  destruct (truthy (prop m "id")) eqn:Hid.
  - exists (prop m "id"), w. unfold ret.
    destruct (truthy (prop m "content")); cbn;
      rewrite ?(get_prop_not_nullish m _ H); cbn;
      (split; [reflexivity | split; [reflexivity | auto]]).
  - exists (JStr (num_to_string (clock w (reads w)) +:+ "-a")), (ticked w).
    unfold date_now, ret.
    destruct (truthy (prop m "content")); cbn;
      rewrite ?(get_prop_not_nullish m _ H); cbn;
      (split; [reflexivity | split; [reflexivity | discriminate]]).
Qed.

Lemma mapM_to_assistant (l : list jsval) :
  forallb (fun m => negb (nullish m)) l = true ->
  forall w : World State,
  exists ams w',
    mapM to_assistant l w = (Ok ams, w')
    /\ st w' = st w
    /\ List.map ChatMessage.text ams = List.map content_or_text l
    /\ List.map ChatMessage.role ams
       = List.map (fun m => or_else (prop m "role") (JStr "assistant")) l.
Proof.
  induction l as [|m rest IH]; intros H w.
  - exists [], w. repeat split; reflexivity.
  - cbn [forallb] in H. apply andb_true_iff in H as [Hm Hrest].
    apply negb_true_iff in Hm.
    destruct (to_assistant_not_nullish w m Hm) as (i & w1 & H1 & Hs1 & _).
    destruct (IH Hrest w1) as (ams & w2 & H2 & Hs2 & Ht & Hr).
    eexists (_ :: ams), w2.
    cbn [mapM]. unfold bind. rewrite H1, H2. cbn [ret].
    split; [reflexivity|].
    split; [congruence|].
    cbn [List.map ChatMessage.text ChatMessage.role].
    rewrite Ht, Hr. split; reflexivity.
Qed.

Lemma filter_kept_not_nullish (l : list jsval) :
  forallb (fun m => negb (nullish m)) (List.filter kept l) = true.
Proof.
  induction l as [|m rest IH]; [reflexivity|].
  cbn [List.filter]. destruct (kept m) eqn:Hk; [|exact IH].
  cbn [forallb]. rewrite IH, andb_true_r.
  destruct m; try reflexivity; discriminate Hk.
Qed.

Lemma normalize_messages (w : World State) (data choices : jsval)
      (l : list jsval) :
  get_prop data "choices" = Ok choices ->
  truthy choices = false \/ choices = JArr [] ->
  get_prop data "messages" = Ok (JArr l) ->
  forallb (fun m => negb (nullish m)) l = true ->
  exists ams w',
    normalize data w = (Ok tt, w')
    /\ messages (st w') = messages (st w) ++ ams
    /\ error (st w') = error (st w)
    /\ List.map ChatMessage.text ams
       = List.map content_or_text (List.filter kept l)
    /\ List.map ChatMessage.role ams
       = List.map (fun m => prop m "role") (List.filter kept l).
Proof.
  intros Hc He Hm Hl.
  destruct (mapM_to_assistant (List.filter kept l)
              (filter_kept_not_nullish l) w) as (ams & w1 & H1 & Hs & Ht & Hr).
  exists ams. eexists.
  unfold normalize, bind, lift. rewrite Hc, (non_empty_none w choices He), Hm.
  cbn [truthy as_array lift].
  rewrite (filterM_not_user w l Hl), H1.
  split; [reflexivity|].
  unfold with_st, with_messages. cbn [st messages error]. rewrite Hs.
  split; [reflexivity|]. split; [reflexivity|]. split; [exact Ht|].
  rewrite Hr. apply map_ext_in. intros m Hin.
  apply filter_In in Hin as [_ Hk]. unfold kept in Hk.
  apply andb_true_iff in Hk as [Hk _]. unfold or_else. rewrite Hk.
  reflexivity.
Qed.

Lemma normalize_format_error (w : World State) (data choices msgs : jsval) :
  get_prop data "choices" = Ok choices ->
  truthy choices = false \/ choices = JArr [] ->
  get_prop data "messages" = Ok msgs ->
  truthy msgs = false ->
  normalize data w
  = (Ok tt, with_st (with_error (Some "Invalid response format") (st w)) w).
Proof.
  intros Hc He Hm Hf.
  unfold normalize, bind, lift. rewrite Hc, (non_empty_none w choices He), Hm, Hf.
  reflexivity.
Qed.

Lemma kept_role_not_user (m : jsval) :
  kept m = true -> prop m "role" <> JStr "user".
Proof.
  unfold kept. intros H E. rewrite E in H. discriminate H.
Qed.

(** C2 as stated fails when [choices] is non-empty and its first entry
    carries no content: no shape of the three is present, and yet no format
    error is signalled. *)
Lemma C2_counterexample :
  ~ (forall (w : World State) (data : jsval),
        truthy (choice_content data "message") = false ->
        truthy (choice_content data "delta") = false ->
        (forall l, get_prop data "messages" <> Ok (JArr l)) ->
        error (st (snd (sendMessage_resume
                          (Responded (json_reply data "")) w)))
        = Some "Invalid response format").
Proof.
  intros H.
  specialize (H (world_at (mkState "http://host" "k" (Some "k") (JStr "m") []
                                   "" None) 0)
                (JObj [("choices", JArr [JObj []])])
                eq_refl eq_refl).
  assert (Hno : forall l,
             get_prop (JObj [("choices", JArr [JObj []])]) "messages"
             <> Ok (JArr l)) by (intros l; discriminate).
  specialize (H Hno). vm_compute in H. discriminate H.
Qed.

(** C10, as the code has it. A 2xx JSON reply whose [choices] is a
    non-empty list, with a first entry that is not [null] and has neither a
    truthy [message.content] nor a truthy [delta.content], changes nothing
    when it settles: no message is appended, the overlay is not touched,
    nothing is logged. The whole send therefore ends with the previous
    conversation followed by the optimistic user message, and the overlay
    as it was. *)
Theorem C10_contentless_choice_is_silent
  (w : World State) (res : Response) (data c : jsval) (rest : list jsval) :
  json_ok res = true ->
  bodyJson res = Some data ->
  get_prop data "choices" = Ok (JArr (c :: rest)) ->
  nullish c = false ->
  truthy (optional_content c "message") = false ->
  truthy (optional_content c "delta") = false ->
  (forall late : World State,
      sendMessage_resume (Responded res) late = (Ok tt, late))
  /\ (no_token (token (st w)) = false ->
      truthy (model (st w)) = true ->
      is_empty (trim (currentMsg (st w))) = false ->
      exists w',
        sendMessage (Responded res) w = (Ok tt, w')
        /\ messages (st w') = messages (st w) ++ [user_message w]
        /\ error (st w') = error (st w)).
Proof.
  intros Hj Hd Hc Hn Hm Hdl.
  assert (Hsilent : forall late : World State,
             sendMessage_resume (Responded res) late = (Ok tt, late)).
  { intros late.
    rewrite (sendMessage_json late res data Hj Hd). unfold try_catch.
    rewrite (normalize_choices late data c rest Hc Hn). unfold or_else.
    rewrite Hm, Hdl. reflexivity. }
  split; [exact Hsilent|].
  intros Ht Hmod He.
  destruct (sendMessage_start_sends w Ht Hmod He) as (req & Hs & _).
  eexists. unfold sendMessage, bind. rewrite Hs, Hsilent.
  repeat split; reflexivity.
Qed.

Lemma C10_contentless_choice_is_silent_witness :
  let w := world_at (mkState "http://host" "k" (Some "k") (JStr "m") []
                             "hi" None) 1700000000000 in
  let data := JObj [("choices",
                     JArr [JObj [("message", JObj [("content", JStr "")]);
                                 ("finish_reason", JStr "stop")]])] in
  exists w',
    sendMessage (Responded (json_reply data "")) w = (Ok tt, w')
    /\ messages (st w')
       = [ChatMessage.make (JStr "1700000000000") (JStr "hi") (JStr "user")]
    /\ error (st w') = None.
Proof.
  intros w data.
  destruct (C10_contentless_choice_is_silent
              w (json_reply data "") data
              (JObj [("message", JObj [("content", JStr "")]);
                     ("finish_reason", JStr "stop")]) [])
    as [_ Hrun];
    [reflexivity | reflexivity | reflexivity | reflexivity | reflexivity
     | reflexivity |].
  destruct Hrun as (w' & Hr & Hmsg & Herr);
    [reflexivity | reflexivity | reflexivity |].
  exists w'. split; [exact Hr|]. split; [rewrite Hmsg | rewrite Herr];
    reflexivity.
Defined.

(** C10 as stated fails when the first entry of [choices] is [null]: it
    has no content of either kind, but reading [message] from it throws, and
    the handler reports a network error. *)
Lemma C10_counterexample :
  ~ (forall (w : World State) res data c rest,
        json_ok res = true ->
        bodyJson res = Some data ->
        get_prop data "choices" = Ok (JArr (c :: rest)) ->
        truthy (optional_content c "message") = false ->
        truthy (optional_content c "delta") = false ->
        error (st (snd (sendMessage_resume (Responded res) w)))
        = error (st w)).
Proof.
  intros H.
  specialize (H (world_at (mkState "http://host" "k" (Some "k") (JStr "m") []
                                   "" None) 0)
                (json_reply (JObj [("choices", JArr [JNull])]) "")
                (JObj [("choices", JArr [JNull])]) JNull []
                eq_refl eq_refl eq_refl eq_refl eq_refl).
  vm_compute in H. discriminate H.
Qed.

End Sending.

(* ===================================================================== *)
(** ** Chat history                                                        *)
(* ===================================================================== *)

Section History.
Import JsString Js Runtime Reading.
Local Open Scope js_scope.

Lemma chats_history_rejected (w : World ChatsClient.State) :
  ChatsClient.fetchHistory_resume Rejected w
  = (Ok tt, with_st (ChatsClient.with_error (Some "Network error") (st w))
                    (logged (Error FetchFailure) w)).
Proof. reflexivity. Qed.

Lemma chats_history_not_json (w : World ChatsClient.State) (res : Response) :
  json_ok res = false ->
  ChatsClient.fetchHistory_resume (Responded res) w
  = (Ok tt,
     with_st (ChatsClient.with_error (Some "Failed to fetch chat history")
                                     (st w))
             (logged (Warn "Unexpected response:" (bodyText res)) w)).
Proof.
  intros H.
  unfold ChatsClient.fetchHistory_resume, try_catch, bind, settled, lift.
  rewrite H. reflexivity.
Qed.

Lemma chats_history_loaded (w : World ChatsClient.State) (res : Response)
      (data : jsval) :
  json_ok res = true ->
  bodyJson res = Some data ->
  nullish data = false ->
  ChatsClient.fetchHistory_resume (Responded res) w
  = (Ok tt,
     with_st (ChatsClient.with_messages
                (or_else (prop data "messages") (JArr [])) (st w)) w).
Proof.
  intros H Hd Hn.
  unfold ChatsClient.fetchHistory_resume, try_catch, bind, settled, res_json,
    lift.
  rewrite H, Hd, (get_prop_not_nullish data "messages" Hn). reflexivity.
Qed.

Lemma chats_history_malformed (w : World ChatsClient.State) (res : Response) :
  json_ok res = true ->
  bodyJson res = None \/ bodyJson res = Some JNull ->
  exists e,
    ChatsClient.fetchHistory_resume (Responded res) w
    = (Ok tt, with_st (ChatsClient.with_error (Some "Network error") (st w))
                      (logged (Error e) w)).
Proof.
  intros H [Hd|Hd];
    unfold ChatsClient.fetchHistory_resume, try_catch, bind, settled, res_json,
      lift; rewrite H, Hd; eexists; reflexivity.
Qed.

Lemma chats_send_not_json (w : World ChatsClient.State) (res : Response) :
  json_ok res = false ->
  ChatsClient.sendMessage_resume (Responded res) w
  = (Ok tt,
     with_st (ChatsClient.with_error (Some "Failed to send message") (st w))
             (logged (Warn "Unexpected response:" (bodyText res)) w)).
Proof.
  intros H.
  unfold ChatsClient.sendMessage_resume, try_catch, bind, settled, lift.
  rewrite H. reflexivity.
Qed.

Lemma login_history_not_ok (w : World LoginClient.State) (res : Response) :
  ok res = false ->
  LoginClient.fetchHistory_resume (Responded res) w
  = (Ok tt,
     with_st (LoginClient.with_error (Some "Failed to fetch chat history")
                                     (st w)) w).
Proof.
  intros H.
  unfold LoginClient.fetchHistory_resume, try_catch, bind, settled, lift.
  rewrite H. reflexivity.
Qed.

Lemma login_history_loaded (w : World LoginClient.State) (res : Response)
      (data : jsval) :
  ok res = true ->
  bodyJson res = Some data ->
  nullish data = false ->
  LoginClient.fetchHistory_resume (Responded res) w
  = (Ok tt,
     with_st (LoginClient.with_messages
                (or_else (prop data "messages") (JArr [])) (st w)) w).
Proof.
  intros H Hd Hn.
  unfold LoginClient.fetchHistory_resume, try_catch, bind, settled, res_json,
    lift.
  rewrite H, Hd, (get_prop_not_nullish data "messages" Hn). reflexivity.
Qed.

Lemma login_history_malformed (w : World LoginClient.State) (res : Response) :
  ok res = true ->
  bodyJson res = None \/ bodyJson res = Some JNull ->
  exists e,
    LoginClient.fetchHistory_resume (Responded res) w
    = (Ok tt, with_st (LoginClient.with_error (Some "Network error") (st w))
                      (logged (Error e) w)).
Proof.
  intros H [Hd|Hd];
    unfold LoginClient.fetchHistory_resume, try_catch, bind, settled, res_json,
      lift; rewrite H, Hd; eexists; reflexivity.
Qed.

Lemma login_send_not_ok (w : World LoginClient.State) (res : Response) :
  ok res = false ->
  LoginClient.sendMessage_resume (Responded res) w
  = (Ok tt,
     with_st (LoginClient.with_error (Some "Failed to send message") (st w)) w).
Proof.
  intros H.
  unfold LoginClient.sendMessage_resume, try_catch, bind, settled, lift.
  rewrite H. reflexivity.
Qed.

Lemma json_ok_spec (res : Response) :
  json_ok res = true
  <-> (200 <= status res <= 299
       /\ includes (contentType res) "application/json" = true).
Proof.
  unfold json_ok, ok. rewrite !andb_true_iff, !Z.leb_le. tauto.
Qed.

(** C9. In both history variants, a successful response whose body is a
    JSON value other than [null] replaces the conversation by the [messages]
    field exactly as sent when that is a list (or any truthy value), and by
    the empty list when the field is missing or falsy; the overlay is not
    touched. A response with a status outside 2xx (in the API-key variant
    also one whose content type is not JSON), and a body that is not JSON or
    is [null], set the overlay to an error message and leave the conversation
    as it was: a failure is never shown as an empty history. The history
    [{messages: [{id: "1", role: "user", text: "hi"}]}] is loaded as that one
    message. *)
Theorem C9_history_verbatim_or_failure :
  (forall (w : World ChatsClient.State) (res : Response),
      (forall data,
          json_ok res = true -> bodyJson res = Some data ->
          nullish data = false ->
          (truthy (prop data "messages") = true ->
             ChatsClient.fetchHistory_resume (Responded res) w
             = (Ok tt, with_st (ChatsClient.with_messages
                                  (prop data "messages") (st w)) w))
          /\ (truthy (prop data "messages") = false ->
                ChatsClient.fetchHistory_resume (Responded res) w
                = (Ok tt, with_st (ChatsClient.with_messages (JArr []) (st w))
                                  w)))
      /\ (ok res = false
          \/ includes (contentType res) "application/json" = false ->
            exists w',
              ChatsClient.fetchHistory_resume (Responded res) w = (Ok tt, w')
              /\ ChatsClient.messages (st w') = ChatsClient.messages (st w)
              /\ ChatsClient.error (st w')
                 = Some "Failed to fetch chat history")
      /\ (json_ok res = true ->
          bodyJson res = None \/ bodyJson res = Some JNull ->
            exists w',
              ChatsClient.fetchHistory_resume (Responded res) w = (Ok tt, w')
              /\ ChatsClient.messages (st w') = ChatsClient.messages (st w)
              /\ ChatsClient.error (st w') = Some "Network error"))
  /\ (forall (w : World LoginClient.State) (res : Response),
         (forall data,
             ok res = true -> bodyJson res = Some data ->
             nullish data = false ->
             (truthy (prop data "messages") = true ->
                LoginClient.fetchHistory_resume (Responded res) w
                = (Ok tt, with_st (LoginClient.with_messages
                                     (prop data "messages") (st w)) w))
             /\ (truthy (prop data "messages") = false ->
                   LoginClient.fetchHistory_resume (Responded res) w
                   = (Ok tt,
                      with_st (LoginClient.with_messages (JArr []) (st w)) w)))
         /\ (ok res = false ->
               exists w',
                 LoginClient.fetchHistory_resume (Responded res) w = (Ok tt, w')
                 /\ LoginClient.messages (st w') = LoginClient.messages (st w)
                 /\ LoginClient.error (st w')
                    = Some "Failed to fetch chat history")
         /\ (ok res = true ->
             bodyJson res = None \/ bodyJson res = Some JNull ->
               exists w',
                 LoginClient.fetchHistory_resume (Responded res) w = (Ok tt, w')
                 /\ LoginClient.messages (st w') = LoginClient.messages (st w)
                 /\ LoginClient.error (st w') = Some "Network error"))
  /\ (forall (w : World ChatsClient.State) (raw : string),
         let hi := JObj [("id", JStr "1"); ("role", JStr "user");
                         ("text", JStr "hi")] in
         ChatsClient.fetchHistory_resume
           (Responded (json_reply (JObj [("messages", JArr [hi])]) raw)) w
         = (Ok tt, with_st (ChatsClient.with_messages (JArr [hi]) (st w)) w)).
Proof.
  split; [|split].
  - intros w res. split; [|split].
    + intros data Hj Hd Hn.
      rewrite (chats_history_loaded w res data Hj Hd Hn). unfold or_else.
      split; intros Ht; rewrite Ht; reflexivity.
    + intros Hk. eexists. split.
      * apply chats_history_not_json, (failed_not_json res), Hk.
      * split; reflexivity.
    + intros Hj Hd.
      destruct (chats_history_malformed w res Hj Hd) as [e He].
      eexists. split; [exact He|]. split; reflexivity.
  - intros w res. split; [|split].
    + intros data Hj Hd Hn.
      rewrite (login_history_loaded w res data Hj Hd Hn). unfold or_else.
      split; intros Ht; rewrite Ht; reflexivity.
    + intros Hk. eexists. split; [apply login_history_not_ok, Hk|].
      split; reflexivity.
    + intros Hj Hd.
      destruct (login_history_malformed w res Hj Hd) as [e He].
      eexists. split; [exact He|]. split; reflexivity.
  - intros w raw hi. reflexivity.
Qed.

Lemma C9_history_verbatim_or_failure_witness :
  let w := world_at (LoginClient.mkState "http://host" "u" "p" (Some "t")
                                         (JArr [JStr "old"]) "" None) 0 in
  let hi := JObj [("id", JStr "1"); ("role", JStr "user");
                  ("text", JStr "hi")] in
  let served := {| status := 200; contentTypeHeader := None; bodyText := "";
                   bodyJson := Some (JObj [("messages", JArr [hi])]) |} in
  let bare := {| status := 200; contentTypeHeader := None; bodyText := "";
                 bodyJson := Some (JObj []) |} in
  let denied := {| status := 401; contentTypeHeader := None;
                   bodyText := "no"; bodyJson := None |} in
  LoginClient.fetchHistory_resume (Responded served) w
  = (Ok tt, with_st (LoginClient.with_messages (JArr [hi]) (st w)) w)
  /\ LoginClient.fetchHistory_resume (Responded bare) w
     = (Ok tt, with_st (LoginClient.with_messages (JArr []) (st w)) w)
  /\ (exists w',
         LoginClient.fetchHistory_resume (Responded denied) w = (Ok tt, w')
         /\ LoginClient.messages (st w') = JArr [JStr "old"]
         /\ LoginClient.error (st w') = Some "Failed to fetch chat history").
Proof.
  intros w hi served bare denied.
  destruct C9_history_verbatim_or_failure as (_ & Hlogin & _).
  split; [|split].
  - destruct (Hlogin w served) as (Hload & _).
    destruct (Hload (JObj [("messages", JArr [hi])])) as [Hlist _];
      [reflexivity | reflexivity | reflexivity |].
    apply Hlist. reflexivity.
  - destruct (Hlogin w bare) as (Hload & _).
    destruct (Hload (JObj [])) as [_ Hnone];
      [reflexivity | reflexivity | reflexivity |].
    apply Hnone. reflexivity.
  - destruct (Hlogin w denied) as (_ & Hbad & _).
    apply Hbad. reflexivity.
Defined.

End History.

(* ===================================================================== *)
(** ** The success gate on responses                                       *)
(* ===================================================================== *)

Section Gate.
Import JsString Js Runtime Reading.
Local Open Scope js_scope.

(** C1, as the code has it. In the two API-key variants every operation
    takes its JSON branch only under [json_ok]: a status in 200-299 and a
    content type containing [application/json]. Any other response -- a 200
    with content type [text/plain] among them, whatever its body -- is a
    failure: model discovery returns [null], the history fetch and the send
    set the error overlay, and each logs the raw body text with
    [console.warn] (the chat-completions send also puts it in the overlay).
    In the login variant the content type is not read: a response with a
    status outside 2xx sets the overlay without reading the body text, and a
    2xx response is parsed as JSON whatever its content type. *)
Theorem C1_json_gate_by_variant :
  (forall res,
      json_ok res = true
      <-> (200 <= status res <= 299
           /\ includes (contentType res) "application/json" = true))
  /\ (forall res,
         status res = 200 -> contentTypeHeader res = Some "text/plain" ->
         json_ok res = false)
  /\ (forall (w : World ModelsClient.State) res,
         json_ok res = false ->
         ModelsClient.fetchFirstModel_resume (Responded res) w
         = (Ok JNull, logged (Warn "Unexpected response:" (bodyText res)) w)
         /\ ModelsClient.sendMessage_resume (Responded res) w
            = (Ok tt,
               with_st (ModelsClient.with_error
                          (Some ("Unexpected response: " +:+ bodyText res))
                          (st w))
                       (logged (Warn "Unexpected response:" (bodyText res)) w)))
  /\ (forall (w : World ChatsClient.State) res,
         json_ok res = false ->
         ChatsClient.fetchHistory_resume (Responded res) w
         = (Ok tt,
            with_st (ChatsClient.with_error
                       (Some "Failed to fetch chat history") (st w))
                    (logged (Warn "Unexpected response:" (bodyText res)) w))
         /\ ChatsClient.sendMessage_resume (Responded res) w
            = (Ok tt,
               with_st (ChatsClient.with_error
                          (Some "Failed to send message") (st w))
                       (logged (Warn "Unexpected response:" (bodyText res)) w)))
  /\ (forall (w : World LoginClient.State) res,
         (ok res = false ->
            LoginClient.fetchHistory_resume (Responded res) w
            = (Ok tt,
               with_st (LoginClient.with_error
                          (Some "Failed to fetch chat history") (st w)) w)
            /\ LoginClient.sendMessage_resume (Responded res) w
               = (Ok tt,
                  with_st (LoginClient.with_error
                             (Some "Failed to send message") (st w)) w))
         /\ (forall data,
                ok res = true -> bodyJson res = Some data ->
                nullish data = false ->
                LoginClient.fetchHistory_resume (Responded res) w
                = (Ok tt,
                   with_st (LoginClient.with_messages
                              (or_else (prop data "messages") (JArr []))
                              (st w)) w))).
Proof.
  split; [exact json_ok_spec|].
  split.
  { intros res Hs Hc. unfold json_ok, contentType. rewrite Hc.
    apply andb_false_r. }
  split.
  { intros w res H. split.
    - apply fetchFirstModel_not_json, H.
    - apply sendMessage_not_json, H. }
  split.
  { intros w res H. split.
    - apply chats_history_not_json, H.
    - apply chats_send_not_json, H. }
  intros w res. split.
  - intros H. split.
    + apply login_history_not_ok, H.
    + apply login_send_not_ok, H.
  - intros data H Hd Hn. apply login_history_loaded; assumption.
Qed.

Lemma C1_json_gate_by_variant_witness :
  let plain := {| status := 200; contentTypeHeader := Some "text/plain";
                  bodyText := "{}"; bodyJson := Some (JObj []) |} in
  let w1 := world_at (ModelsClient.mkState "http://host" "k" (Some "k") JNull
                                           [] "" None) 0 in
  let w2 := world_at (ChatsClient.mkState "http://host" "k" (Some "k")
                                          (JArr []) "" None) 0 in
  let w3 := world_at (LoginClient.mkState "http://host" "u" "p" (Some "t")
                                          (JArr [JStr "old"]) "" None) 0 in
  ModelsClient.fetchFirstModel_resume (Responded plain) w1
  = (Ok JNull, logged (Warn "Unexpected response:" "{}") w1)
  /\ ChatsClient.error
       (st (snd (ChatsClient.fetchHistory_resume (Responded plain) w2)))
     = Some "Failed to fetch chat history"
  /\ LoginClient.fetchHistory_resume (Responded plain) w3
     = (Ok tt, with_st (LoginClient.with_messages (JArr []) (st w3)) w3).
Proof.
  intros plain w1 w2 w3.
  destruct C1_json_gate_by_variant as (_ & Hplain & H1 & H2 & H3).
  assert (Hno : json_ok plain = false) by (apply Hplain; reflexivity).
  split; [|split].
  - apply (H1 w1 plain Hno).
  - destruct (H2 w2 plain Hno) as [Hh _]. rewrite Hh. reflexivity.
  - destruct (H3 w3 plain) as [_ Hload].
    apply (Hload (JObj [])); reflexivity.
Defined.

(** C1 as stated fails in the login variant: a 200 response of content type
    [text/plain] whose body parses is a success, and sets no error. *)
Lemma C1_counterexample :
  ~ (forall (w : World LoginClient.State) res,
        json_ok res = false ->
        exists e,
          LoginClient.error
            (st (snd (LoginClient.fetchHistory_resume (Responded res) w)))
          = Some e).
Proof.
  intros H.
  destruct (H (world_at (LoginClient.mkState "http://host" "u" "p" (Some "t")
                                             (JArr []) "" None) 0)
              {| status := 200; contentTypeHeader := Some "text/plain";
                 bodyText := "";
                 bodyJson := Some (JObj [("messages",
                                          JArr [JObj [("id", JStr "1")]])]) |}
              eq_refl) as [e He].
  vm_compute in He. discriminate He.
Qed.

End Gate.

(* ===================================================================== *)
(** ** The conversation across a credential change                         *)
(* ===================================================================== *)

Section Reconnect.
Import JsString Js Runtime Reading.
Local Open Scope js_scope.

Lemma setup_start_clears (w : World ModelsClient.State) :
  no_token (ModelsClient.token (st w)) = false ->
  exists req,
    ModelsClient.setup_start w
    = (Ok (AwaitFetch req),
       sent req (with_st (ModelsClient.with_messages []
                            (ModelsClient.with_error None (st w))) w))
    /\ url req = ModelsClient.getApiBase (st w) +:+ "/models".
Proof.
  intros H. eexists.
  unfold ModelsClient.setup_start, ModelsClient.fetchFirstModel_start, bind,
    read_st.
  rewrite H. cbn. rewrite H. split; reflexivity.
Qed.



End Reconnect.

(* ===================================================================== *)
(** ** Further frame lemmas                                                *)
(* ===================================================================== *)

Section MoreFrames.
Import Js Runtime Reading.
Context {S X : Type} (f : World S -> X).

Lemma preserves_as_array (v : jsval) : preserves f (as_array v).
Proof. apply preserves_lift. Qed.

Lemma preserves_mapM {A B} (g : A -> M S B) (xs : list A) :
  (forall a, preserves f (g a)) -> preserves f (mapM g xs).
Proof.
  intros Hg. induction xs as [|x rest IH]; simpl.
  - apply preserves_ret.
  - apply preserves_bind; [apply Hg|]. intros y.
    apply preserves_bind; [exact IH|]. intros ys. apply preserves_ret.
Qed.

Lemma preserves_filterM {A} (p : A -> M S bool) (xs : list A) :
  (forall a, preserves f (p a)) -> preserves f (filterM p xs).
Proof.
  intros Hp. induction xs as [|x rest IH]; simpl.
  - apply preserves_ret.
  - apply preserves_bind; [apply Hp|]. intros keep.
    apply preserves_bind; [exact IH|]. intros ys. apply preserves_ret.
Qed.

(** A setter with a throwing updater changes the component state at most. *)
Lemma preserves_modify_st_with (g : S -> result S) :
  (forall s w, f (with_st s w) = f w) -> preserves f (modify_st_with g).
Proof.
  intros Hf w. unfold modify_st_with.
  destruct (g (st w)); simpl; [apply Hf | reflexivity | reflexivity].
Qed.

Lemma preserves_async {A B} (a : Async A) (k1 : A -> M S B)
      (k2 : Request -> M S B) :
  (forall x, preserves f (k1 x)) -> (forall r, preserves f (k2 r)) ->
  preserves f (match a with Returned x => k1 x | AwaitFetch r => k2 r end).
Proof. intros H1 H2. destruct a; auto. Qed.

End MoreFrames.

(** Decompose a handler along its binds, branches and loops; what is left
    are its primitive steps. *)
Ltac frame_step :=
  match goal with
  | |- Reading.preserves _ (Runtime.bind _ _) =>
      apply preserves_bind; [|intro]
  | |- Reading.preserves _ (Runtime.try_catch _ _) =>
      apply preserves_try_catch; [|intro]
  | |- Reading.preserves _ (if _ then _ else _) => apply preserves_if
  | |- Reading.preserves _ (match ?a with
                            | Runtime.Returned _ => _
                            | Runtime.AwaitFetch _ => _
                            end) => destruct a
  | |- Reading.preserves _ (Runtime.mapM _ _) => apply preserves_mapM; intro
  | |- Reading.preserves _ (Runtime.filterM _ _) =>
      apply preserves_filterM; intro
  | |- Reading.preserves _ (Runtime.ret _) => apply preserves_ret
  | |- Reading.preserves _ (Runtime.lift _) => apply preserves_lift
  | |- Reading.preserves _ (Runtime.settled _) => apply preserves_settled
  | |- Reading.preserves _ (Runtime.res_json _) => apply preserves_res_json
  | |- Reading.preserves _ (Runtime.res_text _) => apply preserves_res_text
  | |- Reading.preserves _ (Runtime.as_array _) => apply preserves_as_array
  | |- Reading.preserves _ (Runtime.modify_st_with _) =>
      apply preserves_modify_st_with; intros; reflexivity
  | |- Reading.preserves _ _ => solve [intros ?; reflexivity]
  end.
Ltac frame := repeat frame_step.

(** The composite handlers of the three variants, unfolded to their steps. *)
Ltac open_handlers :=
  unfold ModelsClient.setup_resume, ModelsClient.setup_start,
    ModelsClient.fetchFirstModel_resume, ModelsClient.fetchFirstModel_start,
    ModelsClient.first_model_of, ModelsClient.non_empty,
    ModelsClient.setup_finish, ModelsClient.mount,
    ModelsClient.sendMessage_resume, ModelsClient.sendMessage_start,
    ModelsClient.normalize, ModelsClient.reply_of, ModelsClient.not_user,
    ModelsClient.to_assistant,
    ChatsClient.fetchHistory_resume, ChatsClient.fetchHistory_start,
    ChatsClient.sendMessage_resume, ChatsClient.sendMessage_start,
    ChatsClient.to_assistant, ChatsClient.appendMessages, ChatsClient.mount,
    LoginClient.fetchHistory_resume, LoginClient.fetchHistory_start,
    LoginClient.sendMessage_resume, LoginClient.sendMessage_start,
    LoginClient.to_assistant, LoginClient.appendMessages,
    LoginForm.login_resume, LoginForm.login_start.

Ltac steps := repeat first [frame_step | progress open_handlers].

(* ===================================================================== *)
(** ** The order of reply normalization                                    *)
(* ===================================================================== *)

Section Normalization.
Import JsString Js Runtime Reading ModelsClient.
Local Open Scope js_scope.

Lemma bind_ok {A B} (c : M State A) (k : A -> M State B)
      (w w' : World State) (a : A) :
  c w = (Ok a, w') -> bind c k w = k a w'.
Proof. intros H. unfold bind. rewrite H. reflexivity. Qed.

(** The guard [xs && xs.length > 0], by the shape of [xs]. *)
Lemma non_empty_by_shape (w : World State) (xs : jsval) :
  length_coerced xs = false -> non_empty xs w = (Ok (has_entries xs), w).
Proof.
  intros H. destruct xs as [| |b|n|s|l|f]; try reflexivity.
  - destruct b; reflexivity.
  - unfold non_empty. cbn [truthy]. destruct (n =? 0); reflexivity.
  - destruct s; reflexivity.
  - destruct l; reflexivity.
  - unfold non_empty, bind, lift. cbn [truthy get_prop has_entries].
    cbn [length_coerced] in H.
    destruct (assoc "length" f); try discriminate H; reflexivity.
Qed.

Lemma reply_of_first (w : World State) (choices c : jsval) :
  get_first choices = Ok c ->
  nullish c = false ->
  reply_of choices w
  = (Ok (or_else (optional_content c "message")
                 (or_else (optional_content c "delta") (JStr ""))), w).
Proof.
  intros Hf H.
  destruct (optional_content_eq c "message" H) as (m & Hm & Hmc).
  destruct (optional_content_eq c "delta" H) as (d & Hd & Hdc).
  unfold reply_of, bind, lift. rewrite Hf, Hm, Hmc. unfold or_else.
  destruct (truthy (optional_content c "message")); [reflexivity|].
  rewrite Hd, Hdc. reflexivity.
Qed.

Lemma reply_of_nullish (w : World State) (choices c : jsval) :
  get_first choices = Ok c ->
  nullish c = true ->
  reply_of choices w = (Throw TypeError, w).
Proof.
  intros Hf H. unfold reply_of, bind, lift. rewrite Hf.
  destruct c; try discriminate H; reflexivity.
Qed.

(** With entries in [choices], [normalize] is its first branch. *)
Lemma normalize_entries (w : World State) (data choices : jsval) :
  get_prop data "choices" = Ok choices ->
  length_coerced choices = false ->
  has_entries choices = true ->
  normalize data w
  = (reply <- reply_of choices ;;
     if truthy reply then
       now <- date_now ;;
       setMessages
         (fun prev =>
            prev ++ [ChatMessage.make (JStr (num_to_string now +:+ "-a"))
                                      reply (JStr "assistant")])
     else ret tt) w.
Proof.
  intros Hc Hl He. unfold normalize.
  rewrite (bind_ok _ _ w w choices) by (unfold lift; rewrite Hc; reflexivity).
  rewrite (bind_ok _ _ w w true)
    by (rewrite non_empty_by_shape by exact Hl; rewrite He; reflexivity).
  reflexivity.
Qed.

(** Without entries in [choices], [normalize] is its [messages] branch or
    its format error. *)
Lemma normalize_no_entries (w : World State) (data choices msgs : jsval) :
  get_prop data "choices" = Ok choices ->
  length_coerced choices = false ->
  has_entries choices = false ->
  get_prop data "messages" = Ok msgs ->
  normalize data w
  = (if truthy msgs then
       arr <- as_array msgs ;;
       kept <- filterM not_user arr ;;
       assistantMessages <- mapM to_assistant kept ;;
       setMessages (fun prev => prev ++ assistantMessages)
     else setError (Some "Invalid response format")) w.
Proof.
  intros Hc Hl He Hm. unfold normalize.
  rewrite (bind_ok _ _ w w choices) by (unfold lift; rewrite Hc; reflexivity).
  rewrite (bind_ok _ _ w w false)
    by (rewrite non_empty_by_shape by exact Hl; rewrite He; reflexivity).
  rewrite (bind_ok _ _ w w msgs) by (unfold lift; rewrite Hm; reflexivity).
  reflexivity.
Qed.

Lemma normalize_listed (w : World State) (data choices : jsval)
      (l : list jsval) :
  get_prop data "choices" = Ok choices ->
  length_coerced choices = false ->
  has_entries choices = false ->
  get_prop data "messages" = Ok (JArr l) ->
  forallb (fun m => negb (nullish m)) l = true ->
  exists ams w',
    normalize data w = (Ok tt, w')
    /\ messages (st w') = messages (st w) ++ ams
    /\ error (st w') = error (st w)
    /\ List.map ChatMessage.text ams
       = List.map content_or_text (List.filter kept l)
    /\ List.map ChatMessage.role ams
       = List.map (fun m => prop m "role") (List.filter kept l).
Proof.
  intros Hc Hlc He Hm Hl.
  destruct (mapM_to_assistant (List.filter kept l)
              (filter_kept_not_nullish l) w) as (ams & w1 & H1 & Hs & Ht & Hr).
  exists ams. eexists.
  rewrite (normalize_no_entries w data choices (JArr l) Hc Hlc He Hm).
  cbn [truthy]. unfold bind, as_array, lift.
  rewrite (filterM_not_user w l Hl), H1.
  split; [reflexivity|].
  unfold with_st, with_messages. cbn [st messages error]. rewrite Hs.
  split; [reflexivity|]. split; [reflexivity|]. split; [exact Ht|].
  rewrite Hr. apply map_ext_in. intros m Hin.
  apply filter_In in Hin as [_ Hk]. unfold kept in Hk.
  apply andb_true_iff in Hk as [Hk _]. unfold or_else. rewrite Hk.
  reflexivity.
Qed.

(** What the [catch] clause of [sendMessage] can do to the overlay when
    the guarded statements leave it alone. *)
Lemma caught_error_cases (c : M State unit) (w : World State) :
  error (st (snd (c w))) = error (st w) ->
  let w' := snd (try_catch c (fun err => console_error err ;;
                                         setError (Some "Network error")) w) in
  error (st w') = error (st w) \/ error (st w') = Some "Network error".
Proof.
  intros H. unfold try_catch.
  destruct (c w) as [[u|e|y] w1]; cbn in *; auto.
Qed.

(** C2, as the code has it. A 2xx JSON reply is normalized in this order.
    When [data.choices && data.choices.length > 0] holds -- [choices] is a
    non-empty list or, in a malformed body, another value with a positive
    length -- the first entry alone decides and [messages] is not read: a
    truthy [message.content] becomes the text of one new assistant message;
    failing that, a truthy [delta.content] does; failing both, nothing is
    appended and no error is set; an entry that is [null] or missing makes
    the [catch] clause report [Network error]. In every other case --
    [choices] missing, falsy, an empty list, a number, an object without a
    positive [length] -- the [messages] field decides: a list of entries
    other than [null] contributes those with a truthy role other than
    [user], in order, with text [content || text || ''] and their own role;
    a missing or falsy [messages] sets the overlay to the format error and
    appends nothing. The format error is set in that last case and in no
    other. In particular the reply
    [{choices: [{message: {content: "hello"}}]}] appends exactly one message,
    of role [assistant] and text [hello]. (Objects whose [length] is itself
    a string, a list or an object are left aside.) *)
Theorem C2_reply_normalization_order (w : World State) :
  (forall res data choices msgs,
      json_ok res = true -> bodyJson res = Some data ->
      get_prop data "choices" = Ok choices ->
      get_prop data "messages" = Ok msgs ->
      length_coerced choices = false ->
      (* [choices] has entries: the first one decides *)
      (has_entries choices = true ->
         (forall c,
             get_first choices = Ok c -> nullish c = false ->
             (truthy (optional_content c "message") = true ->
                sendMessage_resume (Responded res) w
                = (Ok tt,
                   with_st (with_messages
                              (messages (st w)
                               ++ [assistant_message
                                     w (optional_content c "message")])
                              (st w))
                           (ticked w)))
             /\ (truthy (optional_content c "message") = false ->
                 truthy (optional_content c "delta") = true ->
                   sendMessage_resume (Responded res) w
                   = (Ok tt,
                      with_st (with_messages
                                 (messages (st w)
                                  ++ [assistant_message
                                        w (optional_content c "delta")])
                                 (st w))
                              (ticked w)))
             /\ (truthy (optional_content c "message") = false ->
                 truthy (optional_content c "delta") = false ->
                   sendMessage_resume (Responded res) w = (Ok tt, w)))
         /\ (forall c,
                get_first choices = Ok c -> nullish c = true ->
                sendMessage_resume (Responded res) w
                = (Ok tt,
                   with_st (with_error (Some "Network error") (st w))
                           (logged (Error TypeError) w)))
         (* ... and [messages] is not read *)
         /\ (forall res' data',
                json_ok res' = true -> bodyJson res' = Some data' ->
                get_prop data' "choices" = Ok choices ->
                sendMessage_resume (Responded res') w
                = sendMessage_resume (Responded res) w))
      (* [choices] has no entries: [messages] decides *)
      /\ (has_entries choices = false ->
            (forall l,
                msgs = JArr l ->
                forallb (fun m => negb (nullish m)) l = true ->
                exists ams w',
                  sendMessage_resume (Responded res) w = (Ok tt, w')
                  /\ messages (st w') = messages (st w) ++ ams
                  /\ error (st w') = error (st w)
                  /\ List.map ChatMessage.text ams
                     = List.map content_or_text (List.filter kept l)
                  /\ List.map ChatMessage.role ams
                     = List.map (fun m => prop m "role") (List.filter kept l)
                  /\ Forall (fun a => ChatMessage.role a <> JStr "user") ams)
            /\ (truthy msgs = false ->
                  sendMessage_resume (Responded res) w
                  = (Ok tt,
                     with_st (with_error (Some "Invalid response format")
                                         (st w))
                             w)))
      (* the format error: in that case only *)
      /\ (error (st w) = None ->
            (error (st (snd (sendMessage_resume (Responded res) w)))
             = Some "Invalid response format"
             <-> has_entries choices = false /\ truthy msgs = false)))
  /\ (forall raw,
        sendMessage_resume
          (Responded
             (json_reply
                (JObj [("choices",
                        JArr [JObj [("message",
                                     JObj [("content", JStr "hello")])]])])
                raw)) w
        = (Ok tt,
           with_st (with_messages
                      (messages (st w)
                       ++ [ChatMessage.make
                             (JStr (num_to_string (clock w (reads w)) +:+ "-a"))
                             (JStr "hello") (JStr "assistant")])
                      (st w))
                   (ticked w))).
Proof.
  split; [|intros raw; reflexivity].
  intros res data choices msgs Hj Hd Hc Hm Hlc.
  rewrite (sendMessage_json w res data Hj Hd).
  assert (Hformat : has_entries choices = false -> truthy msgs = false ->
                    try_catch (normalize data)
                      (fun err => console_error err ;;
                                  setError (Some "Network error")) w
                    = (Ok tt,
                       with_st (with_error (Some "Invalid response format")
                                           (st w)) w)).
  { intros He Hf. unfold try_catch.
    rewrite (normalize_no_entries w data choices msgs Hc Hlc He Hm), Hf.
    reflexivity. }
  split; [|split].
  - intros He. split; [|split].
    + intros c Hf Hn. unfold try_catch.
      rewrite (normalize_entries w data choices Hc Hlc He).
      rewrite (bind_ok _ _ w w _ (reply_of_first w choices c Hf Hn)).
      unfold or_else. split; [|split].
      * intros H1. rewrite H1, H1. reflexivity.
      * intros H1 H2. rewrite H1, H2, H2. reflexivity.
      * intros H1 H2. rewrite H1, H2. reflexivity.
    + intros c Hf Hn. unfold try_catch.
      rewrite (normalize_entries w data choices Hc Hlc He).
      unfold bind at 1. rewrite (reply_of_nullish w choices c Hf Hn).
      reflexivity.
    + intros res' data' Hj' Hd' Hc'.
      rewrite (sendMessage_json w res' data' Hj' Hd'). unfold try_catch.
      rewrite (normalize_entries w data choices Hc Hlc He).
      rewrite (normalize_entries w data' choices Hc' Hlc He).
      reflexivity.
  - intros He. split.
    + intros l El Hl. subst msgs.
      destruct (normalize_listed w data choices l Hc Hlc He Hm Hl)
        as (ams & w' & Hn & Hmsg & Herr & Ht & Hr).
      exists ams, w'. unfold try_catch. rewrite Hn.
      repeat (split; [assumption || reflexivity|]).
      apply List.Forall_map with (f := ChatMessage.role)
                                 (P := fun r => r <> JStr "user").
      rewrite Hr. apply List.Forall_map, List.Forall_forall.
      intros m Hin. apply filter_In in Hin as [_ Hk].
      apply kept_role_not_user, Hk.
    + intros Hf. exact (Hformat He Hf).
  - intros Hnone. split.
    + intros Hset.
      assert (Hquiet : error (st (snd (normalize data w))) = error (st w) ->
                       False).
      { intros Hq.
        destruct (caught_error_cases (normalize data) w Hq) as [H|H];
          rewrite Hset in H; [rewrite Hnone in H|]; discriminate H. }
      destruct (has_entries choices) eqn:He.
      * exfalso. apply Hquiet.
        rewrite (normalize_entries w data choices Hc Hlc He).
        match goal with
        | |- error (st (snd (?c w))) = _ =>
            assert (Hp : preserves (fun w => error (st w)) c) by steps
        end.
        apply Hp.
      * destruct (truthy msgs) eqn:Hf; [|auto].
        exfalso. apply Hquiet.
        rewrite (normalize_no_entries w data choices msgs Hc Hlc He Hm), Hf.
        match goal with
        | |- error (st (snd (?c w))) = _ =>
            assert (Hp : preserves (fun w => error (st w)) c) by steps
        end.
        apply Hp.
    + intros [He Hf]. rewrite (Hformat He Hf). reflexivity.
Qed.

Lemma C2_reply_normalization_order_witness :
  let w := world_at (mkState "http://host" "k" (Some "k") (JStr "m") [] ""
                             None) 1700000000000 in
  let streamed := JObj [("choices",
                         JArr [JObj [("delta",
                                      JObj [("content", JStr "par")])]])] in
  let listed := JObj [("choices", JNum 5);
                      ("messages",
                       JArr [JObj [("role", JStr "user");
                                   ("content", JStr "q")];
                             JObj [("role", JStr "assistant");
                                   ("content", JStr "a")]])] in
  let plain := JObj [("choices", JObj [("x", JNum 1)])] in
  (exists w', sendMessage_resume (Responded (json_reply streamed "")) w
              = (Ok tt, w')
              /\ List.map ChatMessage.text (messages (st w')) = [JStr "par"])
  /\ (exists w', sendMessage_resume (Responded (json_reply listed "")) w
                 = (Ok tt, w')
                 /\ List.map ChatMessage.text (messages (st w')) = [JStr "a"])
  /\ error (st (snd (sendMessage_resume (Responded (json_reply plain "")) w)))
     = Some "Invalid response format".
Proof.
  intros w streamed listed plain.
  destruct (C2_reply_normalization_order w) as [Hcases _].
  split; [|split].
  - destruct (Hcases (json_reply streamed "") streamed
                     (JArr [JObj [("delta", JObj [("content", JStr "par")])]])
                     JUndefined)
      as [Hfirst _];
      [reflexivity | reflexivity | reflexivity | reflexivity | reflexivity |].
    destruct (Hfirst eq_refl) as [Hc _].
    destruct (Hc (JObj [("delta", JObj [("content", JStr "par")])]))
      as (_ & Hdelta & _); [reflexivity | reflexivity |].
    eexists. split; [apply Hdelta; reflexivity | reflexivity].
  - destruct (Hcases (json_reply listed "") listed (JNum 5)
                     (JArr [JObj [("role", JStr "user"); ("content", JStr "q")];
                            JObj [("role", JStr "assistant");
                                  ("content", JStr "a")]]))
      as (_ & Hlist & _);
      [reflexivity | reflexivity | reflexivity | reflexivity | reflexivity |].
    destruct (Hlist eq_refl) as [Harr _].
    destruct (Harr _ eq_refl eq_refl)
      as (ams & w' & Hr & Hmsg & _ & Ht & _).
    exists w'. split; [exact Hr|]. rewrite Hmsg. exact Ht.
  - destruct (Hcases (json_reply plain "") plain (JObj [("x", JNum 1)])
                     JUndefined)
      as (_ & _ & Honly);
      [reflexivity | reflexivity | reflexivity | reflexivity | reflexivity |].
    apply (Honly eq_refl). split; reflexivity.
Defined.

End Normalization.

Section Quiet.
Import JsString Js Runtime Reading.
Local Open Scope js_scope.

(** Once a fetch has settled, no handler of any variant sends another
    request: there is no retry, whatever the outcome and whatever the body
    of the response. *)
Theorem settling_sends_no_request (o : FetchOutcome) :
  preserves network (ModelsClient.setup_resume o)
  /\ preserves network (ModelsClient.sendMessage_resume o)
  /\ preserves network (ChatsClient.fetchHistory_resume o)
  /\ preserves network (ChatsClient.sendMessage_resume o)
  /\ preserves network (LoginClient.fetchHistory_resume o)
  /\ preserves network (LoginClient.sendMessage_resume o)
  /\ preserves network (LoginForm.login_resume o).
Proof.
  repeat split; steps.
Qed.

(** [localStorage] is written by [connect] alone: the mount effect, the
    discovery and history effects, [sendMessage] and [login] leave it as it
    is, before and after their fetch, whatever the server answers. *)
Theorem only_connect_writes_storage (o : FetchOutcome) :
  preserves localStorage ModelsClient.mount
  /\ preserves localStorage ModelsClient.setup_start
  /\ preserves localStorage (ModelsClient.setup_resume o)
  /\ preserves localStorage ModelsClient.sendMessage_start
  /\ preserves localStorage (ModelsClient.sendMessage_resume o)
  /\ preserves localStorage ChatsClient.mount
  /\ preserves localStorage ChatsClient.fetchHistory_start
  /\ preserves localStorage (ChatsClient.fetchHistory_resume o)
  /\ preserves localStorage ChatsClient.sendMessage_start
  /\ preserves localStorage (ChatsClient.sendMessage_resume o)
  /\ preserves localStorage LoginClient.fetchHistory_start
  /\ preserves localStorage (LoginClient.fetchHistory_resume o)
  /\ preserves localStorage LoginClient.sendMessage_start
  /\ preserves localStorage (LoginClient.sendMessage_resume o)
  /\ preserves localStorage LoginForm.login_start
  /\ preserves localStorage (LoginForm.login_resume o).
Proof.
  repeat split; steps.
Qed.

End Quiet.

(* ===================================================================== *)
(** ** The conversation only grows                                         *)
(* ===================================================================== *)

Section Growth.
Import JsString Js Runtime Reading Observing ModelsClient.
Local Open Scope js_scope.

Lemma appends_of_preserves {A} (c : M State A) :
  preserves (fun w => messages (st w)) c -> appends c.
Proof.
  intros H w. exists []. rewrite (H w). symmetry. apply app_nil_r.
Qed.

Lemma appends_bind {A B} (c : M State A) (k : A -> M State B) :
  appends c -> (forall a, appends (k a)) -> appends (bind c k).
Proof.
  intros Hc Hk w. unfold bind. destruct (Hc w) as [x Hx].
  destruct (c w) as [[a|e|y] w1]; simpl in *.
  - destruct (Hk a w1) as [x' Hx']. exists (x ++ x').
    rewrite Hx', Hx. symmetry. apply app_assoc.
  - exists x. exact Hx.
  - exists x. exact Hx.
Qed.

Lemma appends_try_catch {A} (c : M State A) (h : exn -> M State A) :
  appends c -> (forall e, appends (h e)) -> appends (try_catch c h).
Proof.
  intros Hc Hh w. unfold try_catch. destruct (Hc w) as [x Hx].
  destruct (c w) as [[a|e|y] w1]; simpl in *.
  - exists x. exact Hx.
  - destruct (Hh e w1) as [x' Hx']. exists (x ++ x').
    rewrite Hx', Hx. symmetry. apply app_assoc.
  - exists x. exact Hx.
Qed.

Lemma appends_if {A} (b : bool) (c1 c2 : M State A) :
  appends c1 -> appends c2 -> appends (if b then c1 else c2).
Proof. destruct b; auto. Qed.

Lemma appends_setMessages_app (more : list ChatMessage.t) :
  appends (setMessages (fun prev => prev ++ more)).
Proof. intros w. exists more. reflexivity. Qed.

Lemma sendMessage_resume_appends (o : FetchOutcome) :
  appends (sendMessage_resume o).
Proof.
  unfold sendMessage_resume, normalize.
  repeat first
    [ apply appends_setMessages_app
    | progress cbv zeta
    | match goal with
      | |- appends (bind _ _) => apply appends_bind; [|intro]
      | |- appends (try_catch _ _) => apply appends_try_catch; [|intro]
      | |- appends (if _ then _ else _) => apply appends_if
      end
    | (apply appends_of_preserves; solve [steps]) ].
Qed.

Lemma sendMessage_start_appends : appends sendMessage_start.
Proof.
  unfold sendMessage_start.
  repeat first
    [ apply appends_setMessages_app
    | progress cbv zeta
    | match goal with
      | |- appends (bind _ _) => apply appends_bind; [|intro]
      | |- appends (if _ then _ else _) => apply appends_if
      end
    | (apply appends_of_preserves; solve [steps]) ].
Qed.

(** Apart from the reset of the discovery effect, every handler of the
    chat-completions client keeps the conversation it finds as a prefix of
    the one it leaves: starting a send, settling it -- with any outcome and
    any response body, well-formed or not -- settling the discovery,
    connecting and mounting never remove, reorder or rewrite a message. *)
Theorem conversation_only_grows (o : FetchOutcome) :
  appends sendMessage_start
  /\ appends (sendMessage_resume o)
  /\ appends (sendMessage o)
  /\ appends (setup_resume o)
  /\ appends connect
  /\ appends mount.
Proof.
  split; [exact sendMessage_start_appends|].
  split; [exact (sendMessage_resume_appends o)|].
  split.
  { unfold sendMessage. apply appends_bind; [exact sendMessage_start_appends|].
    intros [x|req]; [|exact (sendMessage_resume_appends o)].
    apply appends_of_preserves. intros w. reflexivity. }
  split; [apply appends_of_preserves; steps|].
  split; apply appends_of_preserves.
  - unfold connect. steps.
  - steps.
Qed.

End Growth.

(* ===================================================================== *)
(** ** Outcome of the discovery effect                                     *)
(* ===================================================================== *)

Section DiscoveryOutcome.
Import JsString Js Runtime Reading Observing ModelsClient.
Local Open Scope js_scope.

Lemma fetchFirstModel_resume_keeps_state (o : FetchOutcome) :
  preserves st (fetchFirstModel_resume o).
Proof. steps. Qed.

Lemma fetchFirstModel_resume_never_throws (o : FetchOutcome) (w : World State) :
  forall e, fst (fetchFirstModel_resume o w) <> Throw e.
Proof.
  intros e. unfold fetchFirstModel_resume, try_catch.
  match goal with
  | |- context [match ?c w with _ => _ end] => destruct (c w) as [[a|e'|y] w1]
  end; simpl; discriminate.
Qed.

(** A run of the discovery effect that starts with a token and completes
    ends in one of two states, whatever the server did: a model is selected
    and no error is shown (the chat is rendered), or no model is selected
    and the overlay reads [Failed to retrieve models] (the loading notice
    stays). Either way the conversation is empty and exactly one request
    was sent, to [/models]. *)
Theorem discovery_ends_ready_or_failed
  (w w' : World State) (o : FetchOutcome) :
  no_token (token (st w)) = false ->
  setup o w = (Ok tt, w') ->
  messages (st w') = []
  /\ (exists req, network w' = network w ++ [req]
                  /\ url req = getApiBase (st w) +:+ "/models")
  /\ ((truthy (model (st w')) = true
       /\ error (st w') = None
       /\ ModelsApp.screen (st w') = ModelsApp.ChatScreen)
      \/ (model (st w') = JNull
          /\ error (st w') = Some "Failed to retrieve models"
          /\ ModelsApp.screen (st w') = ModelsApp.LoadingModels
          /\ ModelsApp.shown_error (st w')
             = Some "Failed to retrieve models")).
Proof.
  intros Ht Hrun.
  destruct (setup_start_clears w Ht) as (req & Hs & Hu).
  unfold setup, bind in Hrun. rewrite Hs in Hrun.
  unfold setup_resume, bind in Hrun.
  match type of Hrun with
  | context [fetchFirstModel_resume o ?mid] =>
      pose proof (fetchFirstModel_resume_keeps_state o mid) as Hst;
      destruct (fetchFirstModel_resume o mid) as [[mdl|e|y] w1] eqn:Hf
  end; [|discriminate Hrun|discriminate Hrun].
  simpl in Hst. unfold setup_finish in Hrun.
  assert (Hn : network w1 = network w ++ [req]).
  { assert (Hk : preserves network (fetchFirstModel_resume o)) by steps.
    specialize (Hk (sent req (with_st (with_messages []
                                         (with_error None (st w))) w))).
    rewrite Hf in Hk. exact Hk. }
  assert (Htok : token (st w1) = token (st w)) by (rewrite Hst; reflexivity).
  destruct (truthy mdl) eqn:Hm.
  - injection Hrun as <-. unfold setModel, modify_st, with_st, with_model.
    cbn [st messages model error network ModelsApp.screen token].
    rewrite Hst. cbn. split; [reflexivity|].
    split; [exists req; split; [exact Hn | exact Hu]|].
    left. unfold ModelsApp.screen. cbn. rewrite Ht, Hm. auto.
  - unfold bind, setModel, setError, modify_st in Hrun.
    injection Hrun as <-. unfold with_st, with_model, with_error.
    cbn [st messages model error network]. rewrite Hst. cbn.
    split; [reflexivity|].
    split; [exists req; split; [exact Hn | exact Hu]|].
    right. unfold ModelsApp.screen, ModelsApp.shown_error. cbn.
    rewrite Ht. auto.
Qed.

Lemma discovery_ends_ready_or_failed_witness :
  let w := world_at (mkState "http://host/" "k" (Some "k") JNull
                             [ChatMessage.make (JStr "1") (JStr "old")
                                               (JStr "user")] "" None) 0 in
  let listing := JObj [("models", JArr [JObj [("id", JStr "m-1")]])] in
  exists w',
    setup (Responded (json_reply listing "")) w = (Ok tt, w')
    /\ messages (st w') = []
    /\ model (st w') = JStr "m-1"
    /\ ModelsApp.screen (st w') = ModelsApp.ChatScreen.
Proof.
  intros w listing. eexists. split; [reflexivity|].
  destruct (discovery_ends_ready_or_failed
              w _ (Responded (json_reply listing "")) eq_refl eq_refl)
    as (Hm & _ & [(_ & _ & Hs)|(Hnull & _)]).
  - split; [exact Hm|]. split; [reflexivity | exact Hs].
  - discriminate Hnull.
Defined.

End DiscoveryOutcome.

(* ===================================================================== *)
(** ** Starting a send                                                     *)
(* ===================================================================== *)

Section SendFlow.
Import JsString Js Runtime Reading Observing ModelsClient.
Local Open Scope js_scope.

Lemma startsWith_app (a b : string) : startsWith (a +:+ b) a = true.
Proof.
  induction a as [|c r IH]; [destruct b; reflexivity|].
  simpl. rewrite Ascii.eqb_refl. exact IH.
Qed.

(** The request of a chat-completions send that starts in [w]. *)
Lemma sendMessage_start_request (w : World State) :
  no_token (token (st w)) = false ->
  truthy (model (st w)) = true ->
  is_empty (trim (currentMsg (st w))) = false ->
  sendMessage_start w
  = (Ok (AwaitFetch
           {| url := getApiBase (st w) +:+ "/chat/completions";
              method := "POST";
              headers := [("Content-Type", "application/json");
                          ("Authorization", bearer (st w))];
              body := Some (JObj [("model", model (st w));
                                  ("messages",
                                   JArr (List.map wire
                                           (messages (st w)
                                            ++ [user_message w])))]) |}),
     sent {| url := getApiBase (st w) +:+ "/chat/completions";
             method := "POST";
             headers := [("Content-Type", "application/json");
                         ("Authorization", bearer (st w))];
             body := Some (JObj [("model", model (st w));
                                 ("messages",
                                  JArr (List.map wire
                                          (messages (st w)
                                           ++ [user_message w])))]) |}
          (with_st (with_currentMsg ""
                      (with_messages (messages (st w) ++ [user_message w])
                                     (st w)))
                   (ticked w))).
Proof.
  intros Ht Hm He.
  unfold sendMessage_start, bind, read_st. rewrite Ht, Hm, He. reflexivity.
Qed.

Lemma sendMessage_start_returns (w : World State) :
  no_token (token (st w)) = true
  \/ truthy (model (st w)) = false
  \/ is_empty (trim (currentMsg (st w))) = true ->
  sendMessage_start w = (Ok (Returned tt), w).
Proof.
  intros H. unfold sendMessage_start, bind, read_st, ret.
  destruct (no_token (token (st w))); [reflexivity|].
  destruct (truthy (model (st w))); [|reflexivity].
  destruct H as [H|[H|H]]; try discriminate H.
  cbn. rewrite H. reflexivity.
Qed.

(** [sendMessage] sends exactly when the chat is on screen and the input is
    not blank; on the connection form and on the loading notice it returns
    at once and changes nothing, whatever the input holds. *)
Theorem send_guard_matches_chat_screen (w : World State) :
  (ModelsApp.screen (st w) = ModelsApp.ChatScreen
   /\ is_empty (trim (currentMsg (st w))) = false ->
     issues sendMessage_start w
            (fun req => url req = getApiBase (st w) +:+ "/chat/completions"
                        /\ method req = "POST"))
  /\ (ModelsApp.screen (st w) <> ModelsApp.ChatScreen
      \/ is_empty (trim (currentMsg (st w))) = true ->
        inert sendMessage_start w).
Proof.
  unfold ModelsApp.screen. split.
  - intros [Hs He].
    destruct (no_token (token (st w))) eqn:Ht; [discriminate Hs|].
    destruct (truthy (model (st w))) eqn:Hm; [|discriminate Hs].
    eexists. rewrite (sendMessage_start_request w Ht Hm He).
    repeat split; reflexivity.
  - intros H. exists tt. apply sendMessage_start_returns.
    destruct (no_token (token (st w))); [auto|].
    destruct (truthy (model (st w))); [|auto].
    destruct H as [H|H]; [contradiction H; reflexivity | auto].
Qed.

Lemma send_guard_matches_chat_screen_witness :
  let loading := world_at (mkState "http://host" "k" (Some "k") JNull [] "hi"
                                   None) 0 in
  inert sendMessage_start loading.
Proof.
  intros loading.
  destruct (send_guard_matches_chat_screen loading) as [_ H].
  apply H. left. discriminate.
Defined.

(** A send that left clears the input box, so that sending again before
    anything is typed -- a second click, a repeated Enter -- returns at once:
    no second user message, no second request. *)
Theorem repeated_send_is_single (w w1 : World State) (req : Request) :
  sendMessage_start w = (Ok (AwaitFetch req), w1) ->
  currentMsg (st w1) = ""
  /\ messages (st w1) = messages (st w) ++ [user_message w]
  /\ sendMessage_start w1 = (Ok (Returned tt), w1).
Proof.
  intros H.
  destruct (no_token (token (st w))) eqn:Ht;
    [rewrite sendMessage_start_returns in H by auto; discriminate H|].
  destruct (truthy (model (st w))) eqn:Hm;
    [|rewrite sendMessage_start_returns in H by auto; discriminate H].
  destruct (is_empty (trim (currentMsg (st w)))) eqn:He;
    [rewrite sendMessage_start_returns in H by auto; discriminate H|].
  rewrite (sendMessage_start_request w Ht Hm He) in H.
  injection H as _ <-.
  split; [reflexivity|]. split; [reflexivity|].
  apply sendMessage_start_returns. right. right. reflexivity.
Qed.

Lemma repeated_send_is_single_witness :
  let w := world_at (mkState "http://host" "k" (Some "k") (JStr "m") [] "hi"
                             None) 5 in
  let w1 := snd (sendMessage_start w) in
  messages (st w1)
  = [ChatMessage.make (JStr "5") (JStr "hi") (JStr "user")]
  /\ sendMessage_start w1 = (Ok (Returned tt), w1).
Proof.
  intros w w1.
  destruct (repeated_send_is_single
              w w1
              {| url := "http://host/api/chat/completions";
                 method := "POST";
                 headers := [("Content-Type", "application/json");
                             ("Authorization", "Bearer k")];
                 body := Some (JObj [("model", JStr "m");
                                     ("messages",
                                      JArr [JObj [("role", JStr "user");
                                                  ("content", JStr "hi")]])]) |}
              eq_refl) as (_ & Hm & Hagain).
  split; [rewrite Hm; reflexivity | exact Hagain].
Defined.

(** The reply of one exchange is part of the next request: after a send
    that was answered with a [choices] reply, the next send posts the
    earlier conversation, then the first user message, then the assistant's
    reply, then the new user message, in this order, as [{role, content}]
    pairs, for the same model. *)
Theorem next_request_carries_the_reply
  (w w1 : World State) (res : Response) (data c : jsval) (rest : list jsval)
  (typed : string) :
  no_token (token (st w)) = false ->
  truthy (model (st w)) = true ->
  is_empty (trim (currentMsg (st w))) = false ->
  json_ok res = true ->
  bodyJson res = Some data ->
  get_prop data "choices" = Ok (JArr (c :: rest)) ->
  nullish c = false ->
  truthy (optional_content c "message") = true ->
  sendMessage (Responded res) w = (Ok tt, w1) ->
  is_empty (trim typed) = false ->
  exists req,
    fst (sendMessage_start (with_st (with_currentMsg typed (st w1)) w1))
    = Ok (AwaitFetch req)
    /\ body req
       = Some (JObj
                 [("model", model (st w));
                  ("messages",
                   JArr (List.map wire (messages (st w))
                         ++ [JObj [("role", JStr "user");
                                   ("content",
                                    JStr (trim (currentMsg (st w))))];
                             JObj [("role", JStr "assistant");
                                   ("content", optional_content c "message")];
                             JObj [("role", JStr "user");
                                   ("content", JStr (trim typed))]]))]).
Proof.
  intros Ht Hm He Hj Hd Hc Hn Hreply Hrun Htyped.
  unfold sendMessage, bind in Hrun.
  rewrite (sendMessage_start_request w Ht Hm He) in Hrun.
  rewrite (sendMessage_json _ res data Hj Hd) in Hrun.
  unfold try_catch in Hrun.
  rewrite (normalize_choices _ data c rest Hc Hn) in Hrun.
  unfold or_else in Hrun. rewrite Hreply, Hreply in Hrun.
  injection Hrun as <-.
  eexists.
  rewrite sendMessage_start_request; [|exact Ht | exact Hm | exact Htyped].
  split; [reflexivity|].
  cbn [body st with_st with_currentMsg with_messages messages model
       currentMsg ticked sent].
  do 3 f_equal. f_equal. f_equal.
  rewrite <- !app_assoc, !map_app. reflexivity.
Qed.

Lemma next_request_carries_the_reply_witness :
  let w := world_at (mkState "http://host" "k" (Some "k") (JStr "m") [] "hi"
                             None) 5 in
  let data := JObj [("choices",
                     JArr [JObj [("message",
                                  JObj [("content", JStr "hello")])]])] in
  exists w1 req,
    sendMessage (Responded (json_reply data "")) w = (Ok tt, w1)
    /\ fst (sendMessage_start (with_st (with_currentMsg "more" (st w1)) w1))
       = Ok (AwaitFetch req)
    /\ body req
       = Some (JObj
                 [("model", JStr "m");
                  ("messages",
                   JArr [JObj [("role", JStr "user"); ("content", JStr "hi")];
                         JObj [("role", JStr "assistant");
                               ("content", JStr "hello")];
                         JObj [("role", JStr "user");
                               ("content", JStr "more")]])]).
Proof.
  intros w data. eexists.
  destruct (next_request_carries_the_reply
              w _ (json_reply data "") data
              (JObj [("message", JObj [("content", JStr "hello")])]) []
              "more" eq_refl eq_refl eq_refl eq_refl eq_refl eq_refl eq_refl
              eq_refl eq_refl eq_refl) as (req & Hreq & Hbody).
  exists req. split; [reflexivity|]. split; [exact Hreq | exact Hbody].
Defined.

End SendFlow.

(* ===================================================================== *)
(** ** Requests and the token                                              *)
(* ===================================================================== *)

Section Authorization.
Import JsString Js Runtime Reading Observing.
Local Open Scope js_scope.

Lemma chats_send_start_request (w : World ChatsClient.State)
      (prev : list jsval) :
  no_token (ChatsClient.token (st w)) = false ->
  is_empty (trim (ChatsClient.currentMsg (st w))) = false ->
  ChatsClient.messages (st w) = JArr prev ->
  exists req,
    ChatsClient.sendMessage_start w
    = (Ok (AwaitFetch req),
       sent req
            (with_st
               (ChatsClient.with_currentMsg ""
                  (ChatsClient.with_messages
                     (JArr (prev
                            ++ [JObj [("id", JStr (num_to_string
                                                     (clock w (reads w))));
                                      ("text",
                                       JStr (trim (ChatsClient.currentMsg
                                                     (st w))));
                                      ("role", JStr "user")]]))
                     (st w)))
               (ticked w)))
    /\ url req = ChatsClient.getApiBase (st w) +:+ "/message"
    /\ headers req = [("Content-Type", "application/json");
                      ("Authorization", ChatsClient.bearer (st w))]
    /\ body req
       = Some (JObj [("content",
                      JStr (trim (ChatsClient.currentMsg (st w))))]).
Proof.
  intros Ht He Hm. eexists.
  unfold ChatsClient.sendMessage_start, bind, read_st. rewrite Ht, He.
  unfold date_now, ChatsClient.appendMessages, modify_st_with.
  cbn [st ticked]. rewrite Hm. cbn. repeat split; reflexivity.
Qed.

Lemma login_send_start_request (w : World LoginClient.State)
      (prev : list jsval) :
  no_token (LoginClient.token (st w)) = false ->
  is_empty (trim (LoginClient.currentMsg (st w))) = false ->
  LoginClient.messages (st w) = JArr prev ->
  exists req,
    LoginClient.sendMessage_start w
    = (Ok (AwaitFetch req),
       sent req
            (with_st
               (LoginClient.with_currentMsg ""
                  (LoginClient.with_messages
                     (JArr (prev
                            ++ [JObj [("id", JStr (num_to_string
                                                     (clock w (reads w))));
                                      ("text",
                                       JStr (trim (LoginClient.currentMsg
                                                     (st w))));
                                      ("role", JStr "user")]]))
                     (st w)))
               (ticked w)))
    /\ url req = LoginClient.apiBase (st w) +:+ "/message"
    /\ headers req = [("Content-Type", "application/json");
                      ("Authorization", LoginClient.bearer (st w))]
    /\ body req
       = Some (JObj [("content",
                      JStr (trim (LoginClient.currentMsg (st w))))]).
Proof.
  intros Ht He Hm. eexists.
  unfold LoginClient.sendMessage_start, bind, read_st. rewrite Ht, He.
  unfold date_now, LoginClient.appendMessages, modify_st_with.
  cbn [st ticked]. rewrite Hm. cbn. repeat split; reflexivity.
Qed.

Lemma token_present (t : option string) :
  no_token t = false -> exists k, t = Some k /\ is_empty k = false.
Proof.
  destruct t as [k|]; [|discriminate]. intros H. exists k. auto.
Qed.

(** Every start handler fetches exactly when its guard holds, and then
    sends one request, with the header [Authorization: Bearer <token>], to
    a URL under the variant's API base; otherwise it returns at once and
    changes nothing. The guard of the discovery effect and of the two
    history effects is the token; the guard of [sendMessage] is the token
    (and, in the chat-completions client, the model) together with an input
    that is not blank after trimming. (For the two [/message] senders: when
    the conversation cell holds a list.) *)
Theorem requests_carry_the_token
  (w1 : World ModelsClient.State) (w2 : World ChatsClient.State)
  (w3 : World LoginClient.State) :
  fetches_when (fun s => negb (no_token (ModelsClient.token s)))
               ModelsClient.token ModelsClient.getApiBase
               ModelsClient.setup_start w1
  /\ fetches_when (fun s => negb (no_token (ModelsClient.token s))
                            && truthy (ModelsClient.model s)
                            && negb (is_empty
                                       (trim (ModelsClient.currentMsg s))))
                  ModelsClient.token ModelsClient.getApiBase
                  ModelsClient.sendMessage_start w1
  /\ fetches_when (fun s => negb (no_token (ChatsClient.token s)))
                  ChatsClient.token ChatsClient.getApiBase
                  ChatsClient.fetchHistory_start w2
  /\ fetches_when (fun s => negb (no_token (LoginClient.token s)))
                  LoginClient.token LoginClient.apiBase
                  LoginClient.fetchHistory_start w3
  /\ (forall prev, ChatsClient.messages (st w2) = JArr prev ->
        fetches_when (fun s => negb (no_token (ChatsClient.token s))
                               && negb (is_empty
                                          (trim (ChatsClient.currentMsg s))))
                     ChatsClient.token ChatsClient.getApiBase
                     ChatsClient.sendMessage_start w2)
  /\ (forall prev, LoginClient.messages (st w3) = JArr prev ->
        fetches_when (fun s => negb (no_token (LoginClient.token s))
                               && negb (is_empty
                                          (trim (LoginClient.currentMsg s))))
                     LoginClient.token LoginClient.apiBase
                     LoginClient.sendMessage_start w3).
Proof.
  unfold fetches_when.
  split; [|split; [|split; [|split; [|split]]]].
  - split.
    + intros H. apply negb_false_iff in H. exists tt.
      unfold ModelsClient.setup_start, bind, read_st, ret. rewrite H.
      reflexivity.
    + intros H. apply negb_true_iff in H.
      destruct (token_present _ H) as (t & Ht & He).
      exists t. split; [exact Ht|]. split; [exact He|].
      destruct (setup_start_clears w1 H) as (req & Hs & Hu).
      exists req. rewrite Hs. split; [reflexivity|]. split; [reflexivity|].
      revert Hs. unfold ModelsClient.setup_start,
        ModelsClient.fetchFirstModel_start, bind, read_st.
      rewrite H. cbn. rewrite H. cbn. intros Hs. injection Hs as <-.
      split.
      * left. unfold ModelsClient.bearer. cbn. rewrite Ht. reflexivity.
      * apply startsWith_app.
  - split.
    + intros H. exists tt. apply sendMessage_start_returns.
      destruct (no_token (ModelsClient.token (st w1))); [auto|].
      destruct (truthy (ModelsClient.model (st w1))); [|auto].
      destruct (is_empty (trim (ModelsClient.currentMsg (st w1))));
        [auto | discriminate H].
    + intros H. apply andb_true_iff in H as [H Hb].
      apply andb_true_iff in H as [Hn Hm].
      apply negb_true_iff in Hn. apply negb_true_iff in Hb.
      destruct (token_present _ Hn) as (t & Ht & He).
      exists t. split; [exact Ht|]. split; [exact He|].
      eexists. rewrite (sendMessage_start_request w1 Hn Hm Hb).
      split; [reflexivity|]. split; [reflexivity|]. split.
      * right. left. unfold ModelsClient.bearer. rewrite Ht. reflexivity.
      * apply startsWith_app.
  - split.
    + intros H. apply negb_false_iff in H. exists tt.
      unfold ChatsClient.fetchHistory_start, bind, read_st, ret. rewrite H.
      reflexivity.
    + intros H. apply negb_true_iff in H.
      destruct (token_present _ H) as (t & Ht & He).
      exists t. split; [exact Ht|]. split; [exact He|].
      eexists.
      unfold ChatsClient.fetchHistory_start, bind, read_st. rewrite H.
      split; [reflexivity|]. split; [reflexivity|]. split.
      * left. unfold ChatsClient.bearer. cbn. rewrite Ht. reflexivity.
      * apply startsWith_app.
  - split.
    + intros H. apply negb_false_iff in H. exists tt.
      unfold LoginClient.fetchHistory_start, bind, read_st, ret. rewrite H.
      reflexivity.
    + intros H. apply negb_true_iff in H.
      destruct (token_present _ H) as (t & Ht & He).
      exists t. split; [exact Ht|]. split; [exact He|].
      eexists.
      unfold LoginClient.fetchHistory_start, bind, read_st. rewrite H.
      split; [reflexivity|]. split; [reflexivity|]. split.
      * left. unfold LoginClient.bearer. cbn. rewrite Ht. reflexivity.
      * apply startsWith_app.
  - intros prev Hp. split.
    + intros H. exists tt.
      unfold ChatsClient.sendMessage_start, bind, read_st, ret.
      destruct (no_token (ChatsClient.token (st w2))); [reflexivity|].
      destruct (is_empty (trim (ChatsClient.currentMsg (st w2))));
        [reflexivity | discriminate H].
    + intros H. apply andb_true_iff in H as [Hn Hb].
      apply negb_true_iff in Hn. apply negb_true_iff in Hb.
      destruct (token_present _ Hn) as (t & Ht & He).
      exists t. split; [exact Ht|]. split; [exact He|].
      destruct (chats_send_start_request w2 prev Hn Hb Hp)
        as (req & Hs & Hu & Hh & _).
      exists req. rewrite Hs. split; [reflexivity|]. split; [reflexivity|].
      split.
      * unfold authorized. rewrite Hh. right. left.
        unfold ChatsClient.bearer. rewrite Ht. reflexivity.
      * rewrite Hu. apply startsWith_app.
  - intros prev Hp. split.
    + intros H. exists tt.
      unfold LoginClient.sendMessage_start, bind, read_st, ret.
      destruct (no_token (LoginClient.token (st w3))); [reflexivity|].
      destruct (is_empty (trim (LoginClient.currentMsg (st w3))));
        [reflexivity | discriminate H].
    + intros H. apply andb_true_iff in H as [Hn Hb].
      apply negb_true_iff in Hn. apply negb_true_iff in Hb.
      destruct (token_present _ Hn) as (t & Ht & He).
      exists t. split; [exact Ht|]. split; [exact He|].
      destruct (login_send_start_request w3 prev Hn Hb Hp)
        as (req & Hs & Hu & Hh & _).
      exists req. rewrite Hs. split; [reflexivity|]. split; [reflexivity|].
      split.
      * unfold authorized. rewrite Hh. right. left.
        unfold LoginClient.bearer. rewrite Ht. reflexivity.
      * rewrite Hu. apply startsWith_app.
Qed.

Lemma requests_carry_the_token_witness :
  let w1 := world_at (ModelsClient.mkState "http://host" "k" (Some "k")
                                           (JStr "m") [] "hi" None) 0 in
  let w2 := world_at (ChatsClient.mkState "http://host" "k" (Some "k")
                                          (JArr []) "hi" None) 0 in
  let w3 := world_at (LoginClient.mkState "http://host" "u" "p" None
                                          (JArr []) "hi" None) 0 in
  (exists t,
      ChatsClient.token (st w2) = Some t
      /\ is_empty t = false
      /\ issues ChatsClient.sendMessage_start w2
                (fun req => authorized t req
                            /\ startsWith (url req) "http://host/api" = true))
  /\ inert LoginClient.sendMessage_start w3.
Proof.
  intros w1 w2 w3.
  destruct (requests_carry_the_token w1 w2 w3)
    as (_ & _ & _ & _ & Hchats & Hlogin).
  split.
  - destruct (Hchats [] eq_refl) as [_ H]. exact (H eq_refl).
  - destruct (Hlogin [] eq_refl) as [H _]. apply H. reflexivity.
Defined.

End Authorization.

(* ===================================================================== *)
(** ** Replies of the [/message] endpoint                                  *)
(* ===================================================================== *)

Section MessageReplies.
Import JsString Js Runtime Reading Observing.
Local Open Scope js_scope.

Lemma chats_to_assistant (w : World ChatsClient.State) (m : jsval) :
  nullish m = false ->
  exists a w',
    ChatsClient.to_assistant m w = (Ok a, w')
    /\ st w' = st w /\ console w' = console w /\ network w' = network w
    /\ delivered_as m a.
Proof.
  intros H.
  unfold ChatsClient.to_assistant, bind, lift, delivered_as, text_or_content.
  repeat rewrite (get_prop_not_nullish m _ H). unfold or_else.
  destruct (truthy (prop m "id")) eqn:Hid;
    destruct (truthy (prop m "text")) eqn:Htx; cbn;
    rewrite ?(get_prop_not_nullish m _ H); cbn;
    do 2 eexists;
    (split; [reflexivity|]); (split; [reflexivity|]);
    (split; [reflexivity|]); (split; [reflexivity|]);
    eexists; (split; [reflexivity|]); intros E; try reflexivity;
    discriminate E.
Qed.

Lemma chats_mapM_to_assistant (l : list jsval) :
  forallb (fun m => negb (nullish m)) l = true ->
  forall w : World ChatsClient.State,
  exists ams w',
    mapM ChatsClient.to_assistant l w = (Ok ams, w')
    /\ st w' = st w /\ console w' = console w /\ network w' = network w
    /\ Forall2 delivered_as l ams.
Proof.
  induction l as [|m rest IH]; intros H w.
  - exists [], w. repeat split; constructor.
  - cbn [forallb] in H. apply andb_true_iff in H as [Hm Hrest].
    apply negb_true_iff in Hm.
    destruct (chats_to_assistant w m Hm) as (a & w1 & H1 & Hs1 & Hc1 & Hn1 & Hd).
    destruct (IH Hrest w1) as (ams & w2 & H2 & Hs2 & Hc2 & Hn2 & Hall).
    exists (a :: ams), w2. cbn [mapM]. unfold bind. rewrite H1, H2.
    split; [reflexivity|].
    repeat split; try congruence. constructor; assumption.
Qed.

Lemma login_to_assistant (w : World LoginClient.State) (m : jsval) :
  nullish m = false ->
  exists a w',
    LoginClient.to_assistant m w = (Ok a, w')
    /\ st w' = st w /\ console w' = console w /\ network w' = network w
    /\ delivered_as m a.
Proof.
  intros H.
  unfold LoginClient.to_assistant, bind, lift, delivered_as, text_or_content.
  repeat rewrite (get_prop_not_nullish m _ H). unfold or_else.
  destruct (truthy (prop m "id")) eqn:Hid;
    destruct (truthy (prop m "text")) eqn:Htx; cbn;
    rewrite ?(get_prop_not_nullish m _ H); cbn;
    do 2 eexists;
    (split; [reflexivity|]); (split; [reflexivity|]);
    (split; [reflexivity|]); (split; [reflexivity|]);
    eexists; (split; [reflexivity|]); intros E; try reflexivity;
    discriminate E.
Qed.

Lemma login_mapM_to_assistant (l : list jsval) :
  forallb (fun m => negb (nullish m)) l = true ->
  forall w : World LoginClient.State,
  exists ams w',
    mapM LoginClient.to_assistant l w = (Ok ams, w')
    /\ st w' = st w /\ console w' = console w /\ network w' = network w
    /\ Forall2 delivered_as l ams.
Proof.
  induction l as [|m rest IH]; intros H w.
  - exists [], w. repeat split; constructor.
  - cbn [forallb] in H. apply andb_true_iff in H as [Hm Hrest].
    apply negb_true_iff in Hm.
    destruct (login_to_assistant w m Hm) as (a & w1 & H1 & Hs1 & Hc1 & Hn1 & Hd).
    destruct (IH Hrest w1) as (ams & w2 & H2 & Hs2 & Hc2 & Hn2 & Hall).
    exists (a :: ams), w2. cbn [mapM]. unfold bind. rewrite H1, H2.
    split; [reflexivity|].
    repeat split; try congruence. constructor; assumption.
Qed.

(** A successful reply of [/message], in both variants that post to it, adds
    one message per entry of [data.messages], in order and without filtering
    (entries of role [user] included), after the messages already shown:
    each with the entry's own [id] when truthy, the text
    [text || content || ''] and the role [role || 'assistant']. A reply
    without [messages] adds nothing. Neither touches the overlay. *)
Theorem message_reply_appends_every_entry :
  (forall (w : World ChatsClient.State) res data prev,
      json_ok res = true -> bodyJson res = Some data ->
      nullish data = false ->
      ChatsClient.messages (st w) = JArr prev ->
      (forall l,
          prop data "messages" = JArr l ->
          forallb (fun m => negb (nullish m)) l = true ->
          exists ams w',
            ChatsClient.sendMessage_resume (Responded res) w = (Ok tt, w')
            /\ ChatsClient.messages (st w') = JArr (prev ++ ams)
            /\ Forall2 delivered_as l ams
            /\ ChatsClient.error (st w') = ChatsClient.error (st w))
      /\ (truthy (prop data "messages") = false ->
            exists w',
              ChatsClient.sendMessage_resume (Responded res) w = (Ok tt, w')
              /\ ChatsClient.messages (st w') = JArr prev
              /\ ChatsClient.error (st w') = ChatsClient.error (st w)))
  /\ (forall (w : World LoginClient.State) res data prev,
         ok res = true -> bodyJson res = Some data ->
         nullish data = false ->
         LoginClient.messages (st w) = JArr prev ->
         (forall l,
             prop data "messages" = JArr l ->
             forallb (fun m => negb (nullish m)) l = true ->
             exists ams w',
               LoginClient.sendMessage_resume (Responded res) w = (Ok tt, w')
               /\ LoginClient.messages (st w') = JArr (prev ++ ams)
               /\ Forall2 delivered_as l ams
               /\ LoginClient.error (st w') = LoginClient.error (st w))
         /\ (truthy (prop data "messages") = false ->
               exists w',
                 LoginClient.sendMessage_resume (Responded res) w = (Ok tt, w')
                 /\ LoginClient.messages (st w') = JArr prev
                 /\ LoginClient.error (st w') = LoginClient.error (st w))).
Proof.
  split.
  - intros w res data prev Hj Hd Hn Hp. split.
    + intros l Hl Hall.
      destruct (chats_mapM_to_assistant l Hall w)
        as (ams & w1 & H1 & Hs & _ & _ & HF).
      exists ams. eexists.
      unfold ChatsClient.sendMessage_resume, try_catch, bind, settled,
        res_json, lift.
      rewrite Hj, Hd, (get_prop_not_nullish data "messages" Hn), Hl.
      cbn [or_else truthy as_array lift]. rewrite H1.
      unfold ChatsClient.appendMessages, modify_st_with.
      rewrite Hs, Hp. cbn [spread].
      split; [reflexivity|]. cbn.
      split; [reflexivity|]. split; [exact HF | reflexivity].
    + intros Hf. eexists.
      unfold ChatsClient.sendMessage_resume, try_catch, bind, settled,
        res_json, lift.
      rewrite Hj, Hd, (get_prop_not_nullish data "messages" Hn).
      unfold or_else. rewrite Hf. cbn.
      unfold ChatsClient.appendMessages, modify_st_with. rewrite Hp. cbn.
      split; [reflexivity|]. cbn. rewrite app_nil_r. split; reflexivity.
  - intros w res data prev Hj Hd Hn Hp. split.
    + intros l Hl Hall.
      destruct (login_mapM_to_assistant l Hall w)
        as (ams & w1 & H1 & Hs & _ & _ & HF).
      exists ams. eexists.
      unfold LoginClient.sendMessage_resume, try_catch, bind, settled,
        res_json, lift.
      rewrite Hj, Hd, (get_prop_not_nullish data "messages" Hn), Hl.
      cbn [or_else truthy as_array lift]. rewrite H1.
      unfold LoginClient.appendMessages, modify_st_with.
      rewrite Hs, Hp. cbn [spread].
      split; [reflexivity|]. cbn.
      split; [reflexivity|]. split; [exact HF | reflexivity].
    + intros Hf. eexists.
      unfold LoginClient.sendMessage_resume, try_catch, bind, settled,
        res_json, lift.
      rewrite Hj, Hd, (get_prop_not_nullish data "messages" Hn).
      unfold or_else. rewrite Hf. cbn.
      unfold LoginClient.appendMessages, modify_st_with. rewrite Hp. cbn.
      split; [reflexivity|]. cbn. rewrite app_nil_r. split; reflexivity.
Qed.

Lemma message_reply_appends_every_entry_witness :
  let w := world_at (ChatsClient.mkState "http://host" "k" (Some "k")
                                         (JArr [JStr "shown"]) "" None) 7 in
  let echo := JObj [("id", JStr "9"); ("role", JStr "user");
                    ("text", JStr "hi"); ("content", JStr "other")] in
  let data := JObj [("messages", JArr [echo])] in
  exists a w',
    ChatsClient.sendMessage_resume (Responded (json_reply data "")) w
    = (Ok tt, w')
    /\ ChatsClient.messages (st w') = JArr [JStr "shown"; a]
    /\ prop a "text" = JStr "hi"
    /\ prop a "role" = JStr "user".
Proof.
  intros w echo data.
  destruct message_reply_appends_every_entry as [Hchats _].
  destruct (Hchats w (json_reply data "") data [JStr "shown"]
                   eq_refl eq_refl eq_refl eq_refl) as [Hlist _].
  destruct (Hlist [echo] eq_refl eq_refl) as (ams & w' & Hr & Hm & HF & _).
  inversion HF as [|m a l' ams' Hd Hrest]; subst.
  inversion Hrest; subst.
  destruct Hd as (i & -> & _).
  eexists. exists w'. split; [exact Hr|]. split; [exact Hm|].
  split; reflexivity.
Defined.

End MessageReplies.

(* ===================================================================== *)
(** ** Logging in                                                          *)
(* ===================================================================== *)

Section Login.
Import JsString Js Runtime Reading Observing LoginForm.
Local Open Scope js_scope.

Lemma login_start_posts (w : World State) :
  login_start w
  = (Ok (AwaitFetch
           {| url := serverUrl (st w) +:+ "/api/login";
              method := "POST";
              headers := [("Content-Type", "application/json")];
              body := Some (JObj [("username", JStr (username (st w)));
                                  ("password", JStr (password (st w)))]) |}),
     sent {| url := serverUrl (st w) +:+ "/api/login";
             method := "POST";
             headers := [("Content-Type", "application/json")];
             body := Some (JObj [("username", JStr (username (st w)));
                                 ("password", JStr (password (st w)))]) |}
          (with_st (with_error None (st w)) w)).
Proof. reflexivity. Qed.

(** [login] validates nothing and always posts the user name and password
    as typed -- blank fields included -- after clearing the overlay. What it
    leaves depends on the answer alone. A 2xx reply with a JSON body other
    than [null] makes [data.token] the token, whatever it is, and sets no
    error: a reply without a truthy [token] leaves the login form on screen
    with no message at all. A status outside 2xx sets [Login failed]; a
    rejected fetch, and a body that is not JSON or is [null], set
    [Network error]; in both cases the token is untouched. *)
Theorem login_outcomes (w : World State) :
  (exists req,
      fst (login_start w) = Ok (AwaitFetch req)
      /\ network (snd (login_start w)) = network w ++ [req]
      /\ url req = serverUrl (st w) +:+ "/api/login"
      /\ body req = Some (JObj [("username", JStr (username (st w)));
                                ("password", JStr (password (st w)))]))
  /\ (forall res data,
         ok res = true -> bodyJson res = Some data -> nullish data = false ->
         exists w',
           login (Responded res) w = (Ok tt, w')
           /\ token (st w') = prop data "token"
           /\ error (st w') = None
           /\ shows_login (st w') = negb (truthy (prop data "token")))
  /\ (forall res,
         ok res = false ->
         exists w',
           login (Responded res) w = (Ok tt, w')
           /\ token (st w') = token (st w)
           /\ error (st w') = Some "Login failed")
  /\ (forall o,
         o = Rejected
         \/ (exists res, o = Responded res /\ ok res = true
                         /\ (bodyJson res = None \/ bodyJson res = Some JNull)) ->
         exists w',
           login o w = (Ok tt, w')
           /\ token (st w') = token (st w)
           /\ error (st w') = Some "Network error").
Proof.
  split; [|split; [|split]].
  - eexists. rewrite login_start_posts. repeat split; reflexivity.
  - intros res data Hk Hd Hn. eexists.
    unfold login, bind. rewrite login_start_posts.
    unfold login_resume, try_catch, bind, settled, res_json, lift.
    rewrite Hk, Hd, (get_prop_not_nullish data "token" Hn).
    split; [reflexivity|]. repeat split; reflexivity.
  - intros res Hk. eexists.
    unfold login, bind. rewrite login_start_posts.
    unfold login_resume, try_catch, bind, settled, lift. rewrite Hk.
    split; [reflexivity|]. split; reflexivity.
  - intros o [->|(res & -> & Hk & [Hd|Hd])]; eexists;
      unfold login, bind; rewrite login_start_posts;
      unfold login_resume, try_catch, bind, settled, res_json, lift;
      rewrite ?Hk, ?Hd; (split; [reflexivity|]); split; reflexivity.
Qed.

Lemma login_outcomes_witness :
  let w := world_at (mkState "http://host" "" "" JNull (JArr []) ""
                             (Some "Login failed")) 0 in
  let tokenless := {| status := 200; contentTypeHeader := None;
                      bodyText := "";
                      bodyJson := Some (JObj [("user", JStr "u")]) |} in
  exists w',
    login (Responded tokenless) w = (Ok tt, w')
    /\ error (st w') = None
    /\ shows_login (st w') = true.
Proof.
  intros w tokenless.
  destruct (login_outcomes w) as (_ & Hok & _).
  destruct (Hok tokenless (JObj [("user", JStr "u")]) eq_refl eq_refl eq_refl)
    as (w' & Hr & _ & He & Hs).
  exists w'. split; [exact Hr|]. split; [exact He | exact Hs].
Defined.

End Login.

(* ===================================================================== *)
(** ** The session as a state machine                                      *)
(* ===================================================================== *)

Section Session.
Import JsString Js Runtime Reading Observing ModelsClient ModelsApp.
Local Open Scope js_scope.

Lemma deps_unchanged (old new : State) :
  token new = token old -> serverUrl new = serverUrl old ->
  deps_changed old new = false.
Proof.
  intros Ht Hu. unfold deps_changed. rewrite Ht, Hu, String.eqb_refl.
  destruct (token old); [rewrite String.eqb_refl|]; reflexivity.
Qed.

Lemma deps_changed_on_connect (old new : State) :
  no_token (token old) = true -> no_token (token new) = false ->
  deps_changed old new = true.
Proof.
  unfold deps_changed, no_token. intros Ho Hn.
  destruct (token old) as [a|], (token new) as [b|]; try discriminate;
    try reflexivity.
  destruct a; [|discriminate Ho]. destruct b; [discriminate Hn|reflexivity].
Qed.

Lemma run_effect_quiet (old : State) (w : World State) (fl : list Pending) :
  deps_changed old (st w) = false \/ no_token (token (st w)) = true ->
  run_effect old w fl = Some (mkConfig w fl).
Proof.
  intros H. unfold run_effect.
  destruct (deps_changed old (st w)); [|reflexivity].
  destruct H as [H|H]; [discriminate H|].
  unfold setup_start, bind, read_st, ret. rewrite H. reflexivity.
Qed.

Lemma run_effect_discovers (old : State) (w : World State)
      (fl : list Pending) :
  deps_changed old (st w) = true -> no_token (token (st w)) = false ->
  exists req,
    run_effect old w fl
    = Some (mkConfig (sent req (with_st (with_messages []
                                           (with_error None (st w))) w))
                     (fl ++ [DiscoveryPending]))
    /\ method req = "GET"
    /\ url req = getApiBase (st w) +:+ "/models"
    /\ authorized (match token (st w) with Some t => t | None => "" end) req.
Proof.
  intros Hd Ht. unfold run_effect. rewrite Hd.
  unfold setup_start, fetchFirstModel_start, bind, read_st.
  rewrite Ht. cbn. rewrite Ht. cbn. eexists. split; [reflexivity|].
  split; [reflexivity|]. split; [reflexivity|].
  left. unfold bearer. cbn. destruct (token (st w)); [reflexivity|].
  discriminate Ht.
Qed.

Lemma screen_form (s : State) :
  screen s = ConnectForm <-> no_token (token s) = true.
Proof.
  unfold screen. destruct (no_token (token s)); [tauto|].
  destruct (truthy (model s)); split; discriminate.
Qed.

Lemma resume_keeps_credential (o : FetchOutcome) :
  preserves (fun w => (token (st w), serverUrl (st w))) (setup_resume o)
  /\ preserves (fun w => (token (st w), serverUrl (st w)))
               (sendMessage_resume o).
Proof. split; steps. Qed.

(** What one event does, by kind of event. *)
Lemma fire_summary (e : Event) (c c' : Config) :
  fire e c = Some c' ->
  let w := world c in
  let w' := world c' in
  (* typing on the form, or a rejected connect *)
  (no_token (token (st w)) = true
   /\ no_token (token (st w')) = true
   /\ messages (st w') = messages (st w)
   /\ model (st w') = model (st w)
   /\ network w' = network w
   /\ inflight c' = inflight c)
  (* an accepted connect *)
  \/ (no_token (token (st w)) = true
      /\ exists key req,
          is_empty key = false
          /\ token (st w') = Some key
          /\ localStorage w' !! "apiKey" = Some key
          /\ network w' = network w ++ [req]
          /\ method req = "GET"
          /\ messages (st w') = []
          /\ inflight c' = inflight c ++ [DiscoveryPending])
  (* typing or sending in the chat *)
  \/ (screen (st w) = ChatScreen
      /\ token (st w') = token (st w)
      /\ serverUrl (st w') = serverUrl (st w)
      /\ model (st w') = model (st w)
      /\ localStorage w' = localStorage w
      /\ (network w' = network w
          \/ exists req, network w' = network w ++ [req]
                         /\ method req = "POST"))
  (* a fetch settles *)
  \/ (exists i p,
         nth_error (inflight c) i = Some p
         /\ token (st w') = token (st w)
         /\ serverUrl (st w') = serverUrl (st w)
         /\ localStorage w' = localStorage w
         /\ network w' = network w
         /\ inflight c' = remove_nth i (inflight c)).
Proof.
  destruct c as [w fl]. unfold fire. cbn [world inflight].
  destruct e as [v|v| |v| |i o].
  - (* TypeServerUrl *)
    destruct (screen (st w)) eqn:Hs; try discriminate.
    apply screen_form in Hs. cbn [completed setServerUrl modify_st].
    rewrite run_effect_quiet by (right; exact Hs).
    intros H. injection H as <-. left. cbn. auto 12.
  - (* TypeApiKey *)
    destruct (screen (st w)) eqn:Hs; try discriminate.
    apply screen_form in Hs. cbn [completed setApiKey modify_st].
    rewrite run_effect_quiet by (right; exact Hs).
    intros H. injection H as <-. left. cbn. auto 12.
  - (* ClickConnect *)
    destruct (screen (st w)) eqn:Hs; try discriminate.
    apply screen_form in Hs.
    destruct (is_empty (trim (serverUrl (st w)))
              || is_empty (trim (apiKey (st w))))%bool eqn:Hv.
    + rewrite connect_rejects
        by (apply orb_true_iff in Hv; exact Hv).
      cbn [completed]. rewrite run_effect_quiet by (right; exact Hs).
      intros H. injection H as <-. left. cbn. auto 12.
    + apply orb_false_iff in Hv as [Hu Hk].
      rewrite (connect_accepts w Hu Hk). cbn [completed].
      match goal with
      | |- run_effect _ ?mid _ = _ -> _ =>
          destruct (run_effect_discovers (st w) mid fl) as (req & Hr & Hm & _)
      end.
      { apply deps_changed_on_connect; [exact Hs | exact Hk]. }
      { exact Hk. }
      rewrite Hr. intros H. injection H as <-. right. left.
      split; [exact Hs|]. exists (trim (apiKey (st w))), req.
      cbn. split; [exact Hk|]. split; [reflexivity|].
      split; [apply lookup_insert_eq|]. auto 12.
  - (* TypeMessage *)
    destruct (screen (st w)) eqn:Hs; try discriminate.
    cbn [completed setCurrentMsg modify_st].
    rewrite run_effect_quiet by (left; apply deps_unchanged; reflexivity).
    intros H. injection H as <-. right. right. left. cbn. auto 12.
  - (* ClickSend *)
    destruct (screen (st w)) eqn:Hs; try discriminate.
    assert (Hguard : no_token (token (st w)) = false
                     /\ truthy (model (st w)) = true).
    { unfold screen in Hs. destruct (no_token (token (st w)));
        [discriminate Hs|]. destruct (truthy (model (st w)));
        [auto | discriminate Hs]. }
    destruct Hguard as [Ht Hm].
    destruct (is_empty (trim (currentMsg (st w)))) eqn:He.
    + rewrite sendMessage_start_returns by auto.
      rewrite run_effect_quiet by (left; apply deps_unchanged; reflexivity).
      intros H. injection H as <-. right. right. left. cbn. auto 12.
    + rewrite (sendMessage_start_request w Ht Hm He).
      rewrite run_effect_quiet by (left; apply deps_unchanged; reflexivity).
      intros H. injection H as <-. right. right. left. cbn.
      repeat (split; [reflexivity|]). right. eexists. split; reflexivity.
  - (* Settle *)
    destruct (nth_error fl i) as [p|] eqn:Hp; [|discriminate].
    destruct (resume_keeps_credential o) as [Hsetup Hsend].
    destruct p.
    + pose proof (Hsetup w) as Hc.
      assert (Hn : preserves network (setup_resume o)) by steps.
      assert (Hl : preserves localStorage (setup_resume o)) by steps.
      specialize (Hn w). specialize (Hl w).
      destruct (setup_resume o w) as [[u|x|y] w1]; try discriminate.
      cbn [completed snd] in *. injection Hc as Hct Hcu.
      rewrite run_effect_quiet
        by (left; apply deps_unchanged; assumption).
      intros H. injection H as <-. right. right. right.
      exists i, DiscoveryPending. cbn. auto 12.
    + pose proof (Hsend w) as Hc.
      assert (Hn : preserves network (sendMessage_resume o)) by steps.
      assert (Hl : preserves localStorage (sendMessage_resume o)) by steps.
      specialize (Hn w). specialize (Hl w).
      destruct (sendMessage_resume o w) as [[u|x|y] w1]; try discriminate.
      cbn [completed snd] in *. injection Hc as Hct Hcu.
      rewrite run_effect_quiet
        by (left; apply deps_unchanged; assumption).
      intros H. injection H as <-. right. right. right.
      exists i, SendPending. cbn. auto 12.
Qed.

End Session.

Section SessionInvariants.
Import JsString Js Runtime Reading Observing ModelsClient ModelsApp.
Local Open Scope js_scope.

Lemma mount_without_key (w : World State) :
  localStorage w !! "apiKey" = None \/ localStorage w !! "apiKey" = Some "" ->
  exists w',
    mount w = (Ok tt, w')
    /\ token (st w') = token (st w)
    /\ messages (st w') = messages (st w) /\ model (st w') = model (st w)
    /\ network w' = network w /\ localStorage w' = localStorage w.
Proof.
  intros H. unfold mount, bind, getItem_or_empty.
  assert (Hk : match localStorage w !! "apiKey" with
               | Some v => v
               | None => ""
               end = "") by (destruct H as [-> | ->]; reflexivity).
  rewrite Hk.
  destruct (is_empty _); cbn; eexists; (split; [reflexivity|]);
    cbn; auto 12.
Qed.

Lemma mount_with_key (w : World State) (key : string) :
  localStorage w !! "apiKey" = Some key -> is_empty key = false ->
  exists w',
    mount w = (Ok tt, w')
    /\ token (st w') = Some key
    /\ serverUrl (st w')
       = match localStorage w !! "serverUrl" with
         | Some u => if is_empty u then serverUrl (st w) else u
         | None => serverUrl (st w)
         end
    /\ messages (st w') = messages (st w) /\ model (st w') = model (st w)
    /\ network w' = network w /\ localStorage w' = localStorage w.
Proof.
  intros Hk He. unfold mount, bind, getItem_or_empty. rewrite Hk, He.
  destruct (localStorage w !! "serverUrl") as [u|]; cbn;
    [destruct (is_empty u); cbn|];
    eexists; (split; [reflexivity|]); cbn; auto 12.
Qed.

Lemma boot_cases (storage : gmap string string) (clock : nat -> Z) :
  (storage !! "apiKey" = None \/ storage !! "apiKey" = Some "" ->
     exists c,
       boot storage clock = Some c
       /\ no_token (token (st (world c))) = true
       /\ messages (st (world c)) = []
       /\ model (st (world c)) = JNull
       /\ network (world c) = []
       /\ inflight c = [])
  /\ (forall key,
         storage !! "apiKey" = Some key -> is_empty key = false ->
         exists c req,
           boot storage clock = Some c
           /\ token (st (world c)) = Some key
           /\ model (st (world c)) = JNull
           /\ localStorage (world c) = storage
           /\ network (world c) = [req]
           /\ method req = "GET"
           /\ authorized key req
           /\ url req = getApiBase (st (world c)) +:+ "/models"
           /\ (storage !! "serverUrl" = None -> url req = "/api/models")
           /\ serverUrl (st (world c))
              = match storage !! "serverUrl" with
                | Some u => u
                | None => ""
                end
           /\ inflight c = [DiscoveryPending]).
Proof.
  split.
  - intros H. unfold boot.
    destruct (mount_without_key (mkWorld initial storage [] [] clock 0%nat) H)
      as (w1 & Hm & Ht & Hmsg & Hmod & Hn & _).
    rewrite Hm. cbn [completed].
    rewrite run_effect_quiet by (right; rewrite Ht; reflexivity).
    eexists. split; [reflexivity|]. cbn [world inflight].
    rewrite Ht, Hmsg, Hmod, Hn. cbn. auto 12.
  - intros key Hk He. unfold boot.
    destruct (mount_with_key (mkWorld initial storage [] [] clock 0%nat)
                             key Hk He)
      as (w1 & Hm & Ht & Hu & _ & Hmod & Hn & Hl).
    rewrite Hm. cbn [completed].
    destruct (run_effect_discovers initial w1 [])
      as (req & Hr & Hmeth & Hurl & Hauth).
    { apply deps_changed_on_connect; [reflexivity|].
      rewrite Ht. exact He. }
    { rewrite Ht. exact He. }
    rewrite Hr. do 2 eexists. split; [reflexivity|].
    cbn [world inflight]. rewrite Ht in Hauth. cbn in Hu, Hmod, Hn, Hl.
    cbn. rewrite Hn, Hl.
    split; [exact Ht|]. split; [exact Hmod|].
    split; [reflexivity|]. split; [reflexivity|].
    split; [exact Hmeth|]. split; [exact Hauth|].
    split; [exact Hurl|]. split; [|split; [|reflexivity]].
    + intros Hnone. rewrite Hurl. unfold getApiBase. rewrite Hu, Hnone.
      reflexivity.
    + rewrite Hu. destruct (storage !! "serverUrl") as [u|]; [|reflexivity].
      destruct u; reflexivity.
Qed.

(** A session started with no stored key stays on the connection form and
    fetches nothing, whatever else is stored. A session started with a
    stored key is connected at once, with that key as token, and sends one
    discovery request -- also when no server URL is stored, in which case
    the request goes to the relative path [/api/models]. *)
Theorem boot_depends_on_the_stored_key
  (storage : gmap string string) (clock : nat -> Z) :
  (storage !! "apiKey" = None \/ storage !! "apiKey" = Some "" ->
     exists c,
       boot storage clock = Some c
       /\ screen (st (world c)) = ConnectForm
       /\ network (world c) = []
       /\ inflight c = [])
  /\ (forall key,
         storage !! "apiKey" = Some key -> is_empty key = false ->
         exists c req,
           boot storage clock = Some c
           /\ token (st (world c)) = Some key
           /\ screen (st (world c)) = LoadingModels
           /\ network (world c) = [req]
           /\ authorized key req
           /\ url req = getApiBase (st (world c)) +:+ "/models"
           /\ (storage !! "serverUrl" = None -> url req = "/api/models")
           /\ inflight c = [DiscoveryPending]).
Proof.
  destruct (boot_cases storage clock) as [Hnone Hkey]. split.
  - intros H. destruct (Hnone H) as (c & Hb & Ht & _ & _ & Hn & Hf).
    exists c. split; [exact Hb|]. split; [apply screen_form, Ht | auto].
  - intros key Hk He.
    destruct (Hkey key Hk He)
      as (c & req & Hb & Ht & Hmod & _ & Hn & _ & Ha & Hu & Hrel & _ & Hf).
    exists c, req. split; [exact Hb|]. split; [exact Ht|].
    split; [|auto 12].
    unfold screen. rewrite Ht, Hmod. cbn. rewrite He. reflexivity.
Qed.

Lemma boot_depends_on_the_stored_key_witness :
  exists c req,
    boot {["apiKey" := "k"]} (fun _ => 0) = Some c
    /\ network (world c) = [req]
    /\ url req = "/api/models"
    /\ authorized "k" req.
Proof.
  destruct (boot_depends_on_the_stored_key {["apiKey" := "k"]} (fun _ => 0))
    as [_ H].
  destruct (H "k" eq_refl eq_refl)
    as (c & req & Hb & _ & _ & Hn & Ha & _ & Hu & _).
  exists c, req. split; [exact Hb|]. split; [exact Hn|].
  split; [apply Hu; reflexivity | exact Ha].
Defined.

Lemma boot_coherent (storage : gmap string string) (clock : nat -> Z)
      (c : Config) :
  boot storage clock = Some c -> coherent c.
Proof.
  intros Hb. destruct (boot_cases storage clock) as [Hnone Hkey].
  assert (Hcase : (storage !! "apiKey" = None \/ storage !! "apiKey" = Some "")
                  \/ exists key, storage !! "apiKey" = Some key
                                 /\ is_empty key = false).
  { destruct (storage !! "apiKey") as [key|]; [|auto].
    destruct key; [auto|]. right. eexists. split; reflexivity. }
  destruct Hcase as [H|(key & Hk & He)].
  - destruct (Hnone H) as (c0 & Hb0 & Ht & Hm & Hmod & Hn & Hf).
    rewrite Hb in Hb0. injection Hb0 as <-.
    split; [auto|].
    intros t Et Hne. unfold no_token in Ht. rewrite Et, Hne in Ht.
    discriminate Ht.
  - destruct (Hkey key Hk He)
      as (c0 & req & Hb0 & Ht & _ & Hl & Hn & Hmeth & _).
    rewrite Hb in Hb0. injection Hb0 as <-.
    split.
    + intros Hno. unfold no_token in Hno. rewrite Ht, He in Hno.
      discriminate Hno.
    + intros t Et _. rewrite Ht in Et. injection Et as <-.
      split; [rewrite Hl; exact Hk|].
      unfold discoveries. rewrite Hn. cbn. rewrite Hmeth. reflexivity.
Qed.

Lemma fire_coherent (e : Event) (c c' : Config) :
  coherent c -> fire e c = Some c' -> coherent c'.
Proof.
  intros [Hoff Hon] Hf.
  destruct (fire_summary e c c' Hf)
    as [(Ht & Ht' & Hm & Hmod & Hn & Hfl)
       |[(Ht & key & req & Hk & Ht' & Hl & Hn & Hmeth & Hm & Hfl)
        |[(Hs & Ht' & Hu & Hmod & Hl & Hn)
         |(i & p & Hp & Ht' & Hu & Hl & Hn & Hfl)]]].
  - destruct (Hoff Ht) as (H1 & H2 & H3 & H4). split.
    + intros _. rewrite Hm, Hfl, Hn, Hmod. auto.
    + intros t Et Hne. unfold no_token in Ht'. rewrite Et, Hne in Ht'.
      discriminate Ht'.
  - destruct (Hoff Ht) as (_ & _ & H3 & _). split.
    + intros Hno. unfold no_token in Hno. rewrite Ht', Hk in Hno.
      discriminate Hno.
    + intros t Et _. rewrite Ht' in Et. injection Et as <-.
      split; [exact Hl|].
      unfold discoveries. rewrite Hn, H3. cbn. rewrite Hmeth. reflexivity.
  - assert (Hyes : no_token (token (st (world c))) = false).
    { destruct (no_token (token (st (world c)))) eqn:E; [|reflexivity].
      apply screen_form in E. rewrite E in Hs. discriminate Hs. }
    split.
    + intros Hno. rewrite Ht', Hyes in Hno. discriminate Hno.
    + intros t Et Hne. rewrite Ht' in Et.
      destruct (Hon t Et Hne) as [H1 H2]. rewrite Hl. split; [exact H1|].
      unfold discoveries in *.
      destruct Hn as [-> | (req & -> & Hmeth)]; [exact H2|].
      rewrite List.filter_app. cbn. rewrite Hmeth. cbn.
      rewrite app_nil_r. exact H2.
  - assert (Hyes : no_token (token (st (world c))) = false).
    { destruct (no_token (token (st (world c)))) eqn:E; [|reflexivity].
      destruct (Hoff eq_refl) as (_ & H2 & _). rewrite H2 in Hp.
      destruct i; discriminate Hp. }
    split.
    + intros Hno. rewrite Ht', Hyes in Hno. discriminate Hno.
    + intros t Et Hne. rewrite Ht' in Et.
      destruct (Hon t Et Hne) as [H1 H2]. rewrite Hl. split; [exact H1|].
      unfold discoveries in *. rewrite Hn. exact H2.
Qed.

Lemma reachable_coherent (storage : gmap string string) (clock : nat -> Z)
      (c : Config) :
  reachable storage clock c -> coherent c.
Proof.
  induction 1 as [c Hb | c c' e _ IH Hf].
  - exact (boot_coherent storage clock c Hb).
  - exact (fire_coherent e c c' IH Hf).
Qed.

(** Once a token is set, no event takes it away or changes it, and none
    changes the server URL or the stored credential: the connection form
    is never shown again, and a session cannot be pointed at another
    server. *)
Theorem connection_is_never_lost (e : Event) (c c' : Config) :
  fire e c = Some c' ->
  no_token (token (st (world c))) = false ->
  token (st (world c')) = token (st (world c))
  /\ serverUrl (st (world c')) = serverUrl (st (world c))
  /\ localStorage (world c') = localStorage (world c)
  /\ screen (st (world c')) <> ConnectForm.
Proof.
  intros Hf Hyes.
  assert (Hgoal : token (st (world c')) = token (st (world c))
                  /\ serverUrl (st (world c')) = serverUrl (st (world c))
                  /\ localStorage (world c') = localStorage (world c)).
  { destruct (fire_summary e c c' Hf)
      as [(Ht & _)|[(Ht & _)|[(_ & Ht' & Hu & _ & Hl & _)
                             |(i & p & _ & Ht' & Hu & Hl & _)]]];
      try (rewrite Ht in Hyes; discriminate Hyes); auto. }
  destruct Hgoal as (Ht & Hu & Hl). repeat (split; [assumption|]).
  intros Hs. apply screen_form in Hs. rewrite Ht, Hyes in Hs. discriminate Hs.
Qed.

Lemma connection_is_never_lost_witness :
  let c := mkConfig (world_at (mkState "http://host" "k" (Some "k") (JStr "m")
                                       [] "" None) 0) [DiscoveryPending] in
  exists c',
    fire (Settle 0 Rejected) c = Some c'
    /\ token (st (world c')) = Some "k"
    /\ model (st (world c')) = JNull
    /\ screen (st (world c')) <> ConnectForm.
Proof.
  intros c. eexists. split; [vm_compute; reflexivity|].
  match goal with
  | |- token (st (world ?c1)) = _ /\ _ =>
      destruct (connection_is_never_lost (Settle 0 Rejected) c c1)
        as (Ht & _ & _ & Hs); [vm_compute; reflexivity | reflexivity |]
  end.
  split; [exact Ht|]. split; [reflexivity | exact Hs].
Defined.

(** In every configuration a session can reach: while there is no token,
    no message is shown, no model is selected, nothing was ever fetched and
    nothing is in flight; once there is a token, exactly one model-discovery
    request has been sent, however many messages were exchanged since. *)
Theorem one_discovery_per_session
  (storage : gmap string string) (clock : nat -> Z) (c : Config) :
  reachable storage clock c ->
  (no_token (token (st (world c))) = true ->
     messages (st (world c)) = [] /\ model (st (world c)) = JNull
     /\ network (world c) = [] /\ inflight c = [])
  /\ (no_token (token (st (world c))) = false ->
      length (discoveries (world c)) = 1%nat).
Proof.
  intros Hr. destruct (reachable_coherent storage clock c Hr) as [Hoff Hon].
  split.
  - intros Hno. destruct (Hoff Hno) as (H1 & H2 & H3 & H4). auto.
  - intros Hyes. unfold no_token in Hyes.
    destruct (token (st (world c))) as [t|] eqn:Et; [|discriminate Hyes].
    exact (proj2 (Hon t eq_refl Hyes)).
Qed.

(** In every configuration a session can reach, the token in use is the
    key kept in [localStorage]: what a restart would restore is what the
    running session sends. *)
Theorem token_is_the_stored_key
  (storage : gmap string string) (clock : nat -> Z) (c : Config) (t : string) :
  reachable storage clock c ->
  token (st (world c)) = Some t ->
  is_empty t = false ->
  localStorage (world c) !! "apiKey" = Some t.
Proof.
  intros Hr Et Hne.
  destruct (reachable_coherent storage clock c Hr) as [_ Hon].
  exact (proj1 (Hon t Et Hne)).
Qed.

Lemma run_events_reachable (storage : gmap string string) (clock : nat -> Z)
      (es : list Event) :
  forall c c',
    reachable storage clock c -> run_events es c = Some c' ->
    reachable storage clock c'.
Proof.
  induction es as [|e rest IH]; intros c c' Hr Hp; cbn in Hp.
  - injection Hp as <-. exact Hr.
  - destruct (fire e c) as [c1|] eqn:Hf; [|discriminate Hp].
    exact (IH c1 c' (reach_fire storage clock c c1 e Hr Hf) Hp).
Qed.

Lemma one_discovery_per_session_witness :
  let listing := JObj [("models", JArr [JObj [("id", JStr "m")]])] in
  let reply := JObj [("choices",
                      JArr [JObj [("message",
                                   JObj [("content", JStr "hello")])]])] in
  let day := [TypeServerUrl "http://host"; TypeApiKey "k"; ClickConnect;
              Settle 0 (Responded (json_reply listing ""));
              TypeMessage "hi"; ClickSend;
              Settle 0 (Responded (json_reply reply ""));
              TypeMessage "more"; ClickSend] in
  exists c0 c,
    boot ∅ (fun n => Z.of_nat n) = Some c0
    /\ run_events day c0 = Some c
    /\ length (network (world c)) = 3%nat
    /\ length (messages (st (world c))) = 3%nat
    /\ length (discoveries (world c)) = 1%nat.
Proof.
  intros listing reply day. do 2 eexists.
  split; [reflexivity|]. split; [vm_compute; reflexivity|].
  split; [reflexivity|]. split; [reflexivity|].
  refine (proj2 (one_discovery_per_session ∅ (fun n => Z.of_nat n) _ _) _).
  - apply (run_events_reachable ∅ (fun n => Z.of_nat n) day
             (mkConfig (world_at initial 0) [])).
    + apply reach_boot. reflexivity.
    + vm_compute. reflexivity.
  - reflexivity.
Defined.

Lemma token_is_the_stored_key_witness :
  let day := [TypeServerUrl "http://host"; TypeApiKey " k "; ClickConnect] in
  exists c0 c,
    boot ∅ (fun n => Z.of_nat n) = Some c0
    /\ run_events day c0 = Some c
    /\ apiKey (st (world c)) = " k "
    /\ localStorage (world c) !! "apiKey" = Some "k".
Proof.
  intros day. do 2 eexists.
  split; [reflexivity|]. split; [vm_compute; reflexivity|].
  split; [reflexivity|].
  refine (token_is_the_stored_key ∅ (fun n => Z.of_nat n) _ "k" _ _ _).
  - apply (run_events_reachable ∅ (fun n => Z.of_nat n) day
             (mkConfig (world_at initial 0) [])).
    + apply reach_boot. reflexivity.
    + vm_compute. reflexivity.
  - reflexivity.
  - reflexivity.
Defined.

(** [connect] stores the trimmed server URL but leaves the URL cell as
    typed. The discovery request of the session it starts therefore goes to
    the API base of the text as typed, surrounding whitespace included,
    while the discovery request of a session restarted from what was stored
    goes to the API base of the trimmed text. *)
Theorem session_uses_the_url_as_typed
  (w : World State) (fl : list Pending) (clock : nat -> Z) :
  no_token (token (st w)) = true ->
  is_empty (trim (serverUrl (st w))) = false ->
  is_empty (trim (apiKey (st w))) = false ->
  exists c req,
    fire ClickConnect (mkConfig w fl) = Some c
    /\ serverUrl (st (world c)) = serverUrl (st w)
    /\ network (world c) = network w ++ [req]
    /\ url req = normalized_base (serverUrl (st w)) +:+ "/models"
    /\ exists c2 req2,
         boot (localStorage (world c)) clock = Some c2
         /\ network (world c2) = [req2]
         /\ url req2
            = normalized_base (trim (serverUrl (st w))) +:+ "/models".
Proof.
  intros Ht Hu Hk.
  unfold fire. cbn [world inflight].
  rewrite (proj2 (screen_form (st w)) Ht).
  rewrite (connect_accepts w Hu Hk). cbn [completed].
  match goal with
  | |- context [run_effect (st w) ?mid fl] =>
      destruct (run_effect_discovers (st w) mid fl)
        as (req & Hr & _ & Hurl & _)
  end.
  { apply deps_changed_on_connect; [exact Ht | exact Hk]. }
  { exact Hk. }
  rewrite Hr. do 2 eexists. split; [reflexivity|].
  cbn [world]. split; [reflexivity|]. split; [reflexivity|].
  split; [exact Hurl|].
  destruct (boot_cases
              (<["apiKey" := trim (apiKey (st w))]>
                 (<["serverUrl" := trim (serverUrl (st w))]> (localStorage w)))
              clock) as [_ Hkey].
  destruct (Hkey (trim (apiKey (st w)))) as
      (c2 & req2 & Hb & _ & _ & _ & Hn & _ & _ & Hu2 & _ & Hs & _).
  { apply lookup_insert_eq. }
  { exact Hk. }
  exists c2, req2. split; [exact Hb|]. split; [exact Hn|].
  rewrite Hu2. unfold getApiBase. rewrite Hs.
  rewrite lookup_insert_ne by discriminate. rewrite lookup_insert_eq.
  reflexivity.
Qed.

Lemma session_uses_the_url_as_typed_witness :
  let typed := String.append "http://host/" (String (ascii_of_nat 32) "") in
  let w := world_at (mkState typed "k" None JNull [] "" None) 0 in
  exists c req c2 req2,
    fire ClickConnect (mkConfig w []) = Some c
    /\ network (world c) = [req]
    /\ url req = "http://host/ /api/models"
    /\ boot (localStorage (world c)) (fun _ => 0) = Some c2
    /\ network (world c2) = [req2]
    /\ url req2 = "http://host/api/models".
Proof.
  intros typed w.
  destruct (session_uses_the_url_as_typed w [] (fun _ => 0)
              eq_refl eq_refl eq_refl)
    as (c & req & Hf & _ & Hn & Hu & c2 & req2 & Hb & Hn2 & Hu2).
  exists c, req, c2, req2.
  split; [exact Hf|]. split; [exact Hn|]. split; [rewrite Hu; reflexivity|].
  split; [exact Hb|]. split; [exact Hn2 | rewrite Hu2; reflexivity].
Defined.

End SessionInvariants.

(* ===================================================================== *)
(** ** Who speaks                                                          *)
(* ===================================================================== *)

Section Speakers.
Import JsString Js Runtime Reading Observing ModelsClient ModelsApp.
Local Open Scope js_scope.

Variable P : ChatMessage.t -> Prop.

Lemma appends_only_of_preserves {A} (c : M State A) :
  preserves (fun w => messages (st w)) c -> appends_only P c.
Proof.
  intros H w. exists []. rewrite (H w). split; [|constructor].
  symmetry. apply app_nil_r.
Qed.

Lemma appends_only_bind {A B} (c : M State A) (k : A -> M State B) :
  appends_only P c -> (forall a, appends_only P (k a)) ->
  appends_only P (bind c k).
Proof.
  intros Hc Hk w. unfold bind. destruct (Hc w) as (x & Hx & HP).
  destruct (c w) as [[a|e|y] w1]; simpl in *.
  - destruct (Hk a w1) as (x' & Hx' & HP'). exists (x ++ x').
    rewrite Hx', Hx. split; [symmetry; apply app_assoc|].
    apply Forall_app; split; assumption.
  - exists x. auto.
  - exists x. auto.
Qed.

Lemma appends_only_try_catch {A} (c : M State A) (h : exn -> M State A) :
  appends_only P c -> (forall e, appends_only P (h e)) ->
  appends_only P (try_catch c h).
Proof.
  intros Hc Hh w. unfold try_catch. destruct (Hc w) as (x & Hx & HP).
  destruct (c w) as [[a|e|y] w1]; simpl in *.
  - exists x. auto.
  - destruct (Hh e w1) as (x' & Hx' & HP'). exists (x ++ x').
    rewrite Hx', Hx. split; [symmetry; apply app_assoc|].
    apply Forall_app; split; assumption.
  - exists x. auto.
Qed.

Lemma appends_only_if {A} (b : bool) (c1 c2 : M State A) :
  appends_only P c1 -> appends_only P c2 ->
  appends_only P (if b then c1 else c2).
Proof. destruct b; auto. Qed.

Lemma appends_only_setMessages (more : list ChatMessage.t) :
  Forall P more -> appends_only P (setMessages (fun prev => prev ++ more)).
Proof. intros H w. exists more. split; [reflexivity | exact H]. Qed.

End Speakers.

Section AssistantReplies.
Import JsString Js Runtime Reading Observing ModelsClient ModelsApp.
Local Open Scope js_scope.

Lemma speaker_assistant (m : ChatMessage.t) :
  speaker m = "Assistant" <-> strict_ne_str (ChatMessage.role m) "user" = true.
Proof.
  unfold speaker. destruct (strict_ne_str _ _); split; try reflexivity;
    discriminate.
Qed.

(** What [filter] keeps has a truthy role other than [user]. *)
Lemma filterM_not_user_keeps (l : list jsval) :
  forall (w w' : World State) (r : list jsval),
    filterM not_user l w = (Ok r, w') ->
    Forall (fun m => nullish m = false /\ kept m = true) r.
Proof.
  induction l as [|m rest IH]; intros w w' r H; cbn in H.
  - injection H as <- _. constructor.
  - unfold bind at 1 in H.
    destruct (nullish m) eqn:Hn.
    + destruct m; try discriminate Hn; discriminate H.
    + assert (Hp : not_user m w = (Ok (kept m), w)).
      { unfold not_user, bind, lift, kept.
        rewrite (get_prop_not_nullish m "role" Hn).
        destruct (truthy (prop m "role")); reflexivity. }
      rewrite Hp in H. unfold bind in H.
      destruct (filterM not_user rest w) as [[r0|e|y] w0] eqn:Hr;
        try discriminate H.
      cbn in H. injection H as <- _.
      specialize (IH w w0 r0 Hr).
      destruct (kept m) eqn:Hk; [constructor; auto | exact IH].
Qed.

Lemma mapM_to_assistant_roles (l : list jsval) :
  Forall (fun m => nullish m = false /\ kept m = true) l ->
  forall (w w' : World State) (r : list ChatMessage.t),
    mapM to_assistant l w = (Ok r, w') ->
    Forall (fun a => speaker a = "Assistant") r.
Proof.
  induction 1 as [|m rest [Hn Hk] _ IH]; intros w w' r H; cbn in H.
  - injection H as <- _. constructor.
  - unfold bind at 1 in H.
    destruct (to_assistant_not_nullish w m Hn) as (i & w1 & H1 & _).
    rewrite H1 in H. unfold bind in H.
    destruct (mapM to_assistant rest w1) as [[r0|e|y] w0] eqn:Hr;
      try discriminate H.
    cbn in H. injection H as <- _.
    constructor; [|exact (IH w1 w0 r0 Hr)].
    apply speaker_assistant. cbn.
    unfold kept in Hk. apply andb_true_iff in Hk as [Ht Hne].
    unfold or_else. rewrite Ht. exact Hne.
Qed.

Lemma messages_branch_speaks_as_assistant (arr : list jsval) :
  appends_only (fun a => speaker a = "Assistant")
    (kept <- filterM not_user arr ;;
     assistantMessages <- mapM to_assistant kept ;;
     setMessages (fun prev => prev ++ assistantMessages)).
Proof.
  intros w.
  assert (Hf : preserves (fun w => messages (st w)) (filterM not_user arr))
    by steps.
  specialize (Hf w). unfold bind at 1.
  destruct (filterM not_user arr w) as [[r|e|y] w1] eqn:Hr; cbn in Hf;
    try (exists []; cbn; rewrite Hf, app_nil_r;
         split; [reflexivity|constructor]).
  pose proof (filterM_not_user_keeps arr w w1 r Hr) as Hkept.
  assert (Hm : preserves (fun w => messages (st w)) (mapM to_assistant r))
    by steps.
  specialize (Hm w1). unfold bind.
  destruct (mapM to_assistant r w1) as [[ams|e|y] w2] eqn:Ha; cbn in Hm;
    try (exists []; cbn; rewrite Hm, Hf, app_nil_r;
         split; [reflexivity|constructor]).
  exists ams. cbn. rewrite Hm, Hf. split; [reflexivity|].
  exact (mapM_to_assistant_roles r Hkept w1 w2 ams Ha).
Qed.

(** Every message a settling chat-completions reply stores in the
    conversation has a role other than [user], so that the label expression
    [msg.role === 'user' ? 'You' : 'Assistant'] evaluates to [Assistant] on
    it -- for every outcome and every body, including a [messages] list
    with entries of role [user], which are dropped. The one stored message
    on which the label evaluates to [You] is the one [sendMessage] itself
    adds for the text typed. This is about the stored messages and the value
    of the label expression, not about the rendering of their text. *)
Theorem reply_messages_are_labelled_assistant (o : FetchOutcome) :
  appends_only (fun a => speaker a = "Assistant") (sendMessage_resume o)
  /\ (forall w w1 req,
         sendMessage_start w = (Ok (AwaitFetch req), w1) ->
         exists mine,
           messages (st w1) = messages (st w) ++ [mine]
           /\ speaker mine = "You"
           /\ ChatMessage.text mine = JStr (trim (currentMsg (st w)))).
Proof.
  split.
  - unfold sendMessage_resume, normalize.
    repeat first
      [ apply messages_branch_speaks_as_assistant
      | apply appends_only_setMessages;
        repeat constructor
      | progress cbv zeta
      | match goal with
        | |- appends_only _ (bind _ _) => apply appends_only_bind; [|intro]
        | |- appends_only _ (try_catch _ _) =>
            apply appends_only_try_catch; [|intro]
        | |- appends_only _ (if _ then _ else _) => apply appends_only_if
        end
      | (apply appends_only_of_preserves; solve [steps]) ].
  - intros w w1 req H.
    destruct (no_token (token (st w))) eqn:Ht;
      [rewrite sendMessage_start_returns in H by auto; discriminate H|].
    destruct (truthy (model (st w))) eqn:Hm;
      [|rewrite sendMessage_start_returns in H by auto; discriminate H].
    destruct (is_empty (trim (currentMsg (st w)))) eqn:He;
      [rewrite sendMessage_start_returns in H by auto; discriminate H|].
    rewrite (sendMessage_start_request w Ht Hm He) in H.
    injection H as _ <-.
    exists (user_message w). repeat split; reflexivity.
Qed.

Lemma reply_messages_are_labelled_assistant_witness :
  let w := world_at (mkState "http://host" "k" (Some "k") (JStr "m") [] "hi"
                             None) 5 in
  let reply :=
    Responded
      {| status := 200;
         contentTypeHeader := Some "application/json";
         bodyText := "";
         bodyJson :=
           Some (JObj [("messages",
                        JArr [JObj [("role", JStr "user");
                                    ("content", JStr "as you")];
                              JObj [("role", JStr "tool");
                                    ("content", JStr "ran")]])]) |} in
  let w2 := snd (sendMessage_resume reply (snd (sendMessage_start w))) in
  map speaker (messages (st w2)) = ["You"; "Assistant"]
  /\ (exists mine,
        messages (st (snd (sendMessage_start w))) = messages (st w) ++ [mine]
        /\ speaker mine = "You"
        /\ ChatMessage.text mine = JStr (trim (currentMsg (st w)))).
Proof.
  intros w reply w2. split; [vm_compute; reflexivity|].
  refine (proj2 (reply_messages_are_labelled_assistant reply) w _
                {| url := "http://host/api/chat/completions";
                   method := "POST";
                   headers := [("Content-Type", "application/json");
                               ("Authorization", "Bearer k")];
                   body := Some (JObj [("model", JStr "m");
                                       ("messages",
                                        JArr [JObj [("role", JStr "user");
                                                    ("content", JStr "hi")]])]) |}
                _).
  reflexivity.
Defined.

End AssistantReplies.

(* ===================================================================== *)
(** ** The conversation when the credential changes                        *)
(* ===================================================================== *)

Section CredentialChange.
Import JsString Js Runtime Reading.
Local Open Scope js_scope.













End CredentialChange.
